(** * Customer risk scoring, alerting and case management

    A shallow embedding of three Python classes of the repository:

    - [RiskScoringEngine]  (src/scoring/risk_engine.py)
    - [AMLAlertEngine]     (src/monitoring/alert_engine.py)
    - [AMLCaseManager]     (src/monitoring/case_manager.py)

    Conventions of the embedding.

    - The scoring engine is embedded twice.  [RiskEngine] carries out its
      arithmetic on exact rationals ([Q]); [RiskEngine64] carries out the
      same functions in IEEE binary64, where every division, product and sum
      is rounded to the nearest double ([Binary64.rnd]), as the interpreter
      does.  The two differ on inputs that sit within rounding error of a
      comparison boundary or of a rounding tie: five TRANSFER and one
      PAYMENT score 22.12 in exact arithmetic and 22.13 in doubles (lemma
      [doubles_differ_from_exact_arithmetic]).  Statements about the value
      of a score are made about [RiskEngine64]; the exact engine carries the
      statements that do not turn on the last digits of a score (step
      functions of counts and of the largest amount, ceilings, the
      portfolio loop).
    - [Series.mean()] is a parameter of [RiskEngine64]: the order in which
      pandas adds up a float column is not fixed by the source.
    - A pandas DataFrame is a list of rows together with the list of its
      column names; a row of a frame whose column is absent still carries a
      (meaningless) value for it, which the code never reads because it tests
      [in columns] first.
    - [uuid.uuid4()] and [datetime.now()] are reads of the environment: the
      n-th draw of an identifier and the n-th reading of the clock are given
      by an [Env], and the process state counts the draws and readings.
    - A call either returns a value or raises; see [outcome]. *)

From Stdlib Require Import ZArith QArith Qround String Ascii DecimalString List Bool Lia Lqa.
From Stdlib Require Import Sorted.
From Stdlib Require DecimalNat DecimalFacts SpecFloat.
Import ListNotations.

Open Scope string_scope.
Open Scope Q_scope.

(** ** Outcomes of a Python call *)

(** The exception classes named by the specification's error taxonomy.  None
    of the embedded functions contains a [raise] statement. *)
Inductive PyError : Type :=
| EmptyInputError
| CaseNotFoundError
| InvalidTransitionError.

Inductive outcome (A : Type) : Type :=
| Returned (a : A)
| Raised (e : PyError).

Arguments Returned {A} a.
Arguments Raised {A} e.

(** ** Dictionaries with string keys, as association lists *)

Fixpoint dict_get {V : Type} (d : list (string * V)) (k : string) (default : V) : V :=
  match d with
  | [] => default
  | (k', v) :: d' => if String.eqb k k' then v else dict_get d' k default
  end.

(** [x in xs] for a list of strings. *)
Definition str_in (x : string) (xs : list string) : bool :=
  existsb (String.eqb x) xs.

(** ** Rational arithmetic the way Python uses it *)

(** [a >= b] *)
Definition Qgeb (a b : Q) : bool := Qle_bool b a.

(** [min(a, b)]: the first argument unless the second is strictly smaller. *)
Definition py_min (a b : Q) : Q := if Qgeb b a then a else b.

(** Rounding to the nearest integer, ties to the even neighbour. *)
Definition round_half_even (x : Q) : Z :=
  let f := Qfloor x in
  match Qcompare (x - inject_Z f) (1 # 2) with
  | Lt => f
  | Gt => (f + 1)%Z
  | Eq => if Z.even f then f else (f + 1)%Z
  end.

(** [round(x, 2)] *)
Definition py_round2 (x : Q) : Q := round_half_even (x * 100) # 100.

(** * RiskScoringEngine *)

Module RiskEngine.

(** One row of the PaySim transaction table; [isFraud] is the 0/1 column. *)
Record Transaction : Type := {
  nameOrig : string;
  type : string;
  amount : Q;
  isFraud : bool
}.

Record DataFrame : Type := {
  columns : list string;
  rows : list Transaction
}.

(** [len(customer_data)] *)
Definition len (df : DataFrame) : nat := length (rows df).

(** [self.weights] *)
Record Weights : Type := {
  w_transaction_type : Q;
  w_amount_risk : Q;
  w_fraud_history : Q;
  w_cash_pattern : Q
}.

Definition weights : Weights := {|
  w_transaction_type := 0.25;
  w_amount_risk := 0.30;
  w_fraud_history := 0.35;
  w_cash_pattern := 0.10
|}.

(** [self.thresholds] *)
Record Thresholds : Type := {
  high_amount : Q;
  medium_amount : Q;
  low_risk : Q;
  medium_risk : Q;
  high_risk : Q
}.

Definition thresholds : Thresholds := {|
  high_amount := 578381.88;
  medium_amount := 100000;
  low_risk := 30;
  medium_risk := 60;
  high_risk := 85
|}.

(** [self.tx_type_scores] *)
Definition tx_type_scores : list (string * Q) :=
  [ ("TRANSFER", 85); ("CASH_OUT", 60); ("PAYMENT", 10); ("CASH_IN", 10); ("DEBIT", 10) ].

(** [Series.value_counts()]: the distinct values with their number of
    occurrences, most frequent first, ties in order of first appearance. *)
Fixpoint bump (k : string) (acc : list (string * nat)) : list (string * nat) :=
  match acc with
  | [] => [(k, 1%nat)]
  | (k', c) :: acc' => if String.eqb k k' then (k', S c) :: acc' else (k', c) :: bump k acc'
  end.

Definition tally (xs : list string) : list (string * nat) :=
  fold_left (fun acc k => bump k acc) xs [].

Fixpoint insert_desc (e : string * nat) (l : list (string * nat)) : list (string * nat) :=
  match l with
  | [] => [e]
  | e' :: l' => if (snd e' <? snd e)%nat then e :: l else e' :: insert_desc e l'
  end.

Definition value_counts (xs : list string) : list (string * nat) :=
  fold_left (fun acc e => insert_desc e acc) (tally xs) [].

Definition Qnat (n : nat) : Q := inject_Z (Z.of_nat n).

(** The loop body of [calculate_transaction_type_score]. *)
Definition add_type_share (total_tx : nat) (weighted_score : Q) (item : string * nat) : Q :=
  let proportion := Qnat (snd item) / Qnat total_tx in
  let type_score := dict_get tx_type_scores (fst item) 10 in
  weighted_score + proportion * type_score.

(** The source also computes [most_common_type] (the mode of the column) and
    never uses it; it is left out. *)
Definition calculate_transaction_type_score (customer_data : DataFrame) : Q :=
  if negb (str_in "type" (columns customer_data)) then 0
  else
    let type_counts := value_counts (map type (rows customer_data)) in
    let total_tx := len customer_data in
    let weighted_score := fold_left (add_type_share total_tx) type_counts 0 in
    py_min weighted_score 100.

(** [Series.max()] and [Series.mean()] of a column that has at least one row
    (the code reads them only after the [len == 0] test). *)
Definition series_max (xs : list Q) : Q :=
  match xs with
  | [] => 0
  | x :: xs' => fold_left (fun m y => if Qgeb m y then m else y) xs' x
  end.

Definition series_sum (xs : list Q) : Q := fold_left Qplus xs 0.

Definition series_mean (xs : list Q) : Q := series_sum xs / Qnat (length xs).

Definition calculate_amount_risk_score (customer_data : DataFrame) : Q :=
  if negb (str_in "amount" (columns customer_data)) || (len customer_data =? 0)%nat then 0
  else
    let max_amount := series_max (map amount (rows customer_data)) in
    let avg_amount := series_mean (map amount (rows customer_data)) in
    if Qgeb max_amount (high_amount thresholds) then 90
    else if Qgeb max_amount (medium_amount thresholds) then 60
    else if Qgeb avg_amount 50000 then 30
    else 10.

(** Number of rows on which a 0/1 or boolean column is set. *)
Definition count_true {A : Type} (p : A -> bool) (xs : list A) : nat :=
  length (filter p xs).

Definition calculate_fraud_history_score (customer_data : DataFrame) : Q :=
  if negb (str_in "isFraud" (columns customer_data)) || (len customer_data =? 0)%nat then 0
  else
    let fraud_count := count_true isFraud (rows customer_data) in
    let total_tx := len customer_data in
    let fraud_rate := if (0 <? total_tx)%nat then Qnat fraud_count / Qnat total_tx else 0 in
    if Qgeb fraud_rate 0.5 then 100
    else if Qgeb fraud_rate 0.1 then 80
    else if (0 <? fraud_count)%nat then 60
    else 0.

Definition calculate_cash_pattern_score (customer_data : DataFrame) : Q :=
  if negb (str_in "type" (columns customer_data)) || (len customer_data =? 0)%nat then 0
  else
    let cash_out_count :=
      count_true (fun t => String.eqb (type t) "CASH_OUT") (rows customer_data) in
    let total_tx := len customer_data in
    let cash_out_rate := if (0 <? total_tx)%nat then Qnat cash_out_count / Qnat total_tx else 0 in
    if Qgeb cash_out_rate 0.8 then 80
    else if Qgeb cash_out_rate 0.5 then 60
    else if Qgeb cash_out_rate 0.2 then 30
    else 10.

Definition get_risk_category (score : Q) : string :=
  if Qgeb score (high_risk thresholds) then "CRITICAL"
  else if Qgeb score (medium_risk thresholds) then "HIGH"
  else if Qgeb score (low_risk thresholds) then "MEDIUM"
  else "LOW".

Record Components : Type := {
  c_transaction_type : Q;
  c_amount_risk : Q;
  c_fraud_history : Q;
  c_cash_pattern : Q
}.

Record RiskResult : Type := {
  total_score : Q;
  risk_category : string;
  components : Components
}.

(** The weighted sum before rounding (the local [total_score] of the source). *)
Definition weighted_total (customer_data : DataFrame) : Q :=
  calculate_transaction_type_score customer_data * w_transaction_type weights +
  calculate_amount_risk_score customer_data * w_amount_risk weights +
  calculate_fraud_history_score customer_data * w_fraud_history weights +
  calculate_cash_pattern_score customer_data * w_cash_pattern weights.

Definition calculate_customer_risk_score (customer_data : DataFrame) : outcome RiskResult :=
  let tx_type_score := calculate_transaction_type_score customer_data in
  let amount_score := calculate_amount_risk_score customer_data in
  let fraud_score := calculate_fraud_history_score customer_data in
  let cash_score := calculate_cash_pattern_score customer_data in
  let total_score :=
    tx_type_score * w_transaction_type weights +
    amount_score * w_amount_risk weights +
    fraud_score * w_fraud_history weights +
    cash_score * w_cash_pattern weights in
  Returned {|
    total_score := py_round2 total_score;
    risk_category := get_risk_category total_score;
    components := {|
      c_transaction_type := py_round2 tx_type_score;
      c_amount_risk := py_round2 amount_score;
      c_fraud_history := py_round2 fraud_score;
      c_cash_pattern := py_round2 cash_score
    |}
  |}.

(** Rank of a category, for monotonicity statements. *)
Definition category_rank (c : string) : nat :=
  if String.eqb c "CRITICAL" then 3
  else if String.eqb c "HIGH" then 2
  else if String.eqb c "MEDIUM" then 1
  else 0.

(** A customer with 51 transactions: 9 TRANSFER, 13 CASH_OUT, 29 PAYMENT, one
    of them fraudulent, the largest of 600000. *)
Definition tx (ty : string) (amt : Q) (fraud : bool) : Transaction :=
  {| nameOrig := "C1000"; type := ty; amount := amt; isFraud := fraud |}.

Definition all_columns : list string := ["nameOrig"; "type"; "amount"; "isFraud"].

Definition borderline_frame : DataFrame := {|
  columns := all_columns;
  rows := tx "TRANSFER" 600000 true
          :: repeat (tx "TRANSFER" 100 false) 8
          ++ repeat (tx "CASH_OUT" 100 false) 13
          ++ repeat (tx "PAYMENT" 100 false) 29
|}.

Definition empty_frame : DataFrame := {| columns := all_columns; rows := [] |}.

End RiskEngine.

(** * IEEE binary64 arithmetic *)

(** A double is represented by the rational number it stands for.  The
    doubles are the numbers [m * 2^e] with [|m| < 2^53] and [e >= -1074];
    multiplied by [2^1074] they are integers, which is how [nearest_nonneg]
    finds the double nearest to a rational: it scales by [2^1074], keeps 53
    significant bits ([s] is the number of bits dropped, 0 for subnormals)
    and rounds the rest away, ties to the even significand.  The largest
    exponent is not modelled: the engine computes with shares of a total and
    with scores of at most 100, far below [2^1024]. *)
Module Binary64.

Definition nearest_nonneg (x : Q) : Q :=
  let y := x * inject_Z (2 ^ 1074) in
  let s := Z.max 0 (Z.log2 (Qfloor y) - 52) in
  inject_Z (round_half_even (y / inject_Z (2 ^ s)) * 2 ^ s) / inject_Z (2 ^ 1074).

(** The double nearest to [x], in lowest terms.  A float literal of the
    source denotes [rnd] of its decimal. *)
Definition rnd (x : Q) : Q :=
  Qred (if Qle_bool 0 x then nearest_nonneg x else - nearest_nonneg (- x)).

(** [x + y], [x * y] and [x / y] on doubles (an [int] operand is converted
    without loss; [int / int] is the correctly rounded quotient). *)
Definition fadd (x y : Q) : Q := rnd (x + y).
Definition fmul (x y : Q) : Q := rnd (x * y).
Definition fdiv (x y : Q) : Q := rnd (x / y).

(** [round(x, 2)] of a double: the decimal with two places nearest to the
    value of [x], ties to even, and then the double nearest to that. *)
Definition round2 (x : Q) : Q := rnd (py_round2 x).

End Binary64.

(** * RiskScoringEngine in binary64 *)

(** The functions of [RiskEngine] again, with the arithmetic of doubles.
    The frame, the table of type scores, [get_risk_category] (which compares
    with the integers 85, 60 and 30) and the result record are those of
    [RiskEngine]; the decimal constants are the doubles nearest to them. *)
Module RiskEngine64.

Import RiskEngine Binary64.

Section Engine.

(** [Series.mean()] of the [amount] column, as pandas computes it. *)
Variable series_mean : list Q -> Q.

Definition weights : Weights := {|
  w_transaction_type := rnd 0.25;
  w_amount_risk := rnd 0.30;
  w_fraud_history := rnd 0.35;
  w_cash_pattern := rnd 0.10
|}.

Definition thresholds : Thresholds := {|
  high_amount := rnd 578381.88;
  medium_amount := 100000;
  low_risk := 30;
  medium_risk := 60;
  high_risk := 85
|}.

(** The loop body of [calculate_transaction_type_score]: a division, a
    product and a sum, each rounded. *)
Definition add_type_share (total_tx : nat) (weighted_score : Q) (item : string * nat) : Q :=
  let proportion := fdiv (Qnat (snd item)) (Qnat total_tx) in
  let type_score := dict_get tx_type_scores (fst item) 10 in
  fadd weighted_score (fmul proportion type_score).

Definition calculate_transaction_type_score (customer_data : DataFrame) : Q :=
  if negb (str_in "type" (columns customer_data)) then 0
  else
    let type_counts := value_counts (map type (rows customer_data)) in
    let total_tx := len customer_data in
    let weighted_score := fold_left (add_type_share total_tx) type_counts 0 in
    py_min weighted_score 100.

Definition calculate_amount_risk_score (customer_data : DataFrame) : Q :=
  if negb (str_in "amount" (columns customer_data)) || (len customer_data =? 0)%nat then 0
  else
    let max_amount := series_max (map amount (rows customer_data)) in
    let avg_amount := series_mean (map amount (rows customer_data)) in
    if Qgeb max_amount (high_amount thresholds) then 90
    else if Qgeb max_amount (medium_amount thresholds) then 60
    else if Qgeb avg_amount 50000 then 30
    else 10.

Definition calculate_fraud_history_score (customer_data : DataFrame) : Q :=
  if negb (str_in "isFraud" (columns customer_data)) || (len customer_data =? 0)%nat then 0
  else
    let fraud_count := count_true isFraud (rows customer_data) in
    let total_tx := len customer_data in
    let fraud_rate :=
      if (0 <? total_tx)%nat then fdiv (Qnat fraud_count) (Qnat total_tx) else 0 in
    if Qgeb fraud_rate (rnd 0.5) then 100
    else if Qgeb fraud_rate (rnd 0.1) then 80
    else if (0 <? fraud_count)%nat then 60
    else 0.

Definition calculate_cash_pattern_score (customer_data : DataFrame) : Q :=
  if negb (str_in "type" (columns customer_data)) || (len customer_data =? 0)%nat then 0
  else
    let cash_out_count :=
      count_true (fun t => String.eqb (type t) "CASH_OUT") (rows customer_data) in
    let total_tx := len customer_data in
    let cash_out_rate :=
      if (0 <? total_tx)%nat then fdiv (Qnat cash_out_count) (Qnat total_tx) else 0 in
    if Qgeb cash_out_rate (rnd 0.8) then 80
    else if Qgeb cash_out_rate (rnd 0.5) then 60
    else if Qgeb cash_out_rate (rnd 0.2) then 30
    else 10.

(** The weighted sum before [round] (the local [total_score] of the source):
    four products added from left to right. *)
Definition weighted_total (customer_data : DataFrame) : Q :=
  fadd (fadd (fadd (fmul (calculate_transaction_type_score customer_data)
                         (w_transaction_type weights))
                   (fmul (calculate_amount_risk_score customer_data)
                         (w_amount_risk weights)))
             (fmul (calculate_fraud_history_score customer_data)
                   (w_fraud_history weights)))
       (fmul (calculate_cash_pattern_score customer_data) (w_cash_pattern weights)).

Definition calculate_customer_risk_score (customer_data : DataFrame) : outcome RiskResult :=
  let tx_type_score := calculate_transaction_type_score customer_data in
  let amount_score := calculate_amount_risk_score customer_data in
  let fraud_score := calculate_fraud_history_score customer_data in
  let cash_score := calculate_cash_pattern_score customer_data in
  let total_score :=
    fadd (fadd (fadd (fmul tx_type_score (w_transaction_type weights))
                     (fmul amount_score (w_amount_risk weights)))
               (fmul fraud_score (w_fraud_history weights)))
         (fmul cash_score (w_cash_pattern weights)) in
  Returned {|
    total_score := round2 total_score;
    risk_category := get_risk_category total_score;
    components := {|
      c_transaction_type := round2 tx_type_score;
      c_amount_risk := round2 amount_score;
      c_fraud_history := round2 fraud_score;
      c_cash_pattern := round2 cash_score
    |}
  |}.

End Engine.

(** Five TRANSFER and one PAYMENT of 100 each, none fraudulent. *)
Definition tie_frame : DataFrame := {|
  columns := all_columns;
  rows := (repeat (tx "TRANSFER" 100 false) 5 ++ [tx "PAYMENT" 100 false])%list
|}.

(** 32 TRANSFER, one CASH_OUT and two PAYMENT of 60000 each, none
    fraudulent. *)
Definition drift_frame : DataFrame := {|
  columns := all_columns;
  rows := (repeat (tx "TRANSFER" 60000 false) 32
           ++ [tx "CASH_OUT" 60000 false]
           ++ repeat (tx "PAYMENT" 60000 false) 2)%list
|}.

End RiskEngine64.

(** ** The same sums on the floats of the standard library *)

(** The type-score loop and the weighted sum once more, on the binary64
    numbers of [SpecFloat] (precision 53, largest exponent 1024), the
    library's own specification of IEEE arithmetic.  It serves to check
    [Binary64] on the examples of this file. *)
Module IEEE.

Import RiskEngine.

Definition double (z : Z) : SpecFloat.spec_float :=
  SpecFloat.binary_normalize 53 1024 z 0 false.

Definition add := SpecFloat.SFadd 53 1024.
Definition mul := SpecFloat.SFmul 53 1024.
Definition div := SpecFloat.SFdiv 53 1024.

(** The number a float stands for. *)
Definition value (f : SpecFloat.spec_float) : option Q :=
  match f with
  | SpecFloat.S754_zero _ => Some 0
  | SpecFloat.S754_finite s m e =>
      let v := if (0 <=? e)%Z then inject_Z (Zpos m * 2 ^ e)
               else inject_Z (Zpos m) / inject_Z (2 ^ (- e)) in
      Some (if s then - v else v)
  | _ => None
  end.

Definition same (f : SpecFloat.spec_float) (q : Q) : bool :=
  match value f with
  | Some v => Qeq_bool v q
  | None => false
  end.

Definition add_type_share (total_tx : nat) (weighted_score : SpecFloat.spec_float)
    (item : string * nat) : SpecFloat.spec_float :=
  let proportion := div (double (Z.of_nat (snd item))) (double (Z.of_nat total_tx)) in
  let type_score := double (Qnum (dict_get tx_type_scores (fst item) 10)) in
  add weighted_score (mul proportion type_score).

Definition type_score_sum (customer_data : DataFrame) : SpecFloat.spec_float :=
  fold_left (add_type_share (len customer_data))
    (value_counts (map type (rows customer_data))) (double 0).

(** The weights are the quotients 25/100, 30/100, 35/100 and 10/100, rounded. *)
Definition weighted_sum (t : SpecFloat.spec_float) (a f c : Z) : SpecFloat.spec_float :=
  add (add (add (mul t (div (double 25) (double 100)))
                (mul (double a) (div (double 30) (double 100))))
           (mul (double f) (div (double 35) (double 100))))
      (mul (double c) (div (double 10) (double 100))).

(** On this frame the loop and the weighted sum of [RiskEngine64] give the
    numbers that [SpecFloat] gives. *)
Definition agrees (customer_data : DataFrame) : bool :=
  same (type_score_sum customer_data)
       (RiskEngine64.calculate_transaction_type_score customer_data)
  && same (weighted_sum (type_score_sum customer_data)
             (Qnum (RiskEngine64.calculate_amount_risk_score series_mean customer_data))
             (Qnum (RiskEngine64.calculate_fraud_history_score customer_data))
             (Qnum (RiskEngine64.calculate_cash_pattern_score customer_data)))
          (RiskEngine64.weighted_total series_mean customer_data).

End IEEE.

(** * Environment, process state and the monad of effectful calls *)

(** The n-th identifier drawn by [uuid.uuid4()] (as a string) and the n-th
    reading of [datetime.now()] (in microseconds). *)
Record Env : Type := {
  uuid4_at : nat -> string;
  now_at : nat -> Z
}.

(** An object [self] together with the number of identifiers drawn and of
    clock readings taken so far. *)
Record Proc (St : Type) : Type := {
  self : St;
  uuid_draws : nat;
  clock_reads : nat
}.

Arguments self {St} p.
Arguments uuid_draws {St} p.
Arguments clock_reads {St} p.

Definition M (St A : Type) : Type := Env -> Proc St -> outcome A * Proc St.

Definition ret {St A : Type} (a : A) : M St A := fun _ p => (Returned a, p).

Definition bind {St A B : Type} (m : M St A) (k : A -> M St B) : M St B :=
  fun env p =>
    match m env p with
    | (Returned a, p') => k a env p'
    | (Raised e, p') => (Raised e, p')
    end.

Notation "x <- m ;; k" := (bind m (fun x => k))
  (at level 61, m at next level, right associativity).
Notation "m ;;; k" := (bind m (fun _ => k))
  (at level 61, right associativity).

(** [str(uuid.uuid4())] *)
Definition uuid4 {St : Type} : M St string :=
  fun env p =>
    (Returned (uuid4_at env (uuid_draws p)),
     {| self := self p; uuid_draws := S (uuid_draws p); clock_reads := clock_reads p |}).

(** [datetime.now()] *)
Definition now {St : Type} : M St Z :=
  fun env p =>
    (Returned (now_at env (clock_reads p)),
     {| self := self p; uuid_draws := uuid_draws p; clock_reads := S (clock_reads p) |}).

Definition get_self {St : Type} : M St St := fun _ p => (Returned (self p), p).

Definition put_self {St : Type} (s : St) : M St unit :=
  fun _ p =>
    (Returned tt, {| self := s; uuid_draws := uuid_draws p; clock_reads := clock_reads p |}).

(** [timedelta(hours=h)] in microseconds. *)
Definition timedelta_hours (h : Z) : Z := (h * 3600000000)%Z.

(** An f-string before rendering: literal text and the interpolated values
    (a float, a float under the format [:,.2f], an integer). *)
Inductive Frag : Type :=
| Text (s : string)
| Float (q : Q)
| Money (q : Q)
| Int (z : Z).

Definition fstring : Type := list Frag.

(** A concrete environment for examples: identifiers "uuid-0", "uuid-1", ...
    and a clock that advances by one microsecond between readings. *)
Definition demo_env : Env := {|
  uuid4_at := fun n => "uuid-" ++ NilZero.string_of_uint (Nat.to_uint n);
  now_at := fun n => Z.of_nat n
|}.

(** * AMLAlertEngine *)

Module Alert.
Record t : Type := {
  alert_id : string;
  customer_id : string;
  alert_type : string;
  priority : string;
  description : string;
  details : fstring;
  risk_level : string
}.
End Alert.

(** A row of the enriched customer profile table.  [fraud_count] and
    [total_amount] are optional columns ([in customer] is tested first). *)
Module Customer.
Record t : Type := {
  customer_id : string;
  enhanced_risk_score : Q;
  is_pep : bool;
  pep_category : string;
  occupation : string;
  sanctions_risk : bool;
  nationality : string;
  fraud_count : option Z;
  total_amount : option Q
}.
End Customer.

Module AlertEngine.

Inductive AlertType : Type :=
| HIGH_RISK_CUSTOMER
| PEP_DETECTED
| SANCTIONS_MATCH
| LARGE_TRANSACTION
| SUSPICIOUS_PATTERN
| FRAUD_INDICATOR.

Definition AlertType_value (t : AlertType) : string :=
  match t with
  | HIGH_RISK_CUSTOMER => "HIGH_RISK_CUSTOMER"
  | PEP_DETECTED => "PEP_DETECTED"
  | SANCTIONS_MATCH => "SANCTIONS_MATCH"
  | LARGE_TRANSACTION => "LARGE_TRANSACTION"
  | SUSPICIOUS_PATTERN => "SUSPICIOUS_PATTERN"
  | FRAUD_INDICATOR => "FRAUD_INDICATOR"
  end.

Definition AlertType_eqb (a b : AlertType) : bool :=
  match a, b with
  | HIGH_RISK_CUSTOMER, HIGH_RISK_CUSTOMER
  | PEP_DETECTED, PEP_DETECTED
  | SANCTIONS_MATCH, SANCTIONS_MATCH
  | LARGE_TRANSACTION, LARGE_TRANSACTION
  | SUSPICIOUS_PATTERN, SUSPICIOUS_PATTERN
  | FRAUD_INDICATOR, FRAUD_INDICATOR => true
  | _, _ => false
  end.

Inductive AlertPriority : Type :=
| CRITICAL
| HIGH
| MEDIUM
| LOW.

Definition AlertPriority_value (p : AlertPriority) : string :=
  match p with
  | CRITICAL => "CRITICAL"
  | HIGH => "HIGH"
  | MEDIUM => "MEDIUM"
  | LOW => "LOW"
  end.

(** [self.alert_thresholds] *)
Record AlertThresholds : Type := {
  critical_risk_score : Q;
  high_risk_score : Q;
  large_transaction : Q;
  fraud_count_threshold : Z;
  pep_alert : bool;
  sanctions_alert : bool
}.

Definition alert_thresholds : AlertThresholds := {|
  critical_risk_score := 85;
  high_risk_score := 60;
  large_transaction := 100000;
  fraud_count_threshold := 1;
  pep_alert := true;
  sanctions_alert := true
|}.

(** [self.alert_rules] *)
Record AlertRule : Type := {
  rule_priority : AlertPriority;
  rule_description : string
}.

Definition alert_rules (t : AlertType) : AlertRule :=
  match t with
  | HIGH_RISK_CUSTOMER =>
      {| rule_priority := HIGH;
         rule_description := "Customer risk score exceeds threshold" |}
  | PEP_DETECTED =>
      {| rule_priority := CRITICAL;
         rule_description := "Politically Exposed Person identified" |}
  | SANCTIONS_MATCH =>
      {| rule_priority := CRITICAL;
         rule_description := "Customer from sanctioned jurisdiction" |}
  | LARGE_TRANSACTION =>
      {| rule_priority := MEDIUM;
         rule_description := "Large transaction amount detected" |}
  | SUSPICIOUS_PATTERN =>
      {| rule_priority := HIGH;
         rule_description := "Suspicious transaction pattern identified" |}
  | FRAUD_INDICATOR =>
      {| rule_priority := CRITICAL;
         rule_description := "Historical fraud activity detected" |}
  end.

Definition _determine_risk_level (alert_type : AlertType) : string :=
  let critical_alerts := [PEP_DETECTED; SANCTIONS_MATCH; FRAUD_INDICATOR] in
  let high_alerts := [HIGH_RISK_CUSTOMER; SUSPICIOUS_PATTERN] in
  if existsb (AlertType_eqb alert_type) critical_alerts then "CRITICAL"
  else if existsb (AlertType_eqb alert_type) high_alerts then "HIGH"
  else "MEDIUM".

Definition _create_alert {St : Type} (customer_id : string) (alert_type : AlertType)
    (details : fstring) : M St Alert.t :=
  let rule := alert_rules alert_type in
  alert_id <- uuid4 ;;
  ret {| Alert.alert_id := alert_id;
         Alert.customer_id := customer_id;
         Alert.alert_type := AlertType_value alert_type;
         Alert.priority := AlertPriority_value (rule_priority rule);
         Alert.description := rule_description rule;
         Alert.details := details;
         Alert.risk_level := _determine_risk_level alert_type |}.

(** [alerts.append(self._create_alert(...))] *)
Definition append_alert {St : Type} (alerts : list Alert.t) (customer_id : string)
    (alert_type : AlertType) (details : fstring) : M St (list Alert.t) :=
  a <- _create_alert customer_id alert_type details ;;
  ret (alerts ++ [a])%list.

Definition _evaluate_customer_alerts {St : Type} (customer : Customer.t) : M St (list Alert.t) :=
  let alerts := [] in
  (* High Risk Score Alert *)
  alerts <-
    (if Qgeb (Customer.enhanced_risk_score customer) (critical_risk_score alert_thresholds)
     then append_alert alerts (Customer.customer_id customer) HIGH_RISK_CUSTOMER
            [Text "Critical risk score: "; Float (Customer.enhanced_risk_score customer)]
     else if Qgeb (Customer.enhanced_risk_score customer) (high_risk_score alert_thresholds)
     then append_alert alerts (Customer.customer_id customer) HIGH_RISK_CUSTOMER
            [Text "High risk score: "; Float (Customer.enhanced_risk_score customer)]
     else ret alerts) ;;
  (* PEP Alert *)
  alerts <-
    (if Customer.is_pep customer && pep_alert alert_thresholds
     then append_alert alerts (Customer.customer_id customer) PEP_DETECTED
            [Text "PEP Category: "; Text (Customer.pep_category customer);
             Text ", Occupation: "; Text (Customer.occupation customer)]
     else ret alerts) ;;
  (* Sanctions Alert *)
  alerts <-
    (if Customer.sanctions_risk customer && sanctions_alert alert_thresholds
     then append_alert alerts (Customer.customer_id customer) SANCTIONS_MATCH
            [Text "Sanctioned jurisdiction: "; Text (Customer.nationality customer)]
     else ret alerts) ;;
  (* Fraud History Alert *)
  alerts <-
    (match Customer.fraud_count customer with
     | Some n =>
         if (fraud_count_threshold alert_thresholds <=? n)%Z
         then append_alert alerts (Customer.customer_id customer) FRAUD_INDICATOR
                [Text "Fraud history: "; Int n; Text " incidents"]
         else ret alerts
     | None => ret alerts
     end) ;;
  (* Large Transaction Alert *)
  alerts <-
    (match Customer.total_amount customer with
     | Some amt =>
         if Qgeb amt (large_transaction alert_thresholds)
         then append_alert alerts (Customer.customer_id customer) LARGE_TRANSACTION
                [Text "Large transaction volume: $"; Money amt]
         else ret alerts
     | None => ret alerts
     end) ;;
  ret alerts.

(** A row of the alert table returned by [generate_alerts]: the alert with
    the three columns added to the whole frame. *)
Record AlertRow : Type := {
  alert : Alert.t;
  created_at : Z;
  status : string;
  assigned_to : option string
}.

(** The loop of [generate_alerts]: [alerts.extend(customer_alerts)]. *)
Fixpoint extend_with_customers {St : Type} (alerts : list Alert.t)
    (customer_profiles : list Customer.t) : M St (list Alert.t) :=
  match customer_profiles with
  | [] => ret alerts
  | customer :: rest =>
      customer_alerts <- _evaluate_customer_alerts customer ;;
      extend_with_customers (alerts ++ customer_alerts)%list rest
  end.

Definition generate_alerts {St : Type} (customer_profiles : list Customer.t)
    : M St (list AlertRow) :=
  alerts <- extend_with_customers [] customer_profiles ;;
  if (0 <? length alerts)%nat then
    t <- now ;;
    ret (map (fun a => {| alert := a; created_at := t; status := "OPEN";
                          assigned_to := None |}) alerts)
  else ret [].

(** ** The risk-level table of the specification, and an example profile *)

(** The classification of section 4.2 of the specification, on the string
    that names the alert type; compared below with what the engine stores. *)
Definition spec_risk_level_table (alert_type : string) : string :=
  if str_in alert_type ["PEP_DETECTED"; "SANCTIONS_MATCH"; "FRAUD_INDICATOR"] then "CRITICAL"
  else if str_in alert_type ["HIGH_RISK_CUSTOMER"; "SUSPICIOUS_PATTERN"] then "HIGH"
  else "MEDIUM".

Definition risk_level_from_type (a : Alert.t) : Prop :=
  Alert.risk_level a = spec_risk_level_table (Alert.alert_type a).

Definition is_type (ty : string) (a : Alert.t) : bool := String.eqb (Alert.alert_type a) ty.

(** The profile of the end-to-end scenario of the specification: score 90,
    a politically exposed person, no sanctions flag, no fraud. *)
Definition scenario_profile : Customer.t := {|
  Customer.customer_id := "C2000";
  Customer.enhanced_risk_score := 90;
  Customer.is_pep := true;
  Customer.pep_category := "DOMESTIC_PEP";
  Customer.occupation := "Judge";
  Customer.sanctions_risk := false;
  Customer.nationality := "DE";
  Customer.fraud_count := Some 0%Z;
  Customer.total_amount := Some 5000
|}.

Definition idle : Proc unit := {| self := tt; uuid_draws := 0; clock_reads := 0 |}.

Definition summary (a : Alert.t) : string * string * string :=
  (Alert.alert_type a, Alert.priority a, Alert.risk_level a).

End AlertEngine.

(** * AMLCaseManager *)

(** A row of [self.cases].  The columns [last_updated], [closed_at] and
    [resolution] come into being on first assignment; [None] is the missing
    value pandas leaves in the rows not assigned. *)
Module Case.
Record t : Type := {
  case_id : string;
  customer_id : string;
  alert_id : string;
  case_type : string;
  priority : string;
  status : string;
  created_at : Z;
  assigned_to : string;
  due_date : Z;
  description : fstring;
  risk_level : string;
  last_updated : option Z;
  closed_at : option Z;
  resolution : option string
}.

Definition set_status (v : string) (c : t) : t :=
  {| case_id := case_id c; customer_id := customer_id c; alert_id := alert_id c;
     case_type := case_type c; priority := priority c; status := v;
     created_at := created_at c; assigned_to := assigned_to c; due_date := due_date c;
     description := description c; risk_level := risk_level c;
     last_updated := last_updated c; closed_at := closed_at c;
     resolution := resolution c |}.

Definition set_assigned_to (v : string) (c : t) : t :=
  {| case_id := case_id c; customer_id := customer_id c; alert_id := alert_id c;
     case_type := case_type c; priority := priority c; status := status c;
     created_at := created_at c; assigned_to := v; due_date := due_date c;
     description := description c; risk_level := risk_level c;
     last_updated := last_updated c; closed_at := closed_at c;
     resolution := resolution c |}.

Definition set_last_updated (v : Z) (c : t) : t :=
  {| case_id := case_id c; customer_id := customer_id c; alert_id := alert_id c;
     case_type := case_type c; priority := priority c; status := status c;
     created_at := created_at c; assigned_to := assigned_to c; due_date := due_date c;
     description := description c; risk_level := risk_level c;
     last_updated := Some v; closed_at := closed_at c;
     resolution := resolution c |}.

Definition set_closed_at (v : Z) (c : t) : t :=
  {| case_id := case_id c; customer_id := customer_id c; alert_id := alert_id c;
     case_type := case_type c; priority := priority c; status := status c;
     created_at := created_at c; assigned_to := assigned_to c; due_date := due_date c;
     description := description c; risk_level := risk_level c;
     last_updated := last_updated c; closed_at := Some v;
     resolution := resolution c |}.

Definition set_resolution (v : string) (c : t) : t :=
  {| case_id := case_id c; customer_id := customer_id c; alert_id := alert_id c;
     case_type := case_type c; priority := priority c; status := status c;
     created_at := created_at c; assigned_to := assigned_to c; due_date := due_date c;
     description := description c; risk_level := risk_level c;
     last_updated := last_updated c; closed_at := closed_at c;
     resolution := Some v |}.
End Case.

(** A row of [self.case_actions]. *)
Module CaseAction.
Record t : Type := {
  action_id : string;
  case_id : string;
  action_type : string;
  description : string;
  analyst_name : string;
  timestamp : Z
}.
End CaseAction.

Module CaseManager.

Inductive CaseStatus : Type :=
| OPEN
| IN_PROGRESS
| UNDER_REVIEW
| CLOSED
| ESCALATED.

Definition CaseStatus_value (s : CaseStatus) : string :=
  match s with
  | OPEN => "OPEN"
  | IN_PROGRESS => "IN_PROGRESS"
  | UNDER_REVIEW => "UNDER_REVIEW"
  | CLOSED => "CLOSED"
  | ESCALATED => "ESCALATED"
  end.

Inductive CaseType : Type :=
| AML_INVESTIGATION
| PEP_REVIEW
| SANCTIONS_CHECK
| FRAUD_INVESTIGATION
| ENHANCED_DUE_DILIGENCE.

Definition CaseType_value (t : CaseType) : string :=
  match t with
  | AML_INVESTIGATION => "AML_INVESTIGATION"
  | PEP_REVIEW => "PEP_REVIEW"
  | SANCTIONS_CHECK => "SANCTIONS_CHECK"
  | FRAUD_INVESTIGATION => "FRAUD_INVESTIGATION"
  | ENHANCED_DUE_DILIGENCE => "ENHANCED_DUE_DILIGENCE"
  end.

(** The two tables of the manager; [__init__] leaves both empty. *)
Record AMLCaseManager : Type := {
  cases : list Case.t;
  case_actions : list CaseAction.t
}.

Definition __init__ : AMLCaseManager := {| cases := []; case_actions := [] |}.

(** [self.sla_hours] *)
Definition sla_hours : list (string * Z) :=
  [ ("CRITICAL", 4%Z); ("HIGH", 24%Z); ("MEDIUM", 72%Z); ("LOW", 168%Z) ].

Definition CM (A : Type) : Type := M AMLCaseManager A.

Definition _determine_case_type (alert_type : string) : CaseType :=
  let mapping :=
    [ ("PEP_DETECTED", PEP_REVIEW);
      ("SANCTIONS_MATCH", SANCTIONS_CHECK);
      ("FRAUD_INDICATOR", FRAUD_INVESTIGATION);
      ("HIGH_RISK_CUSTOMER", ENHANCED_DUE_DILIGENCE);
      ("LARGE_TRANSACTION", AML_INVESTIGATION);
      ("SUSPICIOUS_PATTERN", AML_INVESTIGATION) ] in
  dict_get mapping alert_type AML_INVESTIGATION.

Definition _auto_assign_case (priority : string) : string :=
  if String.eqb priority "CRITICAL" then "Senior_AML_Analyst"
  else if String.eqb priority "HIGH" then "AML_Analyst_Team"
  else "Junior_AML_Analyst".

Definition _calculate_due_date (priority : string) : CM Z :=
  let hours := dict_get sla_hours priority 168%Z in
  t <- now ;;
  ret (t + timedelta_hours hours)%Z.

Definition _log_case_action (case_id action_type description analyst_name : string)
    : CM unit :=
  action_id <- uuid4 ;;
  timestamp <- now ;;
  let action := {| CaseAction.action_id := action_id;
                   CaseAction.case_id := case_id;
                   CaseAction.action_type := action_type;
                   CaseAction.description := description;
                   CaseAction.analyst_name := analyst_name;
                   CaseAction.timestamp := timestamp |} in
  mgr <- get_self ;;
  put_self {| cases := cases mgr;
              case_actions := (case_actions mgr ++ [action])%list |}.

Definition create_case_from_alert (alert : Alert.t) : CM string :=
  let case_type := _determine_case_type (Alert.alert_type alert) in
  case_id <- uuid4 ;;
  created_at <- now ;;
  let assigned_to := _auto_assign_case (Alert.priority alert) in
  due_date <- _calculate_due_date (Alert.priority alert) ;;
  let case := {| Case.case_id := case_id;
                 Case.customer_id := Alert.customer_id alert;
                 Case.alert_id := Alert.alert_id alert;
                 Case.case_type := CaseType_value case_type;
                 Case.priority := Alert.priority alert;
                 Case.status := CaseStatus_value OPEN;
                 Case.created_at := created_at;
                 Case.assigned_to := assigned_to;
                 Case.due_date := due_date;
                 Case.description :=
                   ([Text "Investigation case for "; Text (Alert.alert_type alert); Text ": "]
                    ++ Alert.details alert)%list;
                 Case.risk_level := Alert.risk_level alert;
                 Case.last_updated := None;
                 Case.closed_at := None;
                 Case.resolution := None |} in
  mgr <- get_self ;;
  put_self {| cases := (cases mgr ++ [case])%list; case_actions := case_actions mgr |} ;;;
  _log_case_action case_id "CASE_CREATED" "Case automatically created from alert" "SYSTEM" ;;;
  ret case_id.

(** [mask = self.cases['case_id'] == case_id] and the operations on it.  The
    [print] calls that end the mutating methods write to standard output
    only and are left out. *)
Definition mask (case_id : string) (c : Case.t) : bool := String.eqb (Case.case_id c) case_id.

Definition mask_any (case_id : string) (cs : list Case.t) : bool := existsb (mask case_id) cs.

(** [self.cases.loc[mask, col] = v] *)
Definition loc_set (case_id : string) (f : Case.t -> Case.t) (cs : list Case.t) : list Case.t :=
  map (fun c => if mask case_id c then f c else c) cs.

(** [self.cases.loc[mask, 'status'].iloc[0]], read only when [mask.any()]. *)
Definition first_status (case_id : string) (cs : list Case.t) : string :=
  match filter (mask case_id) cs with
  | c :: _ => Case.status c
  | [] => EmptyString
  end.

Definition set_cases (f : list Case.t -> list Case.t) : CM unit :=
  mgr <- get_self ;;
  put_self {| cases := f (cases mgr); case_actions := case_actions mgr |}.

Definition update_case_status (case_id new_status notes : string) : CM unit :=
  mgr <- get_self ;;
  if (0 <? length (cases mgr))%nat then
    if mask_any case_id (cases mgr) then
      let old_status := first_status case_id (cases mgr) in
      set_cases (loc_set case_id (Case.set_status new_status)) ;;;
      t <- now ;;
      set_cases (loc_set case_id (Case.set_last_updated t)) ;;;
      _log_case_action case_id "STATUS_CHANGED"
        ("Status changed from " ++ old_status ++ " to " ++ new_status ++ ". " ++ notes)
        "SYSTEM"
    else ret tt
  else ret tt.

Definition assign_case (case_id analyst_name : string) : CM unit :=
  mgr <- get_self ;;
  if (0 <? length (cases mgr))%nat then
    if mask_any case_id (cases mgr) then
      set_cases (loc_set case_id (Case.set_assigned_to analyst_name)) ;;;
      t <- now ;;
      set_cases (loc_set case_id (Case.set_last_updated t)) ;;;
      _log_case_action case_id "CASE_ASSIGNED" ("Case assigned to " ++ analyst_name) "SYSTEM"
    else ret tt
  else ret tt.

Definition add_case_notes (case_id notes analyst_name : string) : CM unit :=
  _log_case_action case_id "NOTES_ADDED" notes analyst_name.

Definition close_case (case_id resolution analyst_name : string) : CM unit :=
  update_case_status case_id (CaseStatus_value CLOSED) EmptyString ;;;
  _log_case_action case_id "CASE_CLOSED" ("Case closed. Resolution: " ++ resolution)
    analyst_name ;;;
  mgr <- get_self ;;
  if (0 <? length (cases mgr))%nat then
    if mask_any case_id (cases mgr) then
      t <- now ;;
      set_cases (loc_set case_id (Case.set_closed_at t)) ;;;
      set_cases (loc_set case_id (Case.set_resolution resolution))
    else ret tt
  else ret tt.

(** A fresh process holding a fresh manager. *)
Definition start : Proc AMLCaseManager :=
  {| self := __init__; uuid_draws := 0; clock_reads := 0 |}.

(** ** Vocabulary of the statements about the manager *)

(** The action that [_log_case_action] appends when called in state [p]. *)
Definition logged (env : Env) (p : Proc AMLCaseManager)
    (case_id action_type description analyst_name : string) : CaseAction.t :=
  {| CaseAction.action_id := uuid4_at env (uuid_draws p);
     CaseAction.case_id := case_id;
     CaseAction.action_type := action_type;
     CaseAction.description := description;
     CaseAction.analyst_name := analyst_name;
     CaseAction.timestamp := now_at env (clock_reads p) |}.

(** No row of the case table carries [case_id]. *)
Definition unknown (case_id : string) (m : AMLCaseManager) : Prop :=
  forall c, In c (cases m) -> Case.case_id c <> case_id.

(** ** The audit trail *)

Definition actions_of (case_id : string) (log : list CaseAction.t) : list CaseAction.t :=
  filter (fun a => String.eqb (CaseAction.case_id a) case_id) log.

(** The action of least timestamp, the first recorded one among equals. *)
Fixpoint earliest (log : list CaseAction.t) : option CaseAction.t :=
  match log with
  | [] => None
  | a :: log' =>
      match earliest log' with
      | None => Some a
      | Some b =>
          if (CaseAction.timestamp a <=? CaseAction.timestamp b)%Z then Some a else Some b
      end
  end.

(** The audit-order invariant of section 3 of the specification: the
    earliest action of every case is CASE_CREATED, and every action of
    another type has a CASE_CREATED action of the same [case_id] recorded
    before it. *)
Definition audit_trail_ok (m : AMLCaseManager) : Prop :=
  (forall c, In c (cases m) ->
     exists a, earliest (actions_of (Case.case_id c) (case_actions m)) = Some a /\
               CaseAction.action_type a = "CASE_CREATED") /\
  (forall before a after,
     case_actions m = (before ++ a :: after)%list ->
     CaseAction.action_type a <> "CASE_CREATED" ->
     exists b, In b before /\
               CaseAction.case_id b = CaseAction.case_id a /\
               CaseAction.action_type b = "CASE_CREATED").

(** ** Example runs *)

(** A CRITICAL alert as the alert engine produces it for a PEP. *)
Definition critical_alert : Alert.t := {|
  Alert.alert_id := "alert-1";
  Alert.customer_id := "C2000";
  Alert.alert_type := "PEP_DETECTED";
  Alert.priority := "CRITICAL";
  Alert.description := "Politically Exposed Person identified";
  Alert.details := [Text "PEP Category: "; Text "DOMESTIC_PEP";
                    Text ", Occupation: "; Text "Judge"];
  Alert.risk_level := "CRITICAL"
|}.

(** A case is created from the alert and then closed by an analyst. *)
Definition open_then_close : CM string :=
  cid <- create_case_from_alert critical_alert ;;
  close_case cid "False positive - customer cleared" "AML_Analyst_2" ;;;
  ret cid.

Definition closed_state : Proc AMLCaseManager := snd (open_then_close demo_env start).

Definition id_status (c : Case.t) : string * string := (Case.case_id c, Case.status c).

Definition id_type (a : CaseAction.t) : string * string :=
  (CaseAction.case_id a, CaseAction.action_type a).

End CaseManager.

(** * Further functions of the three files *)

(** ** Assumptions on the environment *)

(** The identifiers drawn are pairwise distinct; the clock does not run
    backwards. *)
Definition distinct_uuids (env : Env) : Prop :=
  forall i j, uuid4_at env i = uuid4_at env j -> i = j.

Definition monotone_clock (env : Env) : Prop :=
  forall i j, (i <= j)%nat -> (now_at env i <= now_at env j)%Z.

(** The identifiers of [n] successive draws, starting with draw [d]. *)
Definition draws (env : Env) (d n : nat) : list string := map (uuid4_at env) (seq d n).

(** ** The alert types a profile fires *)

(** The types of the rules whose condition the profile meets, in the order
    in which [_evaluate_customer_alerts] tests them. *)
Definition fired_types (customer : Customer.t) : list string :=
  ((if Qgeb (Customer.enhanced_risk_score customer) 60 then ["HIGH_RISK_CUSTOMER"] else [])
   ++ (if Customer.is_pep customer then ["PEP_DETECTED"] else [])
   ++ (if Customer.sanctions_risk customer then ["SANCTIONS_MATCH"] else [])
   ++ (match Customer.fraud_count customer with
       | Some n => if (1 <=? n)%Z then ["FRAUD_INDICATOR"] else []
       | None => []
       end)
   ++ (match Customer.total_amount customer with
       | Some amt => if Qgeb amt 100000 then ["LARGE_TRANSACTION"] else []
       | None => []
       end))%list.

(** No rule applies to the profile. *)
Definition quiet (customer : Customer.t) : Prop :=
  Customer.enhanced_risk_score customer < 60 /\
  Customer.is_pep customer = false /\
  Customer.sanctions_risk customer = false /\
  (forall n, Customer.fraud_count customer = Some n -> (n < 1)%Z) /\
  (forall amt, Customer.total_amount customer = Some amt -> amt < 100000).

(** The priority the rule table gives to the alert type of this name. *)
Definition priority_by_type (alert_type : string) : string :=
  if str_in alert_type ["PEP_DETECTED"; "SANCTIONS_MATCH"; "FRAUD_INDICATOR"] then "CRITICAL"
  else if str_in alert_type ["HIGH_RISK_CUSTOMER"; "SUSPICIOUS_PATTERN"] then "HIGH"
  else "MEDIUM".

(** A profile that meets every rule, and one that meets none. *)
Definition loud_profile : Customer.t := {|
  Customer.customer_id := "C3000";
  Customer.enhanced_risk_score := 91.5;
  Customer.is_pep := true;
  Customer.pep_category := "FOREIGN_PEP";
  Customer.occupation := "Diplomat";
  Customer.sanctions_risk := true;
  Customer.nationality := "KP";
  Customer.fraud_count := Some 2%Z;
  Customer.total_amount := Some 850000
|}.

Definition quiet_profile : Customer.t := {|
  Customer.customer_id := "C4000";
  Customer.enhanced_risk_score := 12.5;
  Customer.is_pep := false;
  Customer.pep_category := "NOT_PEP";
  Customer.occupation := "Teacher";
  Customer.sanctions_risk := false;
  Customer.nationality := "CH";
  Customer.fraud_count := None;
  Customer.total_amount := Some 300
|}.

(** ** RiskScoringEngine.score_customer_portfolio *)

Module Portfolio.

Import RiskEngine.

(** [Series.unique()]: the distinct values in order of first appearance. *)
Fixpoint unique (xs : list string) : list string :=
  match xs with
  | [] => []
  | x :: xs' => x :: filter (fun y => negb (String.eqb y x)) (unique xs')
  end.

(** A row of the table that [score_customer_portfolio] returns. *)
Record ScoreRow : Type := {
  customer_id : string;
  risk_score : Q;
  risk_category : string;
  tx_count : nat;
  total_amount : Q;
  fraud_count : nat;
  components : Components
}.

(** The call returns the table, or a column lookup raises [KeyError], or the
    scoring of a customer raises. *)
Inductive PortfolioOutcome : Type :=
| Scored (table : list ScoreRow)
| KeyError (column : string)
| ScoringRaised (e : PyError).

(** [transaction_data[transaction_data['nameOrig'] == customer_id]] *)
Definition select (transaction_data : DataFrame) (customer_id : string) : DataFrame :=
  {| columns := columns transaction_data;
     rows := filter (fun t => String.eqb (nameOrig t) customer_id) (rows transaction_data) |}.

(** The loop of [score_customer_portfolio]. *)
Fixpoint score_each (transaction_data : DataFrame) (customers : list string)
    (customer_scores : list ScoreRow) : PortfolioOutcome :=
  match customers with
  | [] => Scored customer_scores
  | customer_id :: rest =>
      let customer_data := select transaction_data customer_id in
      match calculate_customer_risk_score customer_data with
      | Raised e => ScoringRaised e
      | Returned risk_result =>
          if negb (str_in "amount" (columns customer_data)) then KeyError "amount"
          else
            let row :=
              {| customer_id := customer_id;
                 risk_score := RiskEngine.total_score risk_result;
                 risk_category := RiskEngine.risk_category risk_result;
                 tx_count := len customer_data;
                 total_amount := series_sum (map amount (rows customer_data));
                 fraud_count :=
                   if str_in "isFraud" (columns customer_data)
                   then count_true isFraud (rows customer_data) else 0%nat;
                 components := RiskEngine.components risk_result |} in
            score_each transaction_data rest (customer_scores ++ [row])
      end
  end.

Definition score_customer_portfolio (transaction_data : DataFrame) : PortfolioOutcome :=
  if negb (str_in "nameOrig" (columns transaction_data)) then KeyError "nameOrig"
  else
    let customers := unique (map nameOrig (rows transaction_data)) in
    score_each transaction_data customers [].

(** The table score of a transaction type, 10 for a type not in the table,
    and the sum of the table scores of a list of types. *)
Definition type_score_of (t : string) : Q := dict_get tx_type_scores t 10.

Definition score_sum (types : list string) : Q :=
  fold_right (fun t acc => dict_get tx_type_scores t 10 + acc) 0 types.

(** Weight of a table of counts: the sum of count times score. *)
Definition table_weight (items : list (string * nat)) : Q :=
  fold_right (fun e acc => Qnat (snd e) * type_score_of (fst e) + acc) 0 items.

Definition is_cash_out (t : Transaction) : bool := String.eqb (type t) "CASH_OUT".


(** The result of scoring, which the code reads without a test. *)
Definition scored (df : DataFrame) : RiskResult :=
  match calculate_customer_risk_score df with
  | Returned r => r
  | Raised _ =>
      {| RiskEngine.total_score := 0; RiskEngine.risk_category := EmptyString;
         RiskEngine.components :=
           {| c_transaction_type := 0; c_amount_risk := 0; c_fraud_history := 0;
              c_cash_pattern := 0 |} |}
  end.



(** Three customers, seven transactions. *)
Definition tx_of (who ty : string) (amt : Q) (fraud : bool) : Transaction :=
  {| nameOrig := who; type := ty; amount := amt; isFraud := fraud |}.

Definition small_book : DataFrame := {|
  columns := all_columns;
  rows := [ tx_of "C1" "PAYMENT" 120 false;
            tx_of "C2" "TRANSFER" 600000 true;
            tx_of "C1" "CASH_OUT" 5000 false;
            tx_of "C3" "DEBIT" 40 false;
            tx_of "C2" "CASH_OUT" 250000 true;
            tx_of "C1" "PAYMENT" 75 false;
            tx_of "C3" "CASH_IN" 900 false ]
|}.

(** The same table without its [amount] column. *)
Definition small_book_no_amount : DataFrame :=
  {| columns := ["nameOrig"; "type"; "isFraud"]; rows := rows small_book |}.

(** Five transactions that reach the largest weighted total. *)
Definition top_frame : DataFrame := {|
  columns := all_columns;
  rows := [ tx_of "C9" "CASH_OUT" 600000 true;
            tx_of "C9" "CASH_OUT" 100 true;
            tx_of "C9" "CASH_OUT" 100 true;
            tx_of "C9" "CASH_OUT" 100 false;
            tx_of "C9" "TRANSFER" 100 false ]
|}.

End Portfolio.

(** ** AlertMonitor *)

(** A row of [active_alerts]: a row of the alert table with the two columns
    that [close_alert] brings into being. *)
Module MonitorRow.
Record t : Type := {
  alert : Alert.t;
  created_at : Z;
  status : string;
  assigned_to : option string;
  closed_at : option Z;
  resolution_notes : option string
}.

Definition close (now_ : Z) (notes : string) (r : t) : t :=
  {| alert := alert r; created_at := created_at r; status := "CLOSED";
     assigned_to := assigned_to r; closed_at := Some now_;
     resolution_notes := Some notes |}.
End MonitorRow.

(** A row of [alert_history], without its [status] column.  Both tables are
    built by [pd.concat] from the same frame of new alerts, and when one of
    the operands of [pd.concat] is empty pandas may hand the cells of the
    other one on instead of copying them; the status that [close_alert]
    writes into [active_alerts] then shows in [alert_history] as well.
    Whether it does is a matter of the pandas version, not of the source,
    so the embedding keeps no record of that column.  The columns
    [closed_at] and [resolution_notes] are created in [active_alerts] only. *)
Module HistoryRow.
Record t : Type := {
  alert : Alert.t;
  created_at : Z;
  assigned_to : option string
}.
End HistoryRow.

Module Monitor.

Record AlertMonitor : Type := {
  active_alerts : list MonitorRow.t;
  alert_history : list HistoryRow.t
}.

Definition __init__ : AlertMonitor := {| active_alerts := []; alert_history := [] |}.

Definition AM (A : Type) : Type := M AlertMonitor A.

(** A row of the table of [generate_alerts], as [pd.concat] stores it. *)
Definition of_row (r : AlertEngine.AlertRow) : MonitorRow.t :=
  {| MonitorRow.alert := AlertEngine.alert r;
     MonitorRow.created_at := AlertEngine.created_at r;
     MonitorRow.status := AlertEngine.status r;
     MonitorRow.assigned_to := AlertEngine.assigned_to r;
     MonitorRow.closed_at := None;
     MonitorRow.resolution_notes := None |}.

Definition to_history (r : AlertEngine.AlertRow) : HistoryRow.t :=
  {| HistoryRow.alert := AlertEngine.alert r;
     HistoryRow.created_at := AlertEngine.created_at r;
     HistoryRow.assigned_to := AlertEngine.assigned_to r |}.

Definition process_alerts (new_alerts : list AlertEngine.AlertRow) : AM unit :=
  if (length new_alerts =? 0)%nat then ret tt
  else
    mon <- get_self ;;
    put_self {| active_alerts := (active_alerts mon ++ map of_row new_alerts)%list;
                alert_history := alert_history mon |} ;;;
    mon <- get_self ;;
    put_self {| active_alerts := active_alerts mon;
                alert_history := (alert_history mon ++ map to_history new_alerts)%list |}.

(** The dictionary [get_alert_summary] returns; the key [by_risk_level] is
    absent from the summary of an empty monitor. *)
Record AlertSummary : Type := {
  total : nat;
  by_priority : list (string * nat);
  by_type : list (string * nat);
  by_risk_level : option (list (string * nat))
}.

Definition priority_of (r : MonitorRow.t) : string := Alert.priority (MonitorRow.alert r).
Definition type_of (r : MonitorRow.t) : string := Alert.alert_type (MonitorRow.alert r).
Definition risk_level_of (r : MonitorRow.t) : string := Alert.risk_level (MonitorRow.alert r).

Definition get_alert_summary : AM AlertSummary :=
  mon <- get_self ;;
  if (length (active_alerts mon) =? 0)%nat then
    ret {| total := 0; by_priority := []; by_type := []; by_risk_level := None |}
  else
    ret {| total := length (active_alerts mon);
           by_priority := RiskEngine.value_counts (map priority_of (active_alerts mon));
           by_type := RiskEngine.value_counts (map type_of (active_alerts mon));
           by_risk_level :=
             Some (RiskEngine.value_counts (map risk_level_of (active_alerts mon))) |}.

Definition id_mask (alert_id : string) (r : MonitorRow.t) : bool :=
  String.eqb (Alert.alert_id (MonitorRow.alert r)) alert_id.

Definition close_alert (alert_id resolution_notes : string) : AM unit :=
  mon <- get_self ;;
  if (0 <? length (active_alerts mon))%nat then
    if existsb (id_mask alert_id) (active_alerts mon) then
      t <- now ;;
      mon <- get_self ;;
      put_self
        {| active_alerts :=
             map (fun r => if id_mask alert_id r then MonitorRow.close t resolution_notes r
                           else r) (active_alerts mon);
           alert_history := alert_history mon |}
    else ret tt
  else ret tt.

(** Sum of the counts of a [value_counts] table. *)
Definition counts_total (d : list (string * nat)) : nat :=
  fold_right (fun e acc => (snd e + acc)%nat) 0%nat d.

Definition fresh : Proc AlertMonitor :=
  {| self := __init__; uuid_draws := 0; clock_reads := 0 |}.

(** The batch of the workflow script: generate, process, summarise. *)
Definition monitor_batch (customer_profiles : list Customer.t) : AM AlertSummary :=
  alerts <- AlertEngine.generate_alerts customer_profiles ;;
  process_alerts alerts ;;;
  get_alert_summary.

Definition three_profiles : list Customer.t :=
  [AlertEngine.scenario_profile; loud_profile; quiet_profile].

(** The monitor after the batch of [three_profiles]. *)
Definition watched : Proc AlertMonitor := snd (monitor_batch three_profiles demo_env fresh).

End Monitor.

(** ** Queries and sequences of operations of AMLCaseManager *)

Module CaseQueries.

Import CaseManager.

Definition is_overdue (now_ : Z) (c : Case.t) : bool :=
  (Case.due_date c <? now_)%Z && negb (String.eqb (Case.status c) "CLOSED").

Definition get_overdue_cases : CM (list Case.t) :=
  mgr <- get_self ;;
  if (length (cases mgr) =? 0)%nat then ret []
  else
    now_ <- now ;;
    ret (filter (is_overdue now_) (cases mgr)).

(** The dictionary [get_case_summary] returns; only [total] is present in
    the summary of an empty manager. *)
Record CaseSummary : Type := {
  total : nat;
  by_status : option (list (string * nat));
  by_priority : option (list (string * nat));
  by_type : option (list (string * nat));
  overdue : option nat
}.

Definition get_case_summary : CM CaseSummary :=
  mgr <- get_self ;;
  if (length (cases mgr) =? 0)%nat then
    ret {| total := 0; by_status := None; by_priority := None; by_type := None;
           overdue := None |}
  else
    overdue_cases <- get_overdue_cases ;;
    ret {| total := length (cases mgr);
           by_status := Some (RiskEngine.value_counts (map Case.status (cases mgr)));
           by_priority := Some (RiskEngine.value_counts (map Case.priority (cases mgr)));
           by_type := Some (RiskEngine.value_counts (map Case.case_type (cases mgr)));
           overdue := Some (length overdue_cases) |}.

(** One call of a mutating method of the manager. *)
Inductive Op : Type :=
| Create (alert : Alert.t)
| Update (case_id new_status notes : string)
| Assign (case_id analyst_name : string)
| Notes (case_id notes analyst_name : string)
| Close (case_id resolution analyst_name : string).

Definition run_op (o : Op) : CM unit :=
  match o with
  | Create alert => create_case_from_alert alert ;;; ret tt
  | Update case_id new_status notes => update_case_status case_id new_status notes
  | Assign case_id analyst_name => assign_case case_id analyst_name
  | Notes case_id notes analyst_name => add_case_notes case_id notes analyst_name
  | Close case_id resolution analyst_name => close_case case_id resolution analyst_name
  end.

Fixpoint run_ops (os : list Op) : CM unit :=
  match os with
  | [] => ret tt
  | o :: os' => run_op o ;;; run_ops os'
  end.

(** The action logged with the [u]-th identifier and the [j]-th clock
    reading. *)
Definition act (env : Env) (u j : nat) (case_id action_type description analyst_name : string)
    : CaseAction.t :=
  {| CaseAction.action_id := uuid4_at env u;
     CaseAction.case_id := case_id;
     CaseAction.action_type := action_type;
     CaseAction.description := description;
     CaseAction.analyst_name := analyst_name;
     CaseAction.timestamp := now_at env j |}.

(** The case that [create_case_from_alert] builds in state [p]. *)
Definition created_case (env : Env) (p : Proc AMLCaseManager) (alert : Alert.t) : Case.t :=
  {| Case.case_id := uuid4_at env (uuid_draws p);
     Case.customer_id := Alert.customer_id alert;
     Case.alert_id := Alert.alert_id alert;
     Case.case_type := CaseType_value (_determine_case_type (Alert.alert_type alert));
     Case.priority := Alert.priority alert;
     Case.status := "OPEN";
     Case.created_at := now_at env (clock_reads p);
     Case.assigned_to := _auto_assign_case (Alert.priority alert);
     Case.due_date :=
       (now_at env (S (clock_reads p))
        + timedelta_hours (dict_get sla_hours (Alert.priority alert) 168))%Z;
     Case.description :=
       ([Text "Investigation case for "; Text (Alert.alert_type alert); Text ": "]
        ++ Alert.details alert)%list;
     Case.risk_level := Alert.risk_level alert;
     Case.last_updated := None;
     Case.closed_at := None;
     Case.resolution := None |}.

(** The state of a process with the given tables and counters. *)
Definition state (cs : list Case.t) (log : list CaseAction.t) (u j : nat)
    : Proc AMLCaseManager :=
  {| self := {| cases := cs; case_actions := log |}; uuid_draws := u; clock_reads := j |}.

(** The columns of a case that are written once, at creation. *)
Definition same_core (c c' : Case.t) : Prop :=
  Case.case_id c' = Case.case_id c /\
  Case.customer_id c' = Case.customer_id c /\
  Case.alert_id c' = Case.alert_id c /\
  Case.case_type c' = Case.case_type c /\
  Case.priority c' = Case.priority c /\
  Case.created_at c' = Case.created_at c /\
  Case.due_date c' = Case.due_date c /\
  Case.description c' = Case.description c /\
  Case.risk_level c' = Case.risk_level c.

(** [m'] keeps every case of [m] in place with its write-once columns, and
    every action of [m] in place, unchanged. *)
Definition extends (m m' : AMLCaseManager) : Prop :=
  (exists old' extra,
     cases m' = (old' ++ extra)%list /\ Forall2 same_core (cases m) old') /\
  (exists new_actions, case_actions m' = (case_actions m ++ new_actions)%list).

(** What one operation does to a process, seen from outside. *)
Definition grows (env : Env) (p p' : Proc AMLCaseManager) : Prop :=
  exists old' extra new_actions js,
    cases (self p') = (old' ++ extra)%list /\
    Forall2 same_core (cases (self p)) old' /\
    (length extra <= 1)%nat /\
    Forall (fun c => Case.case_id c = uuid4_at env (uuid_draws p) /\
                     (uuid_draws p < uuid_draws p')%nat) extra /\
    case_actions (self p') = (case_actions (self p) ++ new_actions)%list /\
    (length new_actions <= 2)%nat /\
    map CaseAction.timestamp new_actions = map (now_at env) js /\
    StronglySorted lt js /\
    Forall (fun j => (clock_reads p <= j < clock_reads p')%nat) js /\
    (uuid_draws p <= uuid_draws p')%nat /\
    (clock_reads p <= clock_reads p')%nat.

(** The operation names a case of the table whenever it is one of the two
    that log without looking the case up. *)
Definition targets_known (o : Op) (m : AMLCaseManager) : Prop :=
  match o with
  | Notes case_id _ _ | Close case_id _ _ =>
      exists c, In c (cases m) /\ Case.case_id c = case_id
  | _ => True
  end.

Fixpoint well_targeted (os : list Op) (env : Env) (p : Proc AMLCaseManager) : Prop :=
  match os with
  | [] => True
  | o :: os' => targets_known o (self p) /\ well_targeted os' env (snd (run_op o env p))
  end.

(** Case identifiers are earlier draws and pairwise distinct; the timestamps
    of the log are earlier clock readings, in the order of the readings. *)
Definition ids_drawn (env : Env) (p : Proc AMLCaseManager) : Prop :=
  NoDup (map Case.case_id (cases (self p))) /\
  Forall (fun c => exists k, (k < uuid_draws p)%nat /\ Case.case_id c = uuid4_at env k)
    (cases (self p)).

Definition stamps_read (env : Env) (p : Proc AMLCaseManager) : Prop :=
  exists js,
    map CaseAction.timestamp (case_actions (self p)) = map (now_at env) js /\
    StronglySorted lt js /\
    Forall (fun j => (j < clock_reads p)%nat) js.

(** Every action of the log is about a case of the table. *)
Definition actions_have_case (m : AMLCaseManager) : Prop :=
  forall a, In a (case_actions m) ->
    exists c, In c (cases m) /\ Case.case_id c = CaseAction.case_id a.

Definition audit_inv (env : Env) (p : Proc AMLCaseManager) : Prop :=
  audit_trail_ok (self p) /\ actions_have_case (self p) /\
  ids_drawn env p /\ stamps_read env p.

(** Where an alert of the engine ends up: case type, first assignee and SLA
    hours, by alert type. *)
Definition routing (alert_type : string) : string * string * Z :=
  if String.eqb alert_type "PEP_DETECTED" then ("PEP_REVIEW", "Senior_AML_Analyst", 4%Z)
  else if String.eqb alert_type "SANCTIONS_MATCH"
       then ("SANCTIONS_CHECK", "Senior_AML_Analyst", 4%Z)
  else if String.eqb alert_type "FRAUD_INDICATOR"
       then ("FRAUD_INVESTIGATION", "Senior_AML_Analyst", 4%Z)
  else if String.eqb alert_type "HIGH_RISK_CUSTOMER"
       then ("ENHANCED_DUE_DILIGENCE", "AML_Analyst_Team", 24%Z)
  else ("AML_INVESTIGATION", "Junior_AML_Analyst", 72%Z).

(** An alert whose priority is written in lower case. *)
Definition lowercase_alert : Alert.t := {|
  Alert.alert_id := "alert-7";
  Alert.customer_id := "C5000";
  Alert.alert_type := "PEP_DETECTED";
  Alert.priority := "critical";
  Alert.description := "Politically Exposed Person identified";
  Alert.details := [Text "PEP Category: "; Text "FOREIGN_PEP"];
  Alert.risk_level := "CRITICAL"
|}.

Definition engine_types : list string :=
  ["HIGH_RISK_CUSTOMER"; "PEP_DETECTED"; "SANCTIONS_MATCH"; "FRAUD_INDICATOR";
   "LARGE_TRANSACTION"].

Definition two_cases_script : list Op :=
  [ Create critical_alert; Create critical_alert;
    Update "uuid-0" "IN_PROGRESS" "Investigation started";
    Notes "uuid-2" "Customer documentation requested" "AML_Analyst_1";
    Close "uuid-0" "False positive - customer cleared" "AML_Analyst_2" ].

End CaseQueries.

(** ** The audit trail, case by case *)

Module CaseTrails.
Import CaseManager CaseQueries.








End CaseTrails.

(** * Properties of the scoring engine *)

Section Rounding.

Lemma round_half_even_comp (x y : Q) :
  x == y -> round_half_even x = round_half_even y.
Proof.
  intros E. unfold round_half_even.
  rewrite (Qfloor_comp _ _ E).
  assert (C : Qcompare (x - inject_Z (Qfloor y)) (1 # 2) =
              Qcompare (y - inject_Z (Qfloor y)) (1 # 2))
    by (apply Qcompare_comp; [rewrite E; reflexivity | reflexivity]).
  rewrite C. reflexivity.
Qed.

Lemma py_round2_comp (x y : Q) : x == y -> py_round2 x = py_round2 y.
Proof.
  intros E. unfold py_round2.
  rewrite (round_half_even_comp (x * 100) (y * 100)); [reflexivity | rewrite E; reflexivity].
Qed.

Lemma round_half_even_bounds (x : Q) (a b : Z) :
  inject_Z a <= x -> x <= inject_Z b ->
  (a <= round_half_even x <= b)%Z.
Proof.
  intros Ha Hb.
  pose proof (Qfloor_le x) as Hfl.
  assert (Hlo : (a <= Qfloor x)%Z).
  { rewrite <- (Qfloor_Z a). apply Qfloor_resp_le. exact Ha. }
  assert (Hhi : (Qfloor x <= b)%Z).
  { rewrite <- (Qfloor_Z b). apply Qfloor_resp_le. exact Hb. }
  unfold round_half_even.
  destruct (Z.eq_dec (Qfloor x) b) as [Eb | Nb].
  - assert (L : Qcompare (x - inject_Z (Qfloor x)) (1 # 2) = Lt).
    { apply -> Qlt_alt. rewrite Eb. lra. }
    rewrite L. lia.
  - destruct (Qcompare (x - inject_Z (Qfloor x)) (1 # 2));
      try destruct (Z.even (Qfloor x)); lia.
Qed.

Lemma py_round2_bounds (x : Q) : 0 <= x -> x <= 100 -> 0 <= py_round2 x /\ py_round2 x <= 100.
Proof.
  intros H0 H100.
  destruct (round_half_even_bounds (x * 100) 0 10000) as [L U].
  - change (inject_Z 0) with 0. lra.
  - change (inject_Z 10000) with 10000. lra.
  - unfold py_round2, Qle. simpl. lia.
Qed.

End Rounding.

Section ComponentBounds.

Import RiskEngine.

Lemma Qgeb_true (a b : Q) : Qgeb a b = true <-> b <= a.
Proof. unfold Qgeb. apply Qle_bool_iff. Qed.

Lemma Qgeb_false (a b : Q) : Qgeb a b = false <-> a < b.
Proof.
  unfold Qgeb. split; intros H.
  - apply Qnot_le_lt. intros L. apply Qle_bool_iff in L. congruence.
  - destruct (Qle_bool b a) eqn:E; [| reflexivity].
    apply Qle_bool_iff in E. lra.
Qed.

Lemma Qnat_nonneg (n : nat) : 0 <= Qnat n.
Proof. unfold Qnat, Qle. simpl. lia. Qed.

Lemma proportion_nonneg (c n : nat) : 0 <= Qnat c / Qnat n.
Proof.
  unfold Qdiv. apply Qmult_le_0_compat; [apply Qnat_nonneg |].
  apply Qinv_le_0_compat, Qnat_nonneg.
Qed.

Lemma tx_type_score_nonneg (k : string) : 0 <= dict_get tx_type_scores k 10.
Proof.
  unfold tx_type_scores. simpl.
  repeat match goal with |- context [if ?b then _ else _] => destruct b end; lra.
Qed.

Lemma weighted_share_nonneg (n : nat) (items : list (string * nat)) (acc : Q) :
  0 <= acc -> 0 <= fold_left (add_type_share n) items acc.
Proof.
  revert acc. induction items as [| it items IH]; intros acc Hacc; simpl.
  - exact Hacc.
  - apply IH. unfold add_type_share.
    pose proof (Qmult_le_0_compat _ _ (proportion_nonneg (snd it) n)
                  (tx_type_score_nonneg (fst it))).
    lra.
Qed.

Lemma type_score_range (df : DataFrame) :
  0 <= calculate_transaction_type_score df /\ calculate_transaction_type_score df <= 100.
Proof.
  unfold calculate_transaction_type_score.
  destruct (negb (str_in "type" (columns df))); [lra |].
  pose proof (weighted_share_nonneg (len df) (value_counts (map type (rows df))) 0
                ltac:(lra)) as Hw.
  cbv zeta. unfold py_min.
  destruct (Qgeb 100 _) eqn:E.
  - apply Qgeb_true in E. lra.
  - lra.
Qed.

Lemma amount_score_range (df : DataFrame) :
  0 <= calculate_amount_risk_score df /\ calculate_amount_risk_score df <= 90.
Proof.
  unfold calculate_amount_risk_score. cbv zeta.
  repeat match goal with |- context [if ?b then _ else _] => destruct b end; lra.
Qed.

Lemma fraud_score_range (df : DataFrame) :
  0 <= calculate_fraud_history_score df /\ calculate_fraud_history_score df <= 100.
Proof.
  unfold calculate_fraud_history_score. cbv zeta.
  destruct (_ || _); [lra |].
  destruct (Qgeb _ 0.5); [lra |].
  destruct (Qgeb _ 0.1); [lra |].
  destruct (0 <? _)%nat; lra.
Qed.

Lemma cash_score_range (df : DataFrame) :
  0 <= calculate_cash_pattern_score df /\ calculate_cash_pattern_score df <= 80.
Proof.
  unfold calculate_cash_pattern_score. cbv zeta.
  destruct (_ || _); [lra |].
  destruct (Qgeb _ 0.8); [lra |].
  destruct (Qgeb _ 0.5); [lra |].
  destruct (Qgeb _ 0.2); lra.
Qed.

Lemma weighted_total_range (df : DataFrame) :
  0 <= weighted_total df /\ weighted_total df <= 95.
Proof.
  unfold weighted_total, weights. simpl.
  pose proof (type_score_range df). pose proof (amount_score_range df).
  pose proof (fraud_score_range df). pose proof (cash_score_range df).
  lra.
Qed.

Lemma get_risk_category_monotone (x y : Q) :
  x <= y -> (category_rank (get_risk_category x) <= category_rank (get_risk_category y))%nat.
Proof.
  intros Hxy. unfold get_risk_category, thresholds. simpl.
  destruct (Qgeb x 85) eqn:X1; destruct (Qgeb y 85) eqn:Y1;
  destruct (Qgeb x 60) eqn:X2; destruct (Qgeb y 60) eqn:Y2;
  destruct (Qgeb x 30) eqn:X3; destruct (Qgeb y 30) eqn:Y3;
  try (vm_compute; lia);
  repeat match goal with
         | H : Qgeb _ _ = true |- _ => apply Qgeb_true in H
         | H : Qgeb _ _ = false |- _ => apply Qgeb_false in H
         end; lra.
Qed.

End ComponentBounds.

Section ScoringClaims.

Import RiskEngine.

Lemma get_risk_category_thresholds (s : Q) :
  (85 <= s -> get_risk_category s = "CRITICAL") /\
  (60 <= s -> s < 85 -> get_risk_category s = "HIGH") /\
  (30 <= s -> s < 60 -> get_risk_category s = "MEDIUM") /\
  (s < 30 -> get_risk_category s = "LOW").
Proof.
  unfold get_risk_category, thresholds. simpl.
  destruct (Qgeb s 85) eqn:E1; destruct (Qgeb s 60) eqn:E2; destruct (Qgeb s 30) eqn:E3;
  repeat match goal with
         | H : Qgeb _ _ = true |- _ => apply Qgeb_true in H
         | H : Qgeb _ _ = false |- _ => apply Qgeb_false in H
         end;
  repeat split; intros; try reflexivity; lra.
Qed.

Lemma borderline_frame_nonempty : rows borderline_frame <> [].
Proof. discriminate. Qed.

(** C2, as amended.  Scoring an empty transaction set raises nothing: it
    returns total score 0, category LOW and four zero components. *)
Theorem empty_set_scores_zero_low (df : DataFrame) :
  rows df = [] ->
  exists r,
    calculate_customer_risk_score df = Returned r /\
    total_score r == 0 /\
    risk_category r = "LOW" /\
    c_transaction_type (components r) == 0 /\
    c_amount_risk (components r) == 0 /\
    c_fraud_history (components r) == 0 /\
    c_cash_pattern (components r) == 0.
Proof.
  destruct df as [cols rs]. simpl. intros ->.
  eexists. split; [reflexivity |].
  unfold calculate_customer_risk_score, calculate_transaction_type_score,
    calculate_amount_risk_score, calculate_fraud_history_score,
    calculate_cash_pattern_score, len. simpl.
  destruct (str_in "type" cols); destruct (str_in "amount" cols);
    destruct (str_in "isFraud" cols); simpl;
    repeat split; reflexivity.
Qed.

Lemma empty_set_scores_zero_low_witness :
  exists r,
    calculate_customer_risk_score empty_frame = Returned r /\
    total_score r == 0 /\ risk_category r = "LOW".
Proof.
  destruct (empty_set_scores_zero_low empty_frame eq_refl) as (r & Hr & Hs & Hc & _).
  exists r. repeat split; assumption.
Defined.

(** C2, as stated, fails: the empty transaction set is scored, not rejected. *)
Lemma empty_set_not_rejected :
  rows empty_frame = [] /\
  calculate_customer_risk_score empty_frame <> Raised EmptyInputError /\
  exists r,
    calculate_customer_risk_score empty_frame = Returned r /\
    total_score r == 0 /\ risk_category r = "LOW".
Proof.
  split; [reflexivity |]. split; [discriminate |].
  eexists. split; [reflexivity |]. split; reflexivity.
Qed.

End ScoringClaims.

(** * The scoring engine in double precision *)

Section Binary64Facts.

Import Binary64.

Lemma round_half_even_floor (x : Q) :
  (Qfloor x <= round_half_even x <= Qfloor x + 1)%Z.
Proof.
  unfold round_half_even.
  destruct (Qcompare _ _); try destruct (Z.even _); lia.
Qed.

Lemma round_half_even_monotone (x y : Q) :
  x <= y -> (round_half_even x <= round_half_even y)%Z.
Proof.
  intros Hxy.
  pose proof (Qfloor_resp_le _ _ Hxy) as Hf.
  destruct (Z.eq_dec (Qfloor x) (Qfloor y)) as [E | N].
  - unfold round_half_even. rewrite E.
    destruct (Qcompare (x - inject_Z (Qfloor y)) (1 # 2)) eqn:Cx;
      destruct (Qcompare (y - inject_Z (Qfloor y)) (1 # 2)) eqn:Cy;
      try (destruct (Z.even (Qfloor y)); lia); try lia; exfalso;
      repeat match goal with
             | H : Qcompare _ _ = Eq |- _ => apply Qeq_alt in H
             | H : Qcompare _ _ = Lt |- _ => apply Qlt_alt in H
             | H : Qcompare _ _ = Gt |- _ => apply Qgt_alt in H
             end; lra.
  - pose proof (round_half_even_floor x). pose proof (round_half_even_floor y). lia.
Qed.

Lemma pow2_pos (s : Z) : (0 <= s)%Z -> 0 < inject_Z (2 ^ s).
Proof.
  intros H. change 0 with (inject_Z 0). rewrite <- Zlt_Qlt.
  apply Z.pow_pos_nonneg; lia.
Qed.

Lemma div_mul_cancel (a c : Q) : 0 < c -> a / c * c == a.
Proof. intros H. field. intros E. rewrite E in H. apply (Qlt_irrefl 0), H. Qed.

(** Rounding to the nearest double is monotone.  Two numbers that keep the
    same number of bits are rounded on the same grid; otherwise the smaller
    one is rounded to at most [2^53] steps of its grid, the larger one to at
    least [2^52] steps of a grid at least twice as coarse. *)
Lemma nearest_nonneg_monotone (x y : Q) :
  0 <= x -> x <= y -> nearest_nonneg x <= nearest_nonneg y.
Proof.
  intros Hx Hxy. unfold nearest_nonneg. cbv zeta.
  pose proof (pow2_pos 1074 ltac:(lia)) as HP.
  set (P := inject_Z (2 ^ 1074)) in *.
  assert (Hy1 : 0 <= x * P) by (apply Qmult_le_0_compat; lra).
  assert (Hy12 : x * P <= y * P) by (apply Qmult_le_compat_r; lra).
  set (y1 := x * P) in *. set (y2 := y * P) in *.
  pose proof (Qfloor_resp_le _ _ Hy12) as HN.
  assert (HN1 : (0 <= Qfloor y1)%Z).
  { rewrite <- (Qfloor_Z 0). apply Qfloor_resp_le. exact Hy1. }
  set (N1 := Qfloor y1) in *. set (N2 := Qfloor y2) in *.
  pose proof (Z.log2_le_mono _ _ HN) as HL.
  set (s1 := Z.max 0 (Z.log2 N1 - 52)). set (s2 := Z.max 0 (Z.log2 N2 - 52)).
  assert (Hs1 : (0 <= s1)%Z) by (unfold s1; lia).
  assert (Hs2 : (0 <= s2)%Z) by (unfold s2; lia).
  assert (Hs12 : (s1 <= s2)%Z) by (unfold s1, s2; lia).
  pose proof (pow2_pos s1 Hs1) as Hp1. pose proof (pow2_pos s2 Hs2) as Hp2.
  apply Qle_shift_div_l; [exact HP |].
  rewrite (div_mul_cancel _ P HP).
  rewrite <- Zle_Qle.
  destruct (Z.eq_dec s1 s2) as [E | Ne].
  - rewrite <- E. apply Z.mul_le_mono_nonneg_r; [apply Z.pow_nonneg; lia |].
    apply round_half_even_monotone.
    apply Qle_shift_div_l; [exact Hp1 |].
    rewrite (div_mul_cancel _ _ Hp1). exact Hy12.
  - assert (Hlt : (s1 < s2)%Z) by lia.
    assert (U : (round_half_even (y1 / inject_Z (2 ^ s1)) <= 2 ^ 53)%Z).
    { assert (B : y1 / inject_Z (2 ^ s1) <= inject_Z (2 ^ 53)).
      { apply Qle_shift_div_r; [exact Hp1 |].
        rewrite <- inject_Z_mult, <- Z.pow_add_r by lia.
        apply Qle_trans with (inject_Z (N1 + 1)).
        - apply Qlt_le_weak. apply Qlt_floor.
        - rewrite <- Zle_Qle.
          destruct (Z.eq_dec N1 0) as [-> | Hnz].
          + pose proof (Z.pow_pos_nonneg 2 (53 + s1) ltac:(lia) ltac:(lia)). lia.
          + pose proof (Z.log2_spec N1 ltac:(lia)) as [_ Hup].
            assert ((2 ^ Z.succ (Z.log2 N1) <= 2 ^ (53 + s1))%Z)
              by (apply Z.pow_le_mono_r; unfold s1; lia).
            lia. }
      pose proof (round_half_even_monotone _ _ B) as M.
      assert (R : round_half_even (inject_Z (2 ^ 53)) = (2 ^ 53)%Z) by (vm_compute; reflexivity).
      rewrite R in M. exact M. }
    assert (L : (2 ^ 52 <= round_half_even (y2 / inject_Z (2 ^ s2)))%Z).
    { assert (B : inject_Z (2 ^ 52) <= y2 / inject_Z (2 ^ s2)).
      { apply Qle_shift_div_l; [exact Hp2 |].
        rewrite <- inject_Z_mult, <- Z.pow_add_r by lia.
        apply Qle_trans with (inject_Z N2); [| apply Qfloor_le].
        rewrite <- Zle_Qle.
        assert (Hs2e : s2 = (Z.log2 N2 - 52)%Z) by (unfold s2 in *; lia).
        assert (HN2 : (0 < N2)%Z).
        { destruct (Z.le_gt_cases N2 0) as [Hn | Hn]; [| exact Hn].
          rewrite (Z.log2_nonpos _ Hn) in Hs2e. lia. }
        pose proof (Z.log2_spec N2 HN2) as [Hlo _].
        replace (52 + s2)%Z with (Z.log2 N2) by lia. exact Hlo. }
      pose proof (round_half_even_monotone _ _ B) as M.
      assert (R : round_half_even (inject_Z (2 ^ 52)) = (2 ^ 52)%Z) by (vm_compute; reflexivity).
      rewrite R in M. exact M. }
    apply Z.le_trans with (2 ^ 53 * 2 ^ s1)%Z.
    + apply Z.mul_le_mono_nonneg_r; [apply Z.pow_nonneg; lia | exact U].
    + apply Z.le_trans with (2 ^ 52 * 2 ^ s2)%Z.
      * rewrite <- !Z.pow_add_r by lia. apply Z.pow_le_mono_r; lia.
      * apply Z.mul_le_mono_nonneg_r; [apply Z.pow_nonneg; lia | exact L].
Qed.

Lemma nearest_nonneg_zero : nearest_nonneg 0 == 0.
Proof. vm_compute. reflexivity. Qed.

Lemma nearest_nonneg_nonneg (x : Q) : 0 <= x -> 0 <= nearest_nonneg x.
Proof.
  intros H. rewrite <- nearest_nonneg_zero.
  apply nearest_nonneg_monotone; lra.
Qed.

Lemma Qle_bool_false (a b : Q) : Qle_bool a b = false -> b < a.
Proof.
  intros H. apply Qnot_le_lt. intros L. apply Qle_bool_iff in L. congruence.
Qed.

Lemma rnd_monotone (x y : Q) : x <= y -> rnd x <= rnd y.
Proof.
  intros Hxy. unfold rnd. rewrite !Qred_correct.
  destruct (Qle_bool 0 x) eqn:X, (Qle_bool 0 y) eqn:Y.
  - apply Qle_bool_iff in X. apply nearest_nonneg_monotone; assumption.
  - apply Qle_bool_iff in X. apply Qle_bool_false in Y. lra.
  - apply Qle_bool_iff in Y. apply Qle_bool_false in X.
    pose proof (nearest_nonneg_nonneg (- x) ltac:(lra)).
    pose proof (nearest_nonneg_nonneg y Y). lra.
  - apply Qle_bool_false in X. apply Qle_bool_false in Y.
    pose proof (nearest_nonneg_monotone (- y) (- x) ltac:(lra) ltac:(lra)). lra.
Qed.

Lemma rnd_zero : rnd 0 = 0.
Proof. vm_compute. reflexivity. Qed.

Lemma rnd_nonneg (x : Q) : 0 <= x -> 0 <= rnd x.
Proof. intros H. rewrite <- rnd_zero. apply rnd_monotone, H. Qed.

Lemma fadd_monotone (a A b B : Q) : a <= A -> b <= B -> fadd a b <= fadd A B.
Proof. intros. apply rnd_monotone. lra. Qed.

Lemma fmul_monotone (a A b B : Q) :
  0 <= a -> a <= A -> 0 <= b -> b <= B -> fmul a b <= fmul A B.
Proof.
  intros. apply rnd_monotone.
  apply Qle_trans with (a * B).
  - rewrite !(Qmult_comm a). apply Qmult_le_compat_r; assumption.
  - apply Qmult_le_compat_r; lra.
Qed.

Lemma fadd_nonneg (a b : Q) : 0 <= a -> 0 <= b -> 0 <= fadd a b.
Proof. intros. apply rnd_nonneg. lra. Qed.

Lemma fmul_nonneg (a b : Q) : 0 <= a -> 0 <= b -> 0 <= fmul a b.
Proof. intros. apply rnd_nonneg. apply Qmult_le_0_compat; assumption. Qed.

Lemma weighted_sum_monotone (t a f c T A F C w1 w2 w3 w4 : Q) :
  0 <= t <= T -> 0 <= a <= A -> 0 <= f <= F -> 0 <= c <= C ->
  0 <= w1 -> 0 <= w2 -> 0 <= w3 -> 0 <= w4 ->
  0 <= fadd (fadd (fadd (fmul t w1) (fmul a w2)) (fmul f w3)) (fmul c w4)
    <= fadd (fadd (fadd (fmul T w1) (fmul A w2)) (fmul F w3)) (fmul C w4).
Proof.
  intros [T0 T1] [A0 A1] [F0 F1] [C0 C1] W1 W2 W3 W4. split.
  - repeat apply fadd_nonneg; apply fmul_nonneg; assumption.
  - repeat apply fadd_monotone; apply fmul_monotone; try assumption; apply Qle_refl.
Qed.

Lemma fdiv_nat_nonneg (c n : nat) : 0 <= fdiv (RiskEngine.Qnat c) (RiskEngine.Qnat n).
Proof. apply rnd_nonneg. apply proportion_nonneg. Qed.

Lemma round2_bounds (x : Q) : 0 <= x -> x <= 100 -> 0 <= round2 x <= 100.
Proof.
  intros H0 H100. destruct (py_round2_bounds x H0 H100) as [L U].
  unfold round2. split.
  - apply rnd_nonneg, L.
  - assert (E : rnd 100 = 100) by (vm_compute; reflexivity).
    rewrite <- E. apply rnd_monotone, U.
Qed.

End Binary64Facts.

Section ScoringInBinary64.

Import RiskEngine RiskEngine64 Binary64.

Variable series_mean : list Q -> Q.

Lemma weighted_share_nonneg64 (n : nat) (items : list (string * nat)) (acc : Q) :
  0 <= acc -> 0 <= fold_left (add_type_share n) items acc.
Proof.
  revert acc. induction items as [| it items IH]; intros acc Hacc; simpl.
  - exact Hacc.
  - apply IH. unfold add_type_share.
    apply fadd_nonneg; [exact Hacc |].
    apply fmul_nonneg; [apply fdiv_nat_nonneg | apply tx_type_score_nonneg].
Qed.

Lemma type_score_range64 (df : DataFrame) :
  0 <= calculate_transaction_type_score df <= 100.
Proof.
  unfold calculate_transaction_type_score.
  destruct (negb (str_in "type" (columns df))); [lra |].
  pose proof (weighted_share_nonneg64 (len df) (value_counts (map type (rows df))) 0
                ltac:(lra)) as Hw.
  cbv zeta. unfold py_min.
  destruct (Qgeb 100 _) eqn:E.
  - apply Qgeb_true in E. lra.
  - lra.
Qed.

Lemma amount_score_range64 (df : DataFrame) :
  0 <= calculate_amount_risk_score series_mean df <= 90.
Proof.
  unfold calculate_amount_risk_score. cbv zeta.
  repeat match goal with |- context [if ?b then _ else _] => destruct b end; lra.
Qed.

Lemma fraud_score_range64 (df : DataFrame) :
  0 <= calculate_fraud_history_score df <= 100.
Proof.
  unfold calculate_fraud_history_score. cbv zeta.
  destruct (_ || _); [lra |].
  destruct (Qgeb _ (rnd 0.5)); [lra |].
  destruct (Qgeb _ (rnd 0.1)); [lra |].
  destruct (0 <? _)%nat; lra.
Qed.

Lemma cash_score_range64 (df : DataFrame) :
  0 <= calculate_cash_pattern_score df <= 80.
Proof.
  unfold calculate_cash_pattern_score. cbv zeta.
  destruct (_ || _); [lra |].
  destruct (Qgeb _ (rnd 0.8)); [lra |].
  destruct (Qgeb _ (rnd 0.5)); [lra |].
  destruct (Qgeb _ (rnd 0.2)); lra.
Qed.

Lemma weights_as_doubles :
  w_transaction_type weights = rnd 0.25 /\ w_amount_risk weights = rnd 0.30 /\
  w_fraud_history weights = rnd 0.35 /\ w_cash_pattern weights = rnd 0.10.
Proof. repeat split. Qed.

Lemma weights_nonneg :
  0 <= w_transaction_type weights /\ 0 <= w_amount_risk weights /\
  0 <= w_fraud_history weights /\ 0 <= w_cash_pattern weights.
Proof.
  destruct weights_as_doubles as (-> & -> & -> & ->).
  repeat split; apply rnd_nonneg; lra.
Qed.

Lemma risk_score_eq (df : DataFrame) :
  calculate_customer_risk_score series_mean df =
  Returned {|
    total_score := round2 (weighted_total series_mean df);
    risk_category := get_risk_category (weighted_total series_mean df);
    components := {|
      c_transaction_type := round2 (calculate_transaction_type_score df);
      c_amount_risk := round2 (calculate_amount_risk_score series_mean df);
      c_fraud_history := round2 (calculate_fraud_history_score df);
      c_cash_pattern := round2 (calculate_cash_pattern_score df)
    |}
  |}.
Proof. reflexivity. Qed.

Lemma weighted_total_eq (df : DataFrame) :
  weighted_total series_mean df =
  fadd (fadd (fadd (fmul (calculate_transaction_type_score df) (rnd 0.25))
                   (fmul (calculate_amount_risk_score series_mean df) (rnd 0.30)))
             (fmul (calculate_fraud_history_score df) (rnd 0.35)))
       (fmul (calculate_cash_pattern_score df) (rnd 0.10)).
Proof.
  unfold weighted_total.
  destruct weights_as_doubles as (-> & -> & -> & ->). reflexivity.
Qed.

(** The weighted sum of the largest component scores, 100, 90, 100 and 80,
    is 95 in doubles as in exact arithmetic; rounding being monotone, no
    weighted sum is above it. *)
Lemma weighted_total_range64 (df : DataFrame) :
  0 <= weighted_total series_mean df <= 95.
Proof.
  destruct weights_nonneg as (W1 & W2 & W3 & W4).
  pose proof (weighted_sum_monotone _ _ _ _ 100 90 100 80 _ _ _ _
                (type_score_range64 df) (amount_score_range64 df)
                (fraud_score_range64 df) (cash_score_range64 df) W1 W2 W3 W4) as [Lo Hi].
  assert (E : fadd (fadd (fadd (fmul 100 (w_transaction_type weights))
                               (fmul 90 (w_amount_risk weights)))
                         (fmul 100 (w_fraud_history weights)))
                   (fmul 80 (w_cash_pattern weights)) = 95)
    by (vm_compute; reflexivity).
  rewrite E in Hi. split; [exact Lo | exact Hi].
Qed.

(** C1, as amended.  For every non-empty transaction set, and whatever the
    mean of the amounts comes to, the call returns; the returned
    [total_score] is [round(s, 2)] of the double [s] that the interpreter
    computes for [type*0.25 + amount*0.30 + fraud*0.35 + cash*0.10] (four
    rounded products, added from left to right with rounding), and lies in
    [0, 100]; the returned [risk_category] is the threshold function
    (>= 85 CRITICAL, >= 60 HIGH, >= 30 MEDIUM, else LOW) of [s], the sum
    before [round], and that function is monotonic. *)
Theorem risk_score_weighted_rounded_bounded (df : DataFrame) :
  rows df <> [] ->
  exists r,
    calculate_customer_risk_score series_mean df = Returned r /\
    let s := fadd (fadd (fadd (fmul (calculate_transaction_type_score df) (rnd 0.25))
                              (fmul (calculate_amount_risk_score series_mean df) (rnd 0.30)))
                        (fmul (calculate_fraud_history_score df) (rnd 0.35)))
                  (fmul (calculate_cash_pattern_score df) (rnd 0.10)) in
    total_score r = round2 s /\
    0 <= total_score r <= 100 /\
    risk_category r = get_risk_category s /\
    (85 <= s -> risk_category r = "CRITICAL") /\
    (60 <= s -> s < 85 -> risk_category r = "HIGH") /\
    (30 <= s -> s < 60 -> risk_category r = "MEDIUM") /\
    (s < 30 -> risk_category r = "LOW") /\
    (forall x y, x <= y ->
       (category_rank (get_risk_category x) <= category_rank (get_risk_category y))%nat).
Proof.
  intros _. rewrite risk_score_eq. eexists. split; [reflexivity |].
  cbv zeta. cbn [total_score risk_category].
  rewrite <- weighted_total_eq.
  pose proof (weighted_total_range64 df) as [Lo Hi].
  pose proof (get_risk_category_thresholds (weighted_total series_mean df))
    as (T1 & T2 & T3 & T4).
  split; [reflexivity |].
  split; [apply round2_bounds; lra |].
  split; [reflexivity |].
  split; [exact T1 |]. split; [exact T2 |]. split; [exact T3 |]. split; [exact T4 |].
  exact get_risk_category_monotone.
Qed.

End ScoringInBinary64.

Section ScoringExamples.

Import RiskEngine RiskEngine64 Binary64.

Lemma risk_score_weighted_rounded_bounded_witness :
  rows borderline_frame <> [] /\
  forall series_mean : list Q -> Q,
  exists r,
    calculate_customer_risk_score series_mean borderline_frame = Returned r /\
    0 <= total_score r <= 100.
Proof.
  split; [exact borderline_frame_nonempty |].
  intros series_mean.
  destruct (risk_score_weighted_rounded_bounded series_mean borderline_frame
              borderline_frame_nonempty) as (r & Hr & _ & Hb & _).
  exists r. split; [exact Hr | exact Hb].
Defined.

(** C1, as stated, fails: for the customer of [borderline_frame] the weighted
    sum is the double 59.99509803921568..., the returned score is 60.0, and
    the returned category is MEDIUM although the thresholds put a score of
    60 in HIGH.  The largest amount is above the high threshold, so the mean
    of the amounts plays no part. *)
Lemma category_differs_from_thresholds_on_returned_score :
  rows borderline_frame <> [] /\
  forall series_mean : list Q -> Q,
    59.995 < weighted_total series_mean borderline_frame < 60 /\
    exists r,
      calculate_customer_risk_score series_mean borderline_frame = Returned r /\
      total_score r = 60 /\
      risk_category r = "MEDIUM" /\
      get_risk_category (total_score r) = "HIGH" /\
      risk_category r <> get_risk_category (total_score r).
Proof.
  split; [discriminate |]. intros series_mean.
  split; [split; vm_compute; reflexivity |].
  eexists. split; [vm_compute; reflexivity |].
  cbn [total_score risk_category].
  split; [reflexivity |]. split; [reflexivity |].
  split; [vm_compute; reflexivity |].
  vm_compute. discriminate.
Qed.

(** The two embeddings of the engine part ways on five TRANSFER and one
    PAYMENT: the weighted sum is 22.125 exactly, a tie that [round] resolves
    to 22.12, and 22.125000000000004 in doubles, which [round] takes to
    22.13.  They part ways on [drift_frame] too: the weighted sum is 30
    exactly, which is MEDIUM, and 29.999999999999996 in doubles, which is
    LOW. *)
Lemma doubles_differ_from_exact_arithmetic :
  RiskEngine.weighted_total tie_frame == 22.125 /\
  22.125 < RiskEngine64.weighted_total RiskEngine.series_mean tie_frame /\
  (exists r, RiskEngine.calculate_customer_risk_score tie_frame = Returned r /\
             total_score r == 22.12) /\
  (exists r, RiskEngine64.calculate_customer_risk_score RiskEngine.series_mean tie_frame
               = Returned r /\
             total_score r = rnd 22.13) /\
  (exists r, RiskEngine.calculate_customer_risk_score drift_frame = Returned r /\
             risk_category r = "MEDIUM") /\
  (exists r, RiskEngine64.calculate_customer_risk_score RiskEngine.series_mean drift_frame
               = Returned r /\
             risk_category r = "LOW").
Proof.
  split; [vm_compute; reflexivity |].
  split; [vm_compute; reflexivity |].
  repeat split; eexists; (split; [vm_compute; reflexivity | vm_compute; reflexivity]).
Qed.

(** On the example frames of this file the arithmetic of [RiskEngine64] is
    that of the library's IEEE floats. *)
Lemma doubles_agree_with_SpecFloat :
  forallb IEEE.agrees [borderline_frame; tie_frame; drift_frame; Portfolio.top_frame] = true.
Proof. vm_compute. reflexivity. Qed.

End ScoringExamples.

(** * Properties of the alert engine *)

Section AlertClaims.

Import AlertEngine.

Context {St : Type}.

(** Case analysis on every test of [_evaluate_customer_alerts]. *)
Ltac split_rules customer :=
  unfold _evaluate_customer_alerts, alert_thresholds; cbn [critical_risk_score
    high_risk_score large_transaction fraud_count_threshold pep_alert sanctions_alert];
  destruct (Qgeb (Customer.enhanced_risk_score customer) 85) eqn:Hcrit;
  [| destruct (Qgeb (Customer.enhanced_risk_score customer) 60) eqn:Hhigh];
  (destruct (Customer.is_pep customer) eqn:Hpep);
  (destruct (Customer.sanctions_risk customer) eqn:Hsanc);
  (destruct (Customer.fraud_count customer) as [n |] eqn:Hfraud;
   [destruct (1 <=? n)%Z eqn:Hn |]);
  (destruct (Customer.total_amount customer) as [amt |] eqn:Hamt;
   [destruct (Qgeb amt 100000) eqn:Hlarge |]).

Lemma create_alert_risk_level (cid : string) (ty : AlertType) (d : fstring)
    (env : Env) (p : Proc St) :
  exists a p',
    _create_alert cid ty d env p = (Returned a, p') /\
    Alert.alert_type a = AlertType_value ty /\
    Alert.priority a = AlertPriority_value (rule_priority (alert_rules ty)) /\
    risk_level_from_type a.
Proof.
  do 2 eexists. split; [reflexivity |].
  destruct ty; repeat split.
Qed.

Lemma evaluate_risk_level (customer : Customer.t) (env : Env) (p : Proc St) :
  exists alerts p',
    _evaluate_customer_alerts customer env p = (Returned alerts, p') /\
    Forall risk_level_from_type alerts.
Proof.
  split_rules customer;
    (do 2 eexists; split; [reflexivity |]; repeat constructor).
Qed.

Lemma extend_risk_level (customers : list Customer.t) :
  forall (alerts : list Alert.t) (env : Env) (p : Proc St),
    Forall risk_level_from_type alerts ->
    exists alerts' p',
      extend_with_customers alerts customers env p = (Returned alerts', p') /\
      Forall risk_level_from_type alerts'.
Proof.
  induction customers as [| c cs IH]; intros alerts env p Hall; simpl.
  - do 2 eexists. split; [reflexivity | exact Hall].
  - destruct (evaluate_risk_level c env p) as (ca & p1 & Hev & Hca).
    unfold bind at 1. rewrite Hev.
    apply IH. apply Forall_app. split; assumption.
Qed.

(** C4.  Every alert the engine produces, whether built by [_create_alert]
    for any alert type, collected by [_evaluate_customer_alerts] for any
    profile, or returned in the table of [generate_alerts], carries the risk
    level that the fixed table assigns to its alert type (PEP_DETECTED,
    SANCTIONS_MATCH, FRAUD_INDICATOR: CRITICAL; HIGH_RISK_CUSTOMER,
    SUSPICIOUS_PATTERN: HIGH; any other: MEDIUM), whatever its priority and
    whichever rule produced it. *)
Theorem risk_level_fixed_by_alert_type :
  (forall (cid : string) (ty : AlertType) (d : fstring) (env : Env) (p : Proc St),
     exists a p',
       _create_alert cid ty d env p = (Returned a, p') /\
       Alert.alert_type a = AlertType_value ty /\
       Alert.risk_level a = spec_risk_level_table (Alert.alert_type a)) /\
  (forall (customer : Customer.t) (env : Env) (p : Proc St),
     exists alerts p',
       _evaluate_customer_alerts customer env p = (Returned alerts, p') /\
       forall a, In a alerts ->
         Alert.risk_level a = spec_risk_level_table (Alert.alert_type a)) /\
  (forall (customer_profiles : list Customer.t) (env : Env) (p : Proc St),
     exists table p',
       generate_alerts customer_profiles env p = (Returned table, p') /\
       forall r, In r table ->
         Alert.risk_level (alert r) = spec_risk_level_table (Alert.alert_type (alert r))).
Proof.
  split; [| split].
  - intros cid ty d env p.
    destruct (create_alert_risk_level cid ty d env p) as (a & p' & E & Ht & _ & Hr).
    exists a, p'. auto.
  - intros customer env p.
    destruct (evaluate_risk_level customer env p) as (alerts & p' & E & Hall).
    exists alerts, p'. split; [exact E |].
    rewrite Forall_forall in Hall. exact Hall.
  - intros customers env p.
    destruct (extend_risk_level customers [] env p (Forall_nil _))
      as (alerts & p1 & E & Hall).
    unfold generate_alerts, bind. rewrite E.
    destruct (0 <? length alerts)%nat.
    + do 2 eexists. split; [reflexivity |].
      intros r Hr. apply in_map_iff in Hr. destruct Hr as (a & <- & Ha).
      rewrite Forall_forall in Hall. exact (Hall a Ha).
    + do 2 eexists. split; [reflexivity |]. intros r [].
Qed.

(** C5, as amended.  For every profile with [enhanced_risk_score >= 60] the
    first alert of the evaluation is a HIGH_RISK_CUSTOMER alert of priority
    HIGH and risk level HIGH, and it is the only HIGH_RISK_CUSTOMER alert;
    the two threshold branches differ in the details text alone ("Critical
    risk score" from 85 on, "High risk score" below). *)
Theorem high_risk_customer_alert_is_high (customer : Customer.t) (env : Env) (p : Proc St) :
  60 <= Customer.enhanced_risk_score customer ->
  exists a rest p',
    _evaluate_customer_alerts customer env p = (Returned (a :: rest), p') /\
    Alert.customer_id a = Customer.customer_id customer /\
    Alert.alert_type a = "HIGH_RISK_CUSTOMER" /\
    Alert.priority a = "HIGH" /\
    Alert.risk_level a = "HIGH" /\
    Alert.details a =
      [Text (if Qgeb (Customer.enhanced_risk_score customer) 85
             then "Critical risk score: " else "High risk score: ");
       Float (Customer.enhanced_risk_score customer)] /\
    filter (is_type "HIGH_RISK_CUSTOMER") rest = [].
Proof.
  intros Hscore. apply Qgeb_true in Hscore.
  split_rules customer; try congruence;
    (do 3 eexists; split; [reflexivity |]; repeat split).
Qed.

(** C6.  For every profile with [is_pep] set, one evaluation yields exactly
    one PEP_DETECTED alert, of priority CRITICAL and risk level CRITICAL,
    whatever the other fields of the profile are. *)
Theorem pep_profile_yields_one_pep_alert (customer : Customer.t) (env : Env) (p : Proc St) :
  Customer.is_pep customer = true ->
  exists alerts p' a,
    _evaluate_customer_alerts customer env p = (Returned alerts, p') /\
    filter (is_type "PEP_DETECTED") alerts = [a] /\
    Alert.customer_id a = Customer.customer_id customer /\
    Alert.priority a = "CRITICAL" /\
    Alert.risk_level a = "CRITICAL".
Proof.
  intros Hp.
  split_rules customer; try congruence;
    (do 3 eexists; split; [reflexivity |]; repeat split).
Qed.

End AlertClaims.

Section AlertExamples.

Import AlertEngine.

Lemma risk_level_fixed_by_alert_type_witness :
  exists alerts p' a,
    _evaluate_customer_alerts scenario_profile demo_env idle = (Returned alerts, p') /\
    In a alerts /\
    Alert.alert_type a = "PEP_DETECTED" /\
    Alert.risk_level a = spec_risk_level_table (Alert.alert_type a).
Proof.
  destruct (proj1 (proj2 risk_level_fixed_by_alert_type) scenario_profile demo_env idle)
    as (alerts & p' & E & H).
  exists alerts, p'.
  assert (Hin : exists a, In a alerts /\ Alert.alert_type a = "PEP_DETECTED").
  { vm_compute in E. injection E as <- _.
    eexists. split; [right; left; reflexivity | reflexivity]. }
  destruct Hin as (a & Hin & Hty).
  exists a. repeat split; [exact E | exact Hin | exact Hty | exact (H a Hin)].
Defined.

Lemma high_risk_customer_alert_is_high_witness :
  60 <= Customer.enhanced_risk_score scenario_profile /\
  exists a rest p',
    _evaluate_customer_alerts scenario_profile demo_env idle = (Returned (a :: rest), p') /\
    Alert.priority a = "HIGH" /\ Alert.risk_level a = "HIGH".
Proof.
  assert (H : 60 <= Customer.enhanced_risk_score scenario_profile) by (vm_compute; discriminate).
  split; [exact H |].
  destruct (high_risk_customer_alert_is_high scenario_profile demo_env idle H)
    as (a & rest & p' & E & _ & _ & Hp & Hr & _).
  exists a, rest, p'. repeat split; assumption.
Defined.

Lemma pep_profile_yields_one_pep_alert_witness :
  Customer.is_pep scenario_profile = true /\
  exists alerts p' a,
    _evaluate_customer_alerts scenario_profile demo_env idle = (Returned alerts, p') /\
    filter (is_type "PEP_DETECTED") alerts = [a] /\
    Alert.priority a = "CRITICAL".
Proof.
  split; [reflexivity |].
  destruct (pep_profile_yields_one_pep_alert scenario_profile demo_env idle eq_refl)
    as (alerts & p' & a & E & F & _ & Hp & _).
  exists alerts, p', a. repeat split; assumption.
Defined.

(** C5, as stated, fails: at score 90 the HIGH_RISK_CUSTOMER alert has risk
    level HIGH, and no alert of the evaluation is a HIGH_RISK_CUSTOMER alert
    of risk level CRITICAL. *)
Lemma critical_score_alert_not_critical_level :
  85 <= Customer.enhanced_risk_score scenario_profile /\
  exists alerts p',
    _evaluate_customer_alerts scenario_profile demo_env idle = (Returned alerts, p') /\
    map summary alerts =
      [("HIGH_RISK_CUSTOMER", "HIGH", "HIGH"); ("PEP_DETECTED", "CRITICAL", "CRITICAL")] /\
    ~ exists a, In a alerts /\
        Alert.alert_type a = "HIGH_RISK_CUSTOMER" /\
        Alert.priority a = "HIGH" /\
        Alert.risk_level a = "CRITICAL".
Proof.
  split; [vm_compute; discriminate |].
  do 2 eexists. split; [reflexivity |]. split; [reflexivity |].
  intros (a & Hin & Ht & _ & Hr).
  simpl in Hin. destruct Hin as [<- | [<- | []]]; simpl in *; discriminate.
Qed.

End AlertExamples.

(** * Properties of the case manager *)

Section CaseManagerLemmas.

Import CaseManager.

Lemma log_case_action_eq (cid ty desc who : string) (env : Env) (p : Proc AMLCaseManager) :
  _log_case_action cid ty desc who env p =
  (Returned tt,
   {| self := {| cases := cases (self p);
                 case_actions := (case_actions (self p) ++ [logged env p cid ty desc who])%list |};
      uuid_draws := S (uuid_draws p);
      clock_reads := S (clock_reads p) |}).
Proof. reflexivity. Qed.

Lemma mask_any_unknown (cid : string) (m : AMLCaseManager) :
  unknown cid m -> mask_any cid (cases m) = false.
Proof.
  unfold unknown, mask_any. intros H.
  destruct (existsb (mask cid) (cases m)) eqn:E; [| reflexivity].
  apply existsb_exists in E. destruct E as (c & Hc & Hm).
  unfold mask in Hm. apply String.eqb_eq in Hm. destruct (H c Hc Hm).
Qed.

Lemma mask_any_known (cid : string) (m : AMLCaseManager) (c : Case.t) :
  In c (cases m) -> Case.case_id c = cid ->
  mask_any cid (cases m) = true /\ (0 <? length (cases m))%nat = true.
Proof.
  intros Hin Hid. split.
  - apply existsb_exists. exists c. split; [exact Hin |].
    unfold mask. apply String.eqb_eq. exact Hid.
  - destruct (cases m); [destruct Hin | reflexivity].
Qed.

Lemma update_case_status_unknown_eq (cid new_status notes : string) (env : Env)
    (p : Proc AMLCaseManager) :
  unknown cid (self p) ->
  update_case_status cid new_status notes env p = (Returned tt, p).
Proof.
  intros H. unfold update_case_status, bind, get_self.
  rewrite (mask_any_unknown _ _ H).
  destruct (0 <? length (cases (self p)))%nat; reflexivity.
Qed.

Lemma update_case_status_known_eq (cid new_status notes : string) (env : Env)
    (p : Proc AMLCaseManager) :
  mask_any cid (cases (self p)) = true ->
  (0 <? length (cases (self p)))%nat = true ->
  update_case_status cid new_status notes env p =
  (Returned tt,
   {| self :=
        {| cases :=
             loc_set cid (Case.set_last_updated (now_at env (clock_reads p)))
               (loc_set cid (Case.set_status new_status) (cases (self p)));
           case_actions :=
             (case_actions (self p) ++
              [ {| CaseAction.action_id := uuid4_at env (uuid_draws p);
                   CaseAction.case_id := cid;
                   CaseAction.action_type := "STATUS_CHANGED";
                   CaseAction.description :=
                     "Status changed from " ++ first_status cid (cases (self p)) ++ " to "
                     ++ new_status ++ ". " ++ notes;
                   CaseAction.analyst_name := "SYSTEM";
                   CaseAction.timestamp := now_at env (S (clock_reads p)) |} ])%list |};
      uuid_draws := S (uuid_draws p);
      clock_reads := S (S (clock_reads p)) |}).
Proof.
  intros Hany Hlen. unfold update_case_status, bind, get_self.
  rewrite Hany, Hlen. reflexivity.
Qed.

Lemma loc_set_ids (cid : string) (f : Case.t -> Case.t) (cs : list Case.t) :
  (forall c, Case.case_id (f c) = Case.case_id c) ->
  map Case.case_id (loc_set cid f cs) = map Case.case_id cs.
Proof.
  intros Hf. unfold loc_set. rewrite map_map. apply map_ext.
  intros c. destruct (mask cid c); [apply Hf | reflexivity].
Qed.

Lemma loc_set_In (cid : string) (f : Case.t -> Case.t) (cs : list Case.t) (c' : Case.t) :
  In c' (loc_set cid f cs) ->
  exists c, In c cs /\ c' = (if mask cid c then f c else c).
Proof.
  unfold loc_set. intros H. apply in_map_iff in H.
  destruct H as (c & E & Hc). exists c. split; [exact Hc | symmetry; exact E].
Qed.

(** The due date of a new case is the second clock reading of the call plus
    the SLA of the priority; the creation time is the first reading. *)
Lemma create_case_times (alert : Alert.t) (env : Env) (p : Proc AMLCaseManager) :
  exists cid c p',
    create_case_from_alert alert env p = (Returned cid, p') /\
    cases (self p') = (cases (self p) ++ [c])%list /\
    Case.case_id c = cid /\
    Case.created_at c = now_at env (clock_reads p) /\
    Case.due_date c =
      (now_at env (S (clock_reads p))
       + timedelta_hours (dict_get sla_hours (Alert.priority alert) 168))%Z.
Proof.
  unfold create_case_from_alert, _calculate_due_date, _log_case_action, bind,
    uuid4, now, get_self, put_self, ret.
  cbn -[dict_get sla_hours timedelta_hours _determine_case_type _auto_assign_case Z.add].
  do 3 eexists. split; [reflexivity |]. cbn [cases self]. repeat split.
Qed.

(** They differ by the SLA exactly when the clock has not advanced between
    the two readings. *)
Lemma due_date_exact_on_still_clock (alert : Alert.t) (env : Env) (p : Proc AMLCaseManager) :
  now_at env (S (clock_reads p)) = now_at env (clock_reads p) ->
  exists cid c p',
    create_case_from_alert alert env p = (Returned cid, p') /\
    cases (self p') = (cases (self p) ++ [c])%list /\
    Case.due_date c =
      (Case.created_at c + timedelta_hours (dict_get sla_hours (Alert.priority alert) 168))%Z.
Proof.
  intros Hstill.
  destruct (create_case_times alert env p) as (cid & c & p' & E & Hc & _ & Hcr & Hdue).
  exists cid, c, p'. repeat split; [exact E | exact Hc |].
  rewrite Hdue, Hcr, Hstill. reflexivity.
Qed.

Lemma sla_hours_table :
  dict_get sla_hours "CRITICAL" 168%Z = 4%Z /\
  dict_get sla_hours "HIGH" 168%Z = 24%Z /\
  dict_get sla_hours "MEDIUM" 168%Z = 72%Z /\
  dict_get sla_hours "LOW" 168%Z = 168%Z /\
  (forall priority, str_in priority ["CRITICAL"; "HIGH"; "MEDIUM"; "LOW"] = false ->
     dict_get sla_hours priority 168%Z = 168%Z).
Proof.
  repeat split. intros priority H. unfold str_in in H. simpl in H. simpl.
  repeat match goal with
         | |- context [String.eqb ?a ?b] => destruct (String.eqb a b); simpl in H
         end; try discriminate; reflexivity.
Qed.

End CaseManagerLemmas.

Section CaseManagerClaims.

Import CaseManager.

(** C3, as amended.  The source has no transition guard: for every case
    whose status is CLOSED, [update_case_status] to any status returns
    normally, overwrites the status of the case with the new one, stamps
    [last_updated], keeps the identifiers of the table and appends one
    STATUS_CHANGED action for the case. *)
Theorem closed_case_update_overwrites (cid new_status notes : string) (env : Env)
    (p : Proc AMLCaseManager) (c : Case.t) :
  In c (cases (self p)) ->
  Case.case_id c = cid ->
  Case.status c = "CLOSED" ->
  exists p' a,
    update_case_status cid new_status notes env p = (Returned tt, p') /\
    map Case.case_id (cases (self p')) = map Case.case_id (cases (self p)) /\
    (forall c', In c' (cases (self p')) -> Case.case_id c' = cid ->
       Case.status c' = new_status /\
       Case.last_updated c' = Some (now_at env (clock_reads p))) /\
    case_actions (self p') = (case_actions (self p) ++ [a])%list /\
    CaseAction.case_id a = cid /\
    CaseAction.action_type a = "STATUS_CHANGED".
Proof.
  intros Hin Hid _.
  destruct (mask_any_known cid (self p) c Hin Hid) as [Hany Hlen].
  do 2 eexists. split; [apply update_case_status_known_eq; assumption |].
  cbn [self cases case_actions].
  split; [| split; [| repeat split]].
  - rewrite !loc_set_ids; reflexivity.
  - intros c' Hc' Hid'.
    apply loc_set_In in Hc'. destruct Hc' as (c1 & Hc1 & ->).
    apply loc_set_In in Hc1. destruct Hc1 as (c0 & _ & ->).
    assert (Hm : forall x, Case.case_id x = cid -> mask cid x = true)
      by (intros x Hx; unfold mask; apply String.eqb_eq; exact Hx).
    destruct (mask cid c0) eqn:M0.
    + rewrite (Hm (Case.set_status new_status c0)) by (apply String.eqb_eq; exact M0).
      split; reflexivity.
    + destruct (mask cid c0) eqn:M1 in Hid'; [congruence |].
      rewrite M0 in *. rewrite (Hm c0 Hid') in M0. discriminate.
Qed.

Lemma closed_state_case :
  exists c,
    In c (cases (self closed_state)) /\ Case.case_id c = "uuid-0" /\
    Case.status c = "CLOSED".
Proof.
  assert (E : exists c, cases (self closed_state) = [c] /\
                        id_status c = ("uuid-0", "CLOSED")).
  { eexists. split; vm_compute; reflexivity. }
  destruct E as (c & E & Hs). exists c.
  split; [rewrite E; left; reflexivity |].
  unfold id_status in Hs. injection Hs as Hid Hst. split; assumption.
Qed.

Lemma closed_case_update_overwrites_witness :
  exists c,
    (In c (cases (self closed_state)) /\ Case.case_id c = "uuid-0" /\
     Case.status c = "CLOSED") /\
    exists p',
      update_case_status "uuid-0" "OPEN" "reopened" demo_env closed_state = (Returned tt, p') /\
      forall c', In c' (cases (self p')) -> Case.case_id c' = "uuid-0" ->
        Case.status c' = "OPEN".
Proof.
  destruct closed_state_case as (c & Hin & Hid & Hst).
  exists c. split; [exact (conj Hin (conj Hid Hst)) |].
  destruct (closed_case_update_overwrites "uuid-0" "OPEN" "reopened" demo_env closed_state c
              Hin Hid Hst) as (p' & a & Hup & _ & Hrows & _).
  exists p'. split; [exact Hup |].
  intros c' Hc' Hid'. exact (proj1 (Hrows c' Hc' Hid')).
Defined.

(** C3, as stated, fails: a case created from an alert and closed with
    [close_case] is moved back to OPEN by [update_case_status]; the call
    returns and the table changes. *)
Lemma closed_case_reopened_by_update :
  map id_status (cases (self closed_state)) = [("uuid-0", "CLOSED")] /\
  exists p',
    update_case_status "uuid-0" "OPEN" "reopened" demo_env closed_state = (Returned tt, p') /\
    fst (update_case_status "uuid-0" "OPEN" "reopened" demo_env closed_state)
      <> Raised InvalidTransitionError /\
    map id_status (cases (self p')) = [("uuid-0", "OPEN")] /\
    cases (self p') <> cases (self closed_state).
Proof.
  split; [vm_compute; reflexivity |].
  eexists. split; [vm_compute; reflexivity |].
  split; [vm_compute; discriminate |].
  split; [vm_compute; reflexivity |].
  vm_compute. discriminate.
Qed.

(** C7, evaluated on the code.  With a clock that advances by one microsecond
    between readings, the case created from a CRITICAL alert has
    [created_at = 0] and [due_date = 1 + 4h]: the due date is computed from a
    second reading of the clock, not from [created_at]. *)
Theorem due_date_uses_second_clock_reading :
  exists cid c p',
    create_case_from_alert critical_alert demo_env start = (Returned cid, p') /\
    cases (self p') = [c] /\
    Case.priority c = "CRITICAL" /\
    Case.created_at c = 0%Z /\
    Case.due_date c = 14400000001%Z /\
    Case.due_date c <> (Case.created_at c + timedelta_hours 4)%Z.
Proof.
  do 3 eexists. split; [vm_compute; reflexivity |].
  split; [reflexivity |]. repeat split. vm_compute. discriminate.
Qed.

(** C8, as amended.  For a [case_id] that is not in the case table,
    [update_case_status] returns normally and changes nothing: not the case
    table, not the action log, not even the identifier and clock counters. *)
Theorem update_unknown_case_is_silent_noop (cid new_status notes : string) (env : Env)
    (p : Proc AMLCaseManager) :
  unknown cid (self p) ->
  exists p',
    update_case_status cid new_status notes env p = (Returned tt, p') /\
    cases (self p') = cases (self p) /\
    case_actions (self p') = case_actions (self p) /\
    p' = p.
Proof.
  intros H. exists p. rewrite (update_case_status_unknown_eq _ _ _ _ _ H).
  repeat split.
Qed.

Lemma uuid0_only_case_of_closed_state : unknown "CASE-404" (self closed_state).
Proof.
  assert (E : map Case.case_id (cases (self closed_state)) = ["uuid-0"])
    by (vm_compute; reflexivity).
  intros c Hc Hid. apply (in_map Case.case_id) in Hc. rewrite E, Hid in Hc.
  destruct Hc as [Hc | []]. discriminate Hc.
Qed.

Lemma update_unknown_case_is_silent_noop_witness :
  unknown "CASE-404" (self closed_state) /\
  update_case_status "CASE-404" "IN_PROGRESS" "Investigation started" demo_env closed_state
    = (Returned tt, closed_state).
Proof.
  split; [exact uuid0_only_case_of_closed_state |].
  destruct (update_unknown_case_is_silent_noop "CASE-404" "IN_PROGRESS" "Investigation started"
              demo_env closed_state uuid0_only_case_of_closed_state) as (p' & E & _ & _ & ->).
  exact E.
Defined.

(** C8, as stated, fails: on an unknown [case_id] the call does not raise
    CaseNotFoundError, it returns. *)
Lemma update_unknown_case_does_not_raise :
  unknown "CASE-404" (self start) /\
  update_case_status "CASE-404" "IN_PROGRESS" "Investigation started" demo_env start
    = (Returned tt, start) /\
  fst (update_case_status "CASE-404" "IN_PROGRESS" "Investigation started" demo_env start)
    <> Raised CaseNotFoundError.
Proof.
  split; [intros c [] |]. split; [reflexivity | discriminate].
Qed.

Lemma audit_trail_ok_init : audit_trail_ok __init__.
Proof.
  split.
  - intros c [].
  - intros before a after E. destruct before; discriminate E.
Qed.

Lemma earliest_In (l : list CaseAction.t) (a : CaseAction.t) :
  earliest l = Some a -> In a l.
Proof.
  revert a. induction l as [| x l IH]; intros a; simpl; [discriminate |].
  destruct (earliest l) as [b |].
  - destruct (CaseAction.timestamp x <=? CaseAction.timestamp b)%Z;
      intros [= <-]; [left; reflexivity | right; apply IH; reflexivity].
  - intros [= <-]. left. reflexivity.
Qed.

(** An action stamped no earlier than all recorded ones does not become the
    earliest when appended to a log that is not empty. *)
Lemma earliest_snoc (l : list CaseAction.t) (a x : CaseAction.t) :
  earliest l = Some a ->
  (forall b, In b l -> (CaseAction.timestamp b <= CaseAction.timestamp x)%Z) ->
  earliest (l ++ [x]) = Some a.
Proof.
  revert a. induction l as [| y l IH]; intros a; simpl; [discriminate |].
  intros E Hle.
  destruct (earliest l) as [b |] eqn:El.
  - rewrite (IH b eq_refl (fun c Hc => Hle c (or_intror Hc))). exact E.
  - destruct l as [| z l']; [| simpl in El; destruct (earliest l'); [destruct (_ <=? _)%Z |];
                                discriminate El].
    simpl. injection E as <-.
    pose proof (Hle y (or_introl eq_refl)) as Hy.
    apply Z.leb_le in Hy. rewrite Hy. reflexivity.
Qed.

Lemma actions_of_snoc (cid : string) (log : list CaseAction.t) (x : CaseAction.t) :
  actions_of cid (log ++ [x]) =
  (actions_of cid log ++
   (if String.eqb (CaseAction.case_id x) cid then [x] else []))%list.
Proof. unfold actions_of. rewrite filter_app. reflexivity. Qed.

Lemma actions_of_In (cid : string) (log : list CaseAction.t) (a : CaseAction.t) :
  In a (actions_of cid log) -> In a log /\ CaseAction.case_id a = cid.
Proof.
  unfold actions_of. intros H. apply filter_In in H. destruct H as [H E].
  split; [exact H | apply String.eqb_eq; exact E].
Qed.

(** Appending an action stamped no earlier than the recorded ones keeps the
    audit trail in order when the action is for a case of the table or is the
    CASE_CREATED action of an identifier that has no action yet; the rows of
    the table may change as long as each carries the identifier of an old
    row or that new identifier. *)
Lemma audit_trail_ok_snoc (m : AMLCaseManager) (cs' : list Case.t) (x : CaseAction.t) :
  audit_trail_ok m ->
  (forall b, In b (case_actions m) ->
     (CaseAction.timestamp b <= CaseAction.timestamp x)%Z) ->
  (forall c', In c' cs' ->
     (exists c, In c (cases m) /\ Case.case_id c = Case.case_id c') \/
     (Case.case_id c' = CaseAction.case_id x /\
      CaseAction.action_type x = "CASE_CREATED" /\
      actions_of (CaseAction.case_id x) (case_actions m) = [])) ->
  (CaseAction.action_type x = "CASE_CREATED" \/
   exists c, In c (cases m) /\ Case.case_id c = CaseAction.case_id x) ->
  audit_trail_ok {| cases := cs'; case_actions := (case_actions m ++ [x])%list |}.
Proof.
  intros [Hfirst Hprior] Hlate Hrows Hx. split; cbn [cases case_actions].
  - intros c' Hc'. rewrite actions_of_snoc.
    destruct (Hrows c' Hc') as [(c0 & Hc0 & E0) | (Eid & Hty & Hnone)].
    + destruct (Hfirst c0 Hc0) as (a & Ha & Hty). rewrite E0 in Ha.
      exists a. split; [| exact Hty].
      destruct (String.eqb (CaseAction.case_id x) (Case.case_id c')).
      * apply earliest_snoc; [exact Ha |].
        intros b Hb. apply actions_of_In in Hb. apply Hlate, Hb.
      * rewrite app_nil_r. exact Ha.
    + exists x. rewrite Eid, Hnone, String.eqb_refl. split; [reflexivity | exact Hty].
  - intros before a after E Hty.
    destruct after as [| y after'] using rev_ind.
    + apply app_inj_tail in E. destruct E as [<- <-].
      destruct Hx as [Hx | (c & Hc & Hid)]; [contradiction |].
      destruct (Hfirst c Hc) as (b & Hb & Hbty).
      apply earliest_In, actions_of_In in Hb. destruct Hb as [Hb Hbid].
      exists b. repeat split; [exact Hb | congruence | exact Hbty].
    + clear IHafter'.
      change (before ++ a :: after' ++ [y])%list
        with (before ++ (a :: after') ++ [y])%list in E.
      rewrite app_assoc in E. apply app_inj_tail in E. destruct E as [E _].
      exact (Hprior before a after' E Hty).
Qed.

Lemma same_ids_rows (cs cs' : list Case.t) :
  map Case.case_id cs' = map Case.case_id cs ->
  forall c', In c' cs' -> exists c, In c cs /\ Case.case_id c = Case.case_id c'.
Proof.
  intros Hids c' Hc'.
  apply (in_map Case.case_id) in Hc'. rewrite Hids in Hc'.
  apply in_map_iff in Hc'. destruct Hc' as (c & E & Hc). exists c. auto.
Qed.

(** The guarded operations keep the audit trail in order, on a clock that
    does not run backwards. *)
Lemma update_case_status_keeps_audit_order (cid new_status notes : string) (env : Env)
    (p : Proc AMLCaseManager) (c : Case.t) :
  audit_trail_ok (self p) ->
  In c (cases (self p)) -> Case.case_id c = cid ->
  (forall b, In b (case_actions (self p)) ->
     (CaseAction.timestamp b <= now_at env (S (clock_reads p)))%Z) ->
  exists p',
    update_case_status cid new_status notes env p = (Returned tt, p') /\
    audit_trail_ok (self p').
Proof.
  intros Hok Hin Hid Hclock.
  destruct (mask_any_known cid (self p) c Hin Hid) as [Hany Hlen].
  eexists. split; [apply update_case_status_known_eq; assumption |].
  cbn [self].
  apply (audit_trail_ok_snoc (self p)); cbn [CaseAction.timestamp CaseAction.case_id]; auto.
  - intros c' Hc'. left. revert c' Hc'. apply same_ids_rows.
    rewrite !loc_set_ids; reflexivity.
  - right. exists c. auto.
Qed.

Lemma assign_case_keeps_audit_order (cid analyst_name : string) (env : Env)
    (p : Proc AMLCaseManager) (c : Case.t) :
  audit_trail_ok (self p) ->
  In c (cases (self p)) -> Case.case_id c = cid ->
  (forall b, In b (case_actions (self p)) ->
     (CaseAction.timestamp b <= now_at env (S (clock_reads p)))%Z) ->
  exists p',
    assign_case cid analyst_name env p = (Returned tt, p') /\
    audit_trail_ok (self p').
Proof.
  intros Hok Hin Hid Hclock.
  destruct (mask_any_known cid (self p) c Hin Hid) as [Hany Hlen].
  unfold assign_case, bind at 1, get_self. rewrite Hany, Hlen.
  unfold bind, set_cases, _log_case_action, bind, uuid4, now, get_self, put_self.
  cbn -[loc_set String.append].
  eexists. split; [reflexivity |]. cbn [self].
  apply (audit_trail_ok_snoc (self p)); cbn [CaseAction.timestamp CaseAction.case_id]; auto.
  - intros c' Hc'. left. revert c' Hc'. apply same_ids_rows.
    rewrite !loc_set_ids; reflexivity.
  - right. exists c. auto.
Qed.

(** So does the creation of a case, when the identifier drawn for it has no
    action in the log yet. *)
Lemma create_case_keeps_audit_order (alert : Alert.t) (env : Env) (p : Proc AMLCaseManager) :
  audit_trail_ok (self p) ->
  actions_of (uuid4_at env (uuid_draws p)) (case_actions (self p)) = [] ->
  (forall b, In b (case_actions (self p)) ->
     (CaseAction.timestamp b <= now_at env (S (S (clock_reads p))))%Z) ->
  exists cid p',
    create_case_from_alert alert env p = (Returned cid, p') /\
    cid = uuid4_at env (uuid_draws p) /\
    audit_trail_ok (self p').
Proof.
  intros Hok Hfresh Hclock.
  unfold create_case_from_alert, _calculate_due_date, _log_case_action, bind,
    uuid4, now, get_self, put_self, ret.
  cbn -[dict_get sla_hours timedelta_hours _determine_case_type _auto_assign_case Z.add].
  do 2 eexists. split; [reflexivity |]. split; [reflexivity |].
  apply (audit_trail_ok_snoc (self p)); cbn [CaseAction.timestamp CaseAction.case_id
    CaseAction.action_type]; auto.
  intros c' Hc'. apply in_app_or in Hc'. destruct Hc' as [Hc' | [<- | []]].
  - left. exists c'. auto.
  - right. cbn [Case.case_id]. auto.
Qed.

(** C10.  For every [case_id], known or not, [add_case_notes] returns
    normally, leaves the case table as it is and appends one NOTES_ADDED
    action carrying that [case_id], the notes and the analyst; and for every
    [case_id] that is not in the case table, [close_case] returns normally,
    leaves the case table as it is and appends one CASE_CLOSED action for
    that [case_id]. *)
Theorem notes_and_close_log_without_case :
  (forall (cid notes analyst : string) (env : Env) (p : Proc AMLCaseManager),
     exists p' a,
       add_case_notes cid notes analyst env p = (Returned tt, p') /\
       cases (self p') = cases (self p) /\
       case_actions (self p') = (case_actions (self p) ++ [a])%list /\
       CaseAction.case_id a = cid /\
       CaseAction.action_type a = "NOTES_ADDED" /\
       CaseAction.description a = notes /\
       CaseAction.analyst_name a = analyst) /\
  (forall (cid resolution analyst : string) (env : Env) (p : Proc AMLCaseManager),
     unknown cid (self p) ->
     exists p' a,
       close_case cid resolution analyst env p = (Returned tt, p') /\
       cases (self p') = cases (self p) /\
       case_actions (self p') = (case_actions (self p) ++ [a])%list /\
       CaseAction.case_id a = cid /\
       CaseAction.action_type a = "CASE_CLOSED" /\
       CaseAction.analyst_name a = analyst).
Proof.
  split.
  - intros cid notes analyst env p.
    do 2 eexists. split; [apply log_case_action_eq |].
    repeat split.
  - intros cid resolution analyst env p Hunk.
    pose proof (mask_any_unknown _ _ Hunk) as Hmask.
    unfold close_case. unfold bind at 1.
    rewrite (update_case_status_unknown_eq _ _ _ _ _ Hunk).
    unfold bind at 1. rewrite log_case_action_eq.
    unfold bind, get_self. cbn [self cases case_actions].
    rewrite Hmask.
    destruct (0 <? length (cases (self p)))%nat;
      (do 2 eexists; split; [reflexivity |]; repeat split).
Qed.

Lemma notes_and_close_log_without_case_witness :
  unknown "CASE-404" (self closed_state) /\
  exists p' a,
    close_case "CASE-404" "Duplicate" "AML_Analyst_2" demo_env closed_state
      = (Returned tt, p') /\
    cases (self p') = cases (self closed_state) /\
    case_actions (self p') = (case_actions (self closed_state) ++ [a])%list /\
    CaseAction.action_type a = "CASE_CLOSED".
Proof.
  split; [exact uuid0_only_case_of_closed_state |].
  destruct (proj2 notes_and_close_log_without_case "CASE-404" "Duplicate" "AML_Analyst_2"
              demo_env closed_state uuid0_only_case_of_closed_state)
    as (p' & a & E & Hc & Hl & _ & Ht & _).
  exists p', a. repeat split; assumption.
Defined.

End CaseManagerClaims.

(** * More about the scoring engine *)

Section TypeScoreAsMean.

Import RiskEngine Portfolio.

Lemma Qnat_S (n : nat) : Qnat (S n) == Qnat n + 1.
Proof.
  unfold Qnat. rewrite Nat2Z.inj_succ, <- Z.add_1_r, inject_Z_plus. reflexivity.
Qed.

Lemma fold_share_weight (n : nat) (items : list (string * nat)) (acc : Q) :
  fold_left (add_type_share n) items acc == acc + table_weight items / Qnat n.
Proof.
  revert acc. induction items as [| e items IH]; intros acc; simpl.
  - unfold Qdiv. ring.
  - rewrite IH. unfold add_type_share, type_score_of, Qdiv. ring.
Qed.

Lemma table_weight_insert (e : string * nat) (l : list (string * nat)) :
  table_weight (insert_desc e l) == table_weight (e :: l).
Proof.
  induction l as [| e' l IH]; simpl; [reflexivity |].
  destruct (snd e' <? snd e)%nat; simpl; [reflexivity |].
  rewrite IH. simpl. ring.
Qed.

Lemma table_weight_sorted (items acc : list (string * nat)) :
  table_weight (fold_left (fun a e => insert_desc e a) items acc)
  == table_weight items + table_weight acc.
Proof.
  revert acc. induction items as [| e items IH]; intros acc; simpl.
  - ring.
  - rewrite IH, table_weight_insert. simpl. ring.
Qed.

Lemma table_weight_bump (k : string) (acc : list (string * nat)) :
  table_weight (bump k acc) == table_weight acc + type_score_of k.
Proof.
  induction acc as [| [k' c] acc IH]; simpl.
  - unfold Qnat. simpl. ring.
  - destruct (String.eqb_spec k k') as [-> | _]; simpl.
    + rewrite Qnat_S. ring.
    + rewrite IH. ring.
Qed.

Lemma table_weight_tally (xs : list string) (acc : list (string * nat)) :
  table_weight (fold_left (fun a k => bump k a) xs acc) == table_weight acc + score_sum xs.
Proof.
  revert acc. induction xs as [| x xs IH]; intros acc; cbn [fold_left].
  - unfold score_sum. simpl. ring.
  - rewrite IH, table_weight_bump.
    change (score_sum (x :: xs)) with (type_score_of x + score_sum xs). ring.
Qed.

Lemma value_counts_weight (xs : list string) :
  table_weight (value_counts xs) == score_sum xs.
Proof.
  unfold value_counts, tally.
  rewrite table_weight_sorted, table_weight_tally. simpl. ring.
Qed.

Lemma type_score_of_range (t : string) : 10 <= type_score_of t /\ type_score_of t <= 85.
Proof.
  unfold type_score_of, tx_type_scores. simpl.
  repeat match goal with |- context [if ?b then _ else _] => destruct b end; lra.
Qed.

Lemma score_sum_range (xs : list string) :
  10 * Qnat (length xs) <= score_sum xs /\ score_sum xs <= 85 * Qnat (length xs).
Proof.
  induction xs as [| x xs [Lo Hi]].
  - unfold Qnat, score_sum. simpl. change (inject_Z 0) with 0. lra.
  - change (score_sum (x :: xs)) with (type_score_of x + score_sum xs).
    cbn [length]. rewrite Qnat_S. pose proof (type_score_of_range x) as [L U]. lra.
Qed.

Lemma Qnat_pos (n : nat) : (0 < n)%nat -> 0 < Qnat n.
Proof. intros H. unfold Qnat, Qlt. simpl. lia. Qed.

Lemma Qdiv_bounds (a lo hi n : Q) :
  0 < n -> lo * n <= a -> a <= hi * n -> lo <= a / n /\ a / n <= hi.
Proof.
  intros Hn Hlo Hhi. split.
  - apply Qle_shift_div_l; assumption.
  - apply Qle_shift_div_r; assumption.
Qed.

Lemma type_score_mean (df : DataFrame) :
  str_in "type" (columns df) = true ->
  rows df <> [] ->
  calculate_transaction_type_score df == score_sum (map type (rows df)) / Qnat (len df) /\
  10 <= calculate_transaction_type_score df <= 85.
Proof.
  intros Hcol Hrows.
  assert (Hn : 0 < Qnat (len df)).
  { apply Qnat_pos. unfold len. destruct (rows df); [congruence | simpl; lia]. }
  pose proof (score_sum_range (map type (rows df))) as [Lo Hi].
  rewrite length_map in Lo, Hi. fold (len df) in Lo, Hi.
  destruct (Qdiv_bounds _ 10 85 _ Hn Lo Hi) as [Lo' Hi'].
  assert (E : fold_left (add_type_share (len df)) (value_counts (map type (rows df))) 0
              == score_sum (map type (rows df)) / Qnat (len df)).
  { rewrite fold_share_weight, value_counts_weight. ring. }
  unfold calculate_transaction_type_score. rewrite Hcol. cbn [negb]. cbv zeta.
  unfold py_min.
  destruct (Qgeb 100 _) eqn:G.
  - split; [exact E | rewrite E; split; assumption].
  - apply Qgeb_false in G. rewrite E in G. lra.
Qed.

End TypeScoreAsMean.

Section ScoreCeiling.

Import RiskEngine Portfolio.

Lemma score_sum_cash_out (rs : list Transaction) :
  score_sum (map type rs)
  <= 85 * Qnat (length rs) - 25 * Qnat (count_true is_cash_out rs).
Proof.
  induction rs as [| t rs IH].
  - unfold score_sum, count_true, Qnat. simpl. change (inject_Z 0) with 0. lra.
  - cbn [map length].
    change (score_sum (type t :: map type rs))
      with (type_score_of (type t) + score_sum (map type rs)).
    unfold count_true in *. cbn [filter]. unfold is_cash_out at 1.
    destruct (String.eqb_spec (type t) "CASH_OUT") as [E | _].
    + cbn [length]. rewrite !Qnat_S, E.
      change (type_score_of "CASH_OUT") with 60. lra.
    + rewrite Qnat_S. pose proof (type_score_of_range (type t)) as [_ U]. lra.
Qed.

Lemma Qnat_lt_scaled (a : Z) (k n : nat) :
  (a * Z.of_nat k < Z.of_nat n)%Z -> inject_Z a * Qnat k < Qnat n.
Proof. intros H. unfold Qnat, Qlt. simpl. lia. Qed.

Lemma count_true_le {A : Type} (f : A -> bool) (xs : list A) :
  (count_true f xs <= length xs)%nat.
Proof. unfold count_true. apply filter_length_le. Qed.

(** The type score and the cash-out share of a frame with rows and a [type]
    column: the more cash-outs, the lower the ceiling of the type score. *)
Lemma type_score_vs_cash_share (df : DataFrame) :
  str_in "type" (columns df) = true ->
  rows df <> [] ->
  calculate_transaction_type_score df
  <= 85 - 25 * (Qnat (count_true is_cash_out (rows df)) / Qnat (len df)).
Proof.
  intros Hcol Hrows.
  destruct (type_score_mean df Hcol Hrows) as [E _].
  assert (Hn : 0 < Qnat (len df)).
  { apply Qnat_pos. unfold len. destruct (rows df); [congruence | simpl; lia]. }
  rewrite E. apply Qle_shift_div_r; [exact Hn |].
  pose proof (score_sum_cash_out (rows df)) as H. fold (len df) in H.
  assert (F : (85 - 25 * (Qnat (count_true is_cash_out (rows df)) / Qnat (len df)))
              * Qnat (len df)
              == 85 * Qnat (len df) - 25 * Qnat (count_true is_cash_out (rows df))).
  { field. intros Z0. rewrite Z0 in Hn. lra. }
  rewrite F. exact H.
Qed.

Lemma type_and_cash_ceiling (df : DataFrame) :
  0.25 * calculate_transaction_type_score df + 0.10 * calculate_cash_pattern_score df
  <= 24.25.
Proof.
  destruct (str_in "type" (columns df)) eqn:Hcol.
  - destruct (rows df) as [| t rs] eqn:Hrows.
    + unfold calculate_transaction_type_score, calculate_cash_pattern_score, len.
      rewrite Hcol, Hrows. vm_compute. discriminate.
    + assert (Hne : rows df <> []) by (rewrite Hrows; discriminate).
      pose proof (type_score_vs_cash_share df Hcol Hne) as Hty.
      pose proof (proportion_nonneg (count_true is_cash_out (rows df)) (len df)) as Hr.
      unfold calculate_cash_pattern_score. rewrite Hcol. cbn [negb orb].
      assert (Hlen : (len df =? 0)%nat = false).
      { unfold len. rewrite Hrows. reflexivity. }
      assert (Hpos : (0 <? len df)%nat = true).
      { unfold len. rewrite Hrows. reflexivity. }
      rewrite Hlen, Hpos. cbv zeta.
      change (count_true (fun t0 => String.eqb (type t0) "CASH_OUT") (rows df))
        with (count_true is_cash_out (rows df)).
      destruct (Qgeb _ 0.8) eqn:G8; [apply Qgeb_true in G8; lra |].
      destruct (Qgeb _ 0.5) eqn:G5; [apply Qgeb_true in G5; lra |].
      destruct (Qgeb _ 0.2) eqn:G2; [apply Qgeb_true in G2; lra |].
      lra.
  - unfold calculate_transaction_type_score, calculate_cash_pattern_score.
    rewrite Hcol. cbn [negb orb]. lra.
Qed.

Lemma py_round2_le (x : Q) (b : Z) :
  0 <= x -> x <= b # 100 -> py_round2 x <= b # 100.
Proof.
  intros H0 Hb.
  destruct (round_half_even_bounds (x * 100) 0 b) as [_ U].
  - change (inject_Z 0) with 0. lra.
  - assert (E : inject_Z b == (b # 100) * 100).
    { unfold Qeq, inject_Z. simpl. lia. }
    rewrite E. lra.
  - unfold py_round2, Qle. simpl. lia.
Qed.

Lemma weighted_total_ceiling (df : DataFrame) : weighted_total df <= 86.25.
Proof.
  pose proof (type_and_cash_ceiling df) as Htc.
  pose proof (amount_score_range df) as [_ Ha].
  pose proof (fraud_score_range df) as [_ Hf].
  unfold weighted_total, weights. simpl. lra.
Qed.

(** X2.  No transaction set scores above 86.25: the weighted total and the
    returned score are at most 86.25 for every frame, and a frame of four
    CASH_OUT and one TRANSFER with three frauds and one amount above the
    95th-percentile threshold reaches it. *)
Theorem risk_score_never_above_86_25 :
  (forall df : DataFrame,
     weighted_total df <= 86.25 /\
     exists r, calculate_customer_risk_score df = Returned r /\
               RiskEngine.total_score r <= 86.25) /\
  (exists r, calculate_customer_risk_score top_frame = Returned r /\
             RiskEngine.total_score r == 86.25 /\ RiskEngine.risk_category r = "CRITICAL").
Proof.
  split.
  - intros df.
    pose proof (weighted_total_ceiling df) as H.
    split; [exact H |].
    eexists. split; [reflexivity |].
    change (RiskEngine.total_score _) with (py_round2 (weighted_total df)).
    apply (py_round2_le _ 8625); [apply weighted_total_range | exact H].
  - eexists. split; [reflexivity |]. split; vm_compute; reflexivity.
Qed.

(** X3.  A customer whose CASH_OUT transactions are fewer than one in five
    is never CRITICAL: the weighted total is at most 84.25. *)
Theorem few_cash_outs_never_critical (df : DataFrame) :
  (5 * count_true is_cash_out (rows df) < len df)%nat ->
  weighted_total df <= 84.25 /\
  exists r, calculate_customer_risk_score df = Returned r /\
            RiskEngine.risk_category r <> "CRITICAL".
Proof.
  intros Hfew.
  assert (Hlen : (0 < len df)%nat) by lia.
  assert (Hne : rows df <> []).
  { intros E. unfold len in Hlen. rewrite E in Hlen. simpl in Hlen. lia. }
  assert (Hcash : calculate_cash_pattern_score df <= 10).
  { unfold calculate_cash_pattern_score.
    destruct (negb _ || _); [lra |]. cbv zeta.
    apply Nat.ltb_lt in Hlen. rewrite Hlen.
    change (count_true (fun t0 => String.eqb (type t0) "CASH_OUT") (rows df))
      with (count_true is_cash_out (rows df)).
    assert (Hr : Qnat (count_true is_cash_out (rows df)) / Qnat (len df) < 0.2).
    { apply Qlt_shift_div_r; [apply Qnat_pos, Nat.ltb_lt, Hlen |].
      pose proof (Qnat_lt_scaled 5 (count_true is_cash_out (rows df)) (len df)
                    ltac:(lia)) as H5.
      change (inject_Z 5) with 5 in H5. lra. }
    destruct (Qgeb _ 0.8) eqn:G8; [apply Qgeb_true in G8; lra |].
    destruct (Qgeb _ 0.5) eqn:G5; [apply Qgeb_true in G5; lra |].
    destruct (Qgeb _ 0.2) eqn:G2; [apply Qgeb_true in G2; lra |].
    lra. }
  assert (Hty : calculate_transaction_type_score df <= 85).
  { destruct (str_in "type" (columns df)) eqn:Hcol.
    - apply (type_score_mean df Hcol Hne).
    - unfold calculate_transaction_type_score. rewrite Hcol. cbn [negb]. lra. }
  assert (H : weighted_total df <= 84.25).
  { pose proof (amount_score_range df) as [_ Ha].
    pose proof (fraud_score_range df) as [_ Hf].
    unfold weighted_total, weights. simpl. lra. }
  split; [exact H |].
  eexists. split; [reflexivity |].
  change (RiskEngine.risk_category _) with (get_risk_category (weighted_total df)).
  unfold get_risk_category, thresholds. cbn [high_risk medium_risk low_risk].
  assert (G : Qgeb (weighted_total df) 85 = false) by (apply Qgeb_false; lra).
  rewrite G.
  destruct (Qgeb _ 60); [discriminate |]. destruct (Qgeb _ 30); discriminate.
Qed.

Lemma few_cash_outs_never_critical_witness :
  (5 * count_true is_cash_out (rows (select small_book "C3"))
   < len (select small_book "C3"))%nat /\
  weighted_total (select small_book "C3") <= 84.25.
Proof.
  assert (H : (5 * count_true is_cash_out (rows (select small_book "C3"))
               < len (select small_book "C3"))%nat)
    by (vm_compute; lia).
  split; [exact H |].
  exact (proj1 (few_cash_outs_never_critical (select small_book "C3") H)).
Defined.

End ScoreCeiling.

Section AmountAndFraudSteps.

Import RiskEngine Portfolio.

Lemma Qgeb_comp (a a' b b' : Q) : a == a' -> b == b' -> Qgeb a b = Qgeb a' b'.
Proof.
  intros Ea Eb.
  destruct (Qgeb a b) eqn:G.
  - symmetry. apply Qgeb_true. apply Qgeb_true in G. rewrite <- Ea, <- Eb. exact G.
  - symmetry. apply Qgeb_false. apply Qgeb_false in G. rewrite <- Ea, <- Eb. exact G.
Qed.

Lemma fold_max_geb (t : Q) (xs : list Q) (m : Q) :
  Qgeb (fold_left (fun m y => if Qgeb m y then m else y) xs m) t
  = Qgeb m t || existsb (fun x => Qgeb x t) xs.
Proof.
  revert m. induction xs as [| y xs IH]; intros m; cbn [fold_left existsb].
  - rewrite orb_false_r. reflexivity.
  - rewrite IH, orb_assoc. f_equal.
    destruct (Qgeb m y) eqn:My.
    + apply Qgeb_true in My.
      destruct (Qgeb y t) eqn:Yt; [| rewrite orb_false_r; reflexivity].
      apply Qgeb_true in Yt. rewrite orb_true_r. apply Qgeb_true. lra.
    + apply Qgeb_false in My.
      destruct (Qgeb m t) eqn:Mt; [| reflexivity].
      apply Qgeb_true in Mt. cbn [orb]. apply Qgeb_true. lra.
Qed.

(** The largest amount reaches a threshold exactly when some amount does. *)
Lemma series_max_geb (t : Q) (xs : list Q) :
  xs <> [] -> Qgeb (series_max xs) t = existsb (fun x => Qgeb x t) xs.
Proof.
  destruct xs as [| x xs]; [congruence | intros _].
  unfold series_max. rewrite fold_max_geb. reflexivity.
Qed.

Lemma existsb_amount (t : Q) (rs : list Transaction) :
  existsb (fun x => Qgeb x t) (map amount rs) = true <->
  exists r, In r rs /\ t <= amount r.
Proof.
  rewrite existsb_exists. split.
  - intros (x & Hx & G). apply in_map_iff in Hx. destruct Hx as (r & <- & Hr).
    exists r. split; [exact Hr | apply Qgeb_true, G].
  - intros (r & Hr & G). exists (amount r). split; [apply in_map, Hr | apply Qgeb_true, G].
Qed.

(** X4.  For a frame with the [amount] column and at least one row, the
    amount score is 90 exactly when some transaction reaches 578381.88, and
    60 exactly when none does but some transaction reaches 100000; below
    that it is 30 or 10. *)
Theorem amount_score_by_largest_transaction (df : DataFrame) :
  str_in "amount" (columns df) = true ->
  rows df <> [] ->
  (calculate_amount_risk_score df = 90 <->
     exists t, In t (rows df) /\ 578381.88 <= amount t) /\
  (calculate_amount_risk_score df = 60 <->
     (forall t, In t (rows df) -> amount t < 578381.88) /\
     exists t, In t (rows df) /\ 100000 <= amount t) /\
  ((forall t, In t (rows df) -> amount t < 100000) ->
     calculate_amount_risk_score df = 30 \/ calculate_amount_risk_score df = 10).
Proof.
  intros Hcol Hrows.
  assert (Hne : map amount (rows df) <> []).
  { destruct (rows df); [congruence | discriminate]. }
  assert (Hlen : (len df =? 0)%nat = false).
  { unfold len. destruct (rows df); [congruence | reflexivity]. }
  unfold calculate_amount_risk_score. rewrite Hcol, Hlen. cbn [negb orb]. cbv zeta.
  unfold thresholds. cbn [high_amount medium_amount].
  rewrite !(series_max_geb _ _ Hne).
  pose proof (existsb_amount 578381.88 (rows df)) as Hhi.
  pose proof (existsb_amount 100000 (rows df)) as Hmed.
  destruct (existsb (fun x => Qgeb x 578381.88) (map amount (rows df))) eqn:Ehi.
  - destruct (proj1 Hhi eq_refl) as (t & Ht & Gt).
    split; [split; [intros _; exists t; auto | reflexivity] |].
    split.
    + split; [discriminate |]. intros [Hall _]. specialize (Hall t Ht). lra.
    + intros Hall. specialize (Hall t Ht). lra.
  - assert (Hnone : forall t, In t (rows df) -> amount t < 578381.88).
    { intros t Ht. apply Qnot_le_lt. intros G.
      assert (X : false = true) by (apply Hhi; exists t; auto). discriminate X. }
    destruct (existsb (fun x => Qgeb x 100000) (map amount (rows df))) eqn:Emed.
    + destruct (proj1 Hmed eq_refl) as (t & Ht & Gt).
      split; [split; [discriminate | intros (u & Hu & Gu); specialize (Hnone u Hu); lra] |].
      split; [split; [intros _; split; [exact Hnone | exists t; auto] | reflexivity] |].
      intros Hall. specialize (Hall t Ht). lra.
    + assert (Hsmall : ~ exists t, In t (rows df) /\ 100000 <= amount t).
      { intros H. apply Hmed in H. discriminate H. }
      destruct (Qgeb _ 50000);
        (split; [split; [discriminate | intros (u & Hu & Gu); specialize (Hnone u Hu); lra] |];
         split; [split; [discriminate | intros [_ H]; destruct (Hsmall H)] |]; auto).
Qed.

Lemma amount_score_by_largest_transaction_witness :
  calculate_amount_risk_score borderline_frame = 90 <->
  exists t, In t (rows borderline_frame) /\ 578381.88 <= amount t.
Proof.
  exact (proj1 (amount_score_by_largest_transaction borderline_frame eq_refl
                  borderline_frame_nonempty)).
Defined.

(** A share of [k] in [n] reaches the fraction [a / b] exactly when
    [a * n <= b * k]. *)
Lemma rate_geb (k n : nat) (a : Z) (b : positive) :
  (0 < n)%nat ->
  (Qgeb (Qnat k / Qnat n) (a # b) = true <->
   (a * Z.of_nat n <= Z.pos b * Z.of_nat k)%Z).
Proof.
  intros Hn. pose proof (Qnat_pos n Hn) as Hq.
  rewrite Qgeb_true. split; intros H.
  - assert (H' : (a # b) * Qnat n <= Qnat k).
    { apply (Qmult_le_compat_r _ _ (Qnat n)) in H; [| lra].
      assert (E : Qnat k / Qnat n * Qnat n == Qnat k)
        by (field; intros Z0; rewrite Z0 in Hq; lra).
      rewrite E in H. exact H. }
    unfold Qnat, Qle in H'. simpl in H'. lia.
  - apply Qle_shift_div_l; [exact Hq |].
    unfold Qnat, Qle. simpl. lia.
Qed.

(** X5.  For a frame with the [isFraud] column and at least one row, the
    fraud score in terms of the number [k] of fraudulent rows among [n]:
    0 exactly when there is none, 100 exactly when they are at least half,
    80 exactly when they are at least a tenth but less than half, 60
    exactly when there is one but they are less than a tenth. *)
Theorem fraud_score_by_fraud_count (df : DataFrame) :
  str_in "isFraud" (columns df) = true ->
  rows df <> [] ->
  let k := count_true isFraud (rows df) in
  let n := len df in
  (calculate_fraud_history_score df = 0 <-> k = 0%nat) /\
  (calculate_fraud_history_score df = 100 <-> (n <= 2 * k)%nat) /\
  (calculate_fraud_history_score df = 80 <-> (2 * k < n /\ n <= 10 * k)%nat) /\
  (calculate_fraud_history_score df = 60 <-> (0 < k /\ 10 * k < n)%nat).
Proof.
  intros Hcol Hrows k n.
  assert (Hn : (0 < n)%nat).
  { unfold n, len. destruct (rows df); [congruence | simpl; lia]. }
  assert (Hlen : (len df =? 0)%nat = false) by (apply Nat.eqb_neq; fold n; lia).
  assert (Hpos : (0 <? len df)%nat = true) by (apply Nat.ltb_lt; exact Hn).
  unfold calculate_fraud_history_score. rewrite Hcol, Hlen, Hpos.
  cbn [negb orb]. cbv zeta. fold k n.
  pose proof (rate_geb k n 5 10 Hn) as H50.
  pose proof (rate_geb k n 1 10 Hn) as H10.
  change (5 # 10) with 0.5 in H50. change (1 # 10) with 0.1 in H10.
  destruct (Qgeb (Qnat k / Qnat n) 0.5) eqn:G50.
  - assert (A : (5 * Z.of_nat n <= 10 * Z.of_nat k)%Z) by (apply H50; reflexivity).
    repeat split; intros; try discriminate; lia.
  - assert (A : ~ (5 * Z.of_nat n <= 10 * Z.of_nat k)%Z)
      by (intros X; apply H50 in X; discriminate X).
    destruct (Qgeb (Qnat k / Qnat n) 0.1) eqn:G10.
    + assert (B : (1 * Z.of_nat n <= 10 * Z.of_nat k)%Z) by (apply H10; reflexivity).
      repeat split; intros; try discriminate; lia.
    + assert (B : ~ (1 * Z.of_nat n <= 10 * Z.of_nat k)%Z)
        by (intros X; apply H10 in X; discriminate X).
      destruct (0 <? k)%nat eqn:K.
      * apply Nat.ltb_lt in K. repeat split; intros; try discriminate; lia.
      * apply Nat.ltb_ge in K. repeat split; intros; try discriminate; lia.
Qed.

Lemma fraud_score_by_fraud_count_witness :
  calculate_fraud_history_score borderline_frame = 60 <->
  (0 < count_true isFraud (rows borderline_frame) /\
   10 * count_true isFraud (rows borderline_frame) < len borderline_frame)%nat.
Proof.
  exact (proj2 (proj2 (proj2 (fraud_score_by_fraud_count borderline_frame eq_refl
                                borderline_frame_nonempty)))).
Defined.

End AmountAndFraudSteps.


(** * The portfolio loop *)

Section PortfolioProperties.

Import RiskEngine Portfolio.












(** X8.  The portfolio loop is stricter about columns than the scoring of
    one customer.  Without the [nameOrig] column it raises KeyError at once,
    even on an empty table; with [nameOrig] but without [amount] it raises
    KeyError as soon as there is one transaction, although
    [calculate_customer_risk_score] returns on such a frame with a zero
    amount component; and on a table without rows it returns the empty table
    whether or not [amount] is there. *)
Theorem portfolio_requires_name_and_amount_columns (df : DataFrame) :
  (str_in "nameOrig" (columns df) = false ->
     score_customer_portfolio df = KeyError "nameOrig") /\
  (str_in "nameOrig" (columns df) = true ->
   str_in "amount" (columns df) = false ->
   rows df <> [] ->
     score_customer_portfolio df = KeyError "amount" /\
     exists r, calculate_customer_risk_score df = Returned r /\
               c_amount_risk (RiskEngine.components r) == 0) /\
  (str_in "nameOrig" (columns df) = true ->
   rows df = [] ->
     score_customer_portfolio df = Scored []).
Proof.
  unfold score_customer_portfolio. repeat split.
  - intros ->. reflexivity.
  - rewrite H. cbn [negb]. cbv zeta.
    destruct (rows df) as [| t rs]; [congruence |].
    cbn [map unique score_each select columns].
    change (calculate_customer_risk_score ?d) with (Returned (scored d)).
    cbv iota beta. rewrite H0. reflexivity.
  - eexists. split; [reflexivity |].
    cbn [RiskEngine.components c_amount_risk].
    unfold calculate_amount_risk_score. rewrite H0. reflexivity.
  - intros -> ->. reflexivity.
Qed.

Lemma portfolio_requires_name_and_amount_columns_witness :
  score_customer_portfolio small_book_no_amount = KeyError "amount".
Proof.
  assert (N : rows small_book_no_amount <> []) by discriminate.
  exact (proj1 (proj1 (proj2 (portfolio_requires_name_and_amount_columns
                                small_book_no_amount)) eq_refl eq_refl N)).
Defined.

End PortfolioProperties.

(** * More about the alert engine *)

Section AlertRules.

Import AlertEngine.

Context {St : Type}.

Ltac split_all_rules customer :=
  unfold _evaluate_customer_alerts, fired_types, alert_thresholds;
  cbn [critical_risk_score high_risk_score large_transaction fraud_count_threshold
       pep_alert sanctions_alert];
  destruct (Qgeb (Customer.enhanced_risk_score customer) 60) eqn:H60;
  destruct (Qgeb (Customer.enhanced_risk_score customer) 85) eqn:H85;
  (destruct (Customer.is_pep customer) eqn:Hpep);
  (destruct (Customer.sanctions_risk customer) eqn:Hsanc);
  (destruct (Customer.fraud_count customer) as [n |] eqn:Hfraud;
   [destruct (1 <=? n)%Z eqn:Hn |]);
  (destruct (Customer.total_amount customer) as [amt |] eqn:Hamt;
   [destruct (Qgeb amt 100000) eqn:Hlarge |]);
  try (exfalso; apply Qgeb_true in H85; apply Qgeb_false in H60; lra).

Lemma evaluation_draws (customer : Customer.t) (env : Env) (p : Proc St) :
  exists alerts p',
    _evaluate_customer_alerts customer env p = (Returned alerts, p') /\
    map Alert.alert_type alerts = fired_types customer /\
    map Alert.alert_id alerts = draws env (uuid_draws p) (length alerts) /\
    self p' = self p /\
    uuid_draws p' = (uuid_draws p + length alerts)%nat /\
    clock_reads p' = clock_reads p.
Proof.
  unfold draws.
  split_all_rules customer;
    (do 2 eexists; split; [reflexivity |]; cbn [app];
     split; [reflexivity |];
     split; [reflexivity |];
     split; [reflexivity |];
     split; [cbn [uuid_draws length]; lia | reflexivity]).
Qed.

(** X9.  The rules are evaluated independently and in a fixed order: the
    alert types of one evaluation are exactly the types of the rules whose
    condition the profile meets (score at least 60; PEP flag; sanctions
    flag; a fraud count present and at least 1; a total amount present and
    at least 100000), each once, in that order. *)
Theorem alerts_are_the_fired_rules_in_order (customer : Customer.t) (env : Env)
    (p : Proc St) :
  exists alerts p',
    _evaluate_customer_alerts customer env p = (Returned alerts, p') /\
    map Alert.alert_type alerts = fired_types customer.
Proof.
  split_all_rules customer;
    (do 2 eexists; split; [reflexivity |]; reflexivity).
Qed.

Lemma fired_none_iff_quiet (customer : Customer.t) :
  fired_types customer = [] <-> quiet customer.
Proof.
  unfold fired_types, quiet.
  destruct (Qgeb (Customer.enhanced_risk_score customer) 60) eqn:H60.
  { apply Qgeb_true in H60. split; [discriminate | intros (Hs & _); lra]. }
  apply Qgeb_false in H60.
  destruct (Customer.is_pep customer).
  { split; [discriminate | intros (_ & Hp & _); discriminate]. }
  destruct (Customer.sanctions_risk customer).
  { split; [discriminate | intros (_ & _ & Hc & _); discriminate]. }
  destruct (Customer.fraud_count customer) as [n |].
  - destruct (1 <=? n)%Z eqn:Hn.
    { apply Z.leb_le in Hn.
      split; [discriminate | intros (_ & _ & _ & Hf & _); specialize (Hf n eq_refl); lia]. }
    apply Z.leb_gt in Hn.
    destruct (Customer.total_amount customer) as [amt |].
    + destruct (Qgeb amt 100000) eqn:Ha.
      { apply Qgeb_true in Ha.
        split; [discriminate |
                intros (_ & _ & _ & _ & Hl); specialize (Hl amt eq_refl); lra]. }
      apply Qgeb_false in Ha.
      split; [intros _ | reflexivity].
      repeat split; try assumption; try reflexivity.
      * intros m [= <-]. lia.
      * intros a [= <-]. exact Ha.
    + split; [intros _ | reflexivity].
      repeat split; try assumption; try reflexivity.
      * intros m [= <-]. lia.
      * intros a [=].
  - destruct (Customer.total_amount customer) as [amt |].
    + destruct (Qgeb amt 100000) eqn:Ha.
      { apply Qgeb_true in Ha.
        split; [discriminate |
                intros (_ & _ & _ & _ & Hl); specialize (Hl amt eq_refl); lra]. }
      apply Qgeb_false in Ha.
      split; [intros _ | reflexivity].
      repeat split; try assumption; try reflexivity.
      * intros m [=].
      * intros a [= <-]. exact Ha.
    + split; [intros _ | reflexivity].
      repeat split; try assumption; try reflexivity.
      * intros m [=].
      * intros a [=].
Qed.

Lemma evaluation_alert_facts (customer : Customer.t) (env : Env) (p : Proc St) :
  exists alerts p',
    _evaluate_customer_alerts customer env p = (Returned alerts, p') /\
    (length alerts <= 5)%nat /\
    NoDup (map Alert.alert_type alerts) /\
    Forall (fun a =>
       Alert.customer_id a = Customer.customer_id customer /\
       Alert.alert_type a <> "SUSPICIOUS_PATTERN" /\
       Alert.priority a <> "LOW" /\
       Alert.priority a = priority_by_type (Alert.alert_type a)) alerts.
Proof.
  split_all_rules customer;
    (do 2 eexists; split; [reflexivity |]; cbn [app];
     split; [cbn [length]; lia |];
     split; [cbn [map Alert.alert_type];
             repeat (constructor; [cbn [In]; intuition discriminate |]); constructor |];
     repeat (constructor; [repeat split; discriminate |]); constructor).
Qed.

(** X10.  What one evaluation never does: it never returns more than five
    alerts nor two of the same type, never an alert of type
    SUSPICIOUS_PATTERN nor of priority LOW nor for another customer; the
    priority of each alert is the one the rule table gives to its type; and
    it returns no alert at all exactly when the profile meets no rule. *)
Theorem evaluation_limits (customer : Customer.t) (env : Env) (p : Proc St) :
  exists alerts p',
    _evaluate_customer_alerts customer env p = (Returned alerts, p') /\
    (length alerts <= 5)%nat /\
    NoDup (map Alert.alert_type alerts) /\
    (forall a, In a alerts ->
       Alert.customer_id a = Customer.customer_id customer /\
       Alert.alert_type a <> "SUSPICIOUS_PATTERN" /\
       Alert.priority a <> "LOW" /\
       Alert.priority a = priority_by_type (Alert.alert_type a)) /\
    (alerts = [] <-> quiet customer).
Proof.
  destruct (evaluation_alert_facts customer env p) as (alerts & p' & E & Hlen & Hnd & Hall).
  destruct (evaluation_draws customer env p) as (alerts' & p'' & E' & Hty & _).
  rewrite E in E'. injection E' as <- <-.
  exists alerts, p'. split; [exact E |]. split; [exact Hlen |]. split; [exact Hnd |].
  split; [rewrite Forall_forall in Hall; exact Hall |].
  rewrite <- fired_none_iff_quiet, <- Hty.
  destruct alerts; split; intros H; try reflexivity; discriminate H.
Qed.

Lemma draws_app (env : Env) (d a b : nat) :
  draws env d (a + b) = (draws env d a ++ draws env (d + a) b)%list.
Proof. unfold draws. rewrite seq_app, map_app. reflexivity. Qed.

Lemma draws_NoDup (env : Env) (d n : nat) : distinct_uuids env -> NoDup (draws env d n).
Proof.
  intros Hinj. unfold draws.
  pose proof (seq_NoDup n d) as Hnd.
  induction Hnd as [| i l Hi _ IH]; cbn [map]; constructor; [| exact IH].
  intros H. apply in_map_iff in H. destruct H as (j & E & Hj).
  apply Hinj in E. subst j. exact (Hi Hj).
Qed.

Lemma extend_draws (customers : list Customer.t) :
  forall (alerts : list Alert.t) (env : Env) (p : Proc St),
  exists new p',
    extend_with_customers alerts customers env p = (Returned (alerts ++ new)%list, p') /\
    map Alert.alert_type new = flat_map fired_types customers /\
    map Alert.alert_id new = draws env (uuid_draws p) (length new) /\
    self p' = self p /\
    uuid_draws p' = (uuid_draws p + length new)%nat /\
    clock_reads p' = clock_reads p.
Proof.
  induction customers as [| c cs IH]; intros alerts env p; cbn [extend_with_customers].
  - exists [], p. rewrite app_nil_r. repeat split. cbn [length]. lia.
  - destruct (evaluation_draws c env p) as (ca & p1 & E & Hty & Hid & Hs & Hu & Hc).
    unfold bind at 1. rewrite E.
    destruct (IH (alerts ++ ca)%list env p1) as (new & p' & E' & Hty' & Hid' & Hs' & Hu' & Hc').
    exists (ca ++ new)%list, p'. rewrite app_assoc.
    split; [exact E' |].
    split; [rewrite map_app, Hty, Hty'; reflexivity |].
    split; [rewrite map_app, length_app, draws_app, Hid, Hid', Hu; reflexivity |].
    split; [congruence |].
    split; [rewrite length_app; lia | congruence].
Qed.

Lemma generate_alerts_shape (customer_profiles : list Customer.t) (env : Env)
    (p : Proc St) :
  exists table p',
    generate_alerts customer_profiles env p = (Returned table, p') /\
    length table = length (flat_map fired_types customer_profiles) /\
    self p' = self p.
Proof.
  destruct (extend_draws customer_profiles [] env p)
    as (new & p1 & E & Hty & _ & Hs & _).
  cbn [app] in E. unfold generate_alerts, bind. rewrite E.
  assert (Hlen : length new = length (flat_map fired_types customer_profiles))
    by (rewrite <- Hty, length_map; reflexivity).
  destruct (0 <? length new)%nat eqn:L.
  - do 2 eexists. split; [reflexivity |]. rewrite length_map.
    split; [exact Hlen | exact Hs].
  - apply Nat.ltb_ge in L. do 2 eexists. split; [reflexivity |]. cbn [length].
    split; [lia | exact Hs].
Qed.

(** X11.  The alert identifiers of a batch are successive draws of the
    identifier source, one per alert and nothing else drawn: the table of
    [generate_alerts] lists the alerts of the profiles in the order of the
    profiles, the i-th row carries the i-th identifier drawn during the
    call, and when the source never repeats an identifier no two rows share
    one. *)
Theorem batch_alert_ids_are_successive_draws (customer_profiles : list Customer.t)
    (env : Env) (p : Proc St) :
  exists table p',
    generate_alerts customer_profiles env p = (Returned table, p') /\
    map (fun r => Alert.alert_type (alert r)) table
      = flat_map fired_types customer_profiles /\
    map (fun r => Alert.alert_id (alert r)) table
      = draws env (uuid_draws p) (length table) /\
    uuid_draws p' = (uuid_draws p + length table)%nat /\
    (distinct_uuids env -> NoDup (map (fun r => Alert.alert_id (alert r)) table)).
Proof.
  destruct (extend_draws customer_profiles [] env p)
    as (new & p1 & E & Hty & Hid & Hs & Hu & Hc).
  cbn [app] in E. unfold generate_alerts, bind. rewrite E.
  destruct (0 <? length new)%nat eqn:Hlen.
  - do 2 eexists. split; [reflexivity |].
    rewrite !map_map, length_map. cbn [alert uuid_draws].
    split; [exact Hty |]. split; [exact Hid |]. split; [exact Hu |].
    intros Hinj. pose proof (draws_NoDup env (uuid_draws p) (length new) Hinj) as H.
    rewrite <- Hid in H. exact H.
  - apply Nat.ltb_ge in Hlen. assert (new = []) as -> by (destruct new; [reflexivity | cbn in Hlen; lia]).
    do 2 eexists. split; [reflexivity |]. cbn [map length] in *.
    split; [exact Hty |]. split; [reflexivity |]. split; [exact Hu |].
    intros _. constructor.
Qed.

(** X12.  Every row of the table of [generate_alerts] is OPEN and
    unassigned, and all rows carry the same creation time, the one clock
    reading of the call; when no profile fires a rule the table is empty and
    the clock is not read at all.  The engine itself is never changed. *)
Theorem batch_rows_open_with_one_timestamp (customer_profiles : list Customer.t)
    (env : Env) (p : Proc St) :
  exists table p',
    generate_alerts customer_profiles env p = (Returned table, p') /\
    (forall r, In r table ->
       status r = "OPEN" /\ assigned_to r = None /\
       created_at r = now_at env (clock_reads p)) /\
    (table = [] <-> flat_map fired_types customer_profiles = []) /\
    clock_reads p' = (if (0 <? length table)%nat then S (clock_reads p) else clock_reads p) /\
    self p' = self p.
Proof.
  destruct (extend_draws customer_profiles [] env p)
    as (new & p1 & E & Hty & Hid & Hs & Hu & Hc).
  cbn [app] in E. unfold generate_alerts, bind. rewrite E.
  destruct (0 <? length new)%nat eqn:Hlen.
  - do 2 eexists. split; [reflexivity |].
    split.
    + intros r Hr. apply in_map_iff in Hr. destruct Hr as (a & <- & _).
      cbn [status assigned_to created_at]. rewrite Hc. repeat split.
    + rewrite length_map, Hlen. cbn [clock_reads self].
      split; [| split; [congruence | exact Hs]].
      rewrite <- Hty. apply Nat.ltb_lt in Hlen.
      destruct new; [cbn in Hlen; lia |]. split; discriminate.
  - apply Nat.ltb_ge in Hlen. assert (new = []) as -> by (destruct new; [reflexivity | cbn in Hlen; lia]).
    do 2 eexists. split; [reflexivity |].
    split; [intros r [] |].
    cbn [length Nat.ltb Nat.leb]. rewrite <- Hty.
    split; [split; reflexivity | split; [exact Hc | exact Hs]].
Qed.

End AlertRules.

Section DemoEnvironment.

Lemma to_uint_nonnil (n : nat) : Nat.to_uint n <> Decimal.Nil.
Proof.
  rewrite <- (DecimalNat.Unsigned.of_to n) at 1.
  rewrite DecimalNat.Unsigned.to_of. apply DecimalFacts.unorm_nonnil.
Qed.

Lemma demo_env_distinct : distinct_uuids demo_env.
Proof.
  intros i j H. cbn [demo_env uuid4_at] in H.
  cbn [append] in H. injection H as H.
  apply (f_equal NilZero.uint_of_string) in H.
  rewrite !NilZero.usu in H by apply to_uint_nonnil.
  injection H as H. apply DecimalNat.Unsigned.to_uint_inj, H.
Qed.

Lemma demo_env_monotone : monotone_clock demo_env.
Proof. intros i j H. cbn [demo_env now_at]. lia. Qed.

End DemoEnvironment.

Section AlertBatchExamples.

Import AlertEngine.

Lemma batch_alert_ids_are_successive_draws_witness :
  distinct_uuids demo_env /\
  exists table p',
    generate_alerts Monitor.three_profiles demo_env idle = (Returned table, p') /\
    length table = 7%nat /\
    NoDup (map (fun r => Alert.alert_id (alert r)) table).
Proof.
  split; [exact demo_env_distinct |].
  destruct (batch_alert_ids_are_successive_draws Monitor.three_profiles demo_env idle)
    as (table & p' & E & Hty & _ & _ & Hnd).
  exists table, p'. split; [exact E |].
  split; [| exact (Hnd demo_env_distinct)].
  rewrite <- (length_map (fun r => Alert.alert_type (alert r))), Hty.
  vm_compute. reflexivity.
Defined.

End AlertBatchExamples.

(** * The alert monitor *)

Section MonitorProperties.

Import Monitor.

Lemma counts_total_insert (e : string * nat) (l : list (string * nat)) :
  counts_total (RiskEngine.insert_desc e l) = (snd e + counts_total l)%nat.
Proof.
  induction l as [| e' l IH]; cbn [RiskEngine.insert_desc counts_total fold_right];
    [reflexivity |].
  destruct (snd e' <? snd e)%nat; cbn [counts_total fold_right]; [reflexivity |].
  fold (counts_total (RiskEngine.insert_desc e l)). rewrite IH.
  fold (counts_total l). lia.
Qed.

Lemma counts_total_sorted (items acc : list (string * nat)) :
  counts_total (fold_left (fun a e => RiskEngine.insert_desc e a) items acc)
  = (counts_total items + counts_total acc)%nat.
Proof.
  revert acc. induction items as [| e items IH]; intros acc; cbn [fold_left].
  - reflexivity.
  - rewrite IH, counts_total_insert. cbn [counts_total fold_right].
    fold (counts_total items). lia.
Qed.

Lemma counts_total_bump (k : string) (acc : list (string * nat)) :
  counts_total (RiskEngine.bump k acc) = S (counts_total acc).
Proof.
  induction acc as [| [k' c] acc IH]; cbn [RiskEngine.bump]; [reflexivity |].
  destruct (String.eqb k k'); cbn [counts_total fold_right snd].
  - fold (counts_total acc). lia.
  - fold (counts_total (RiskEngine.bump k acc)) (counts_total acc). rewrite IH. lia.
Qed.

Lemma counts_total_tally (xs : list string) (acc : list (string * nat)) :
  counts_total (fold_left (fun a k => RiskEngine.bump k a) xs acc)
  = (counts_total acc + length xs)%nat.
Proof.
  revert acc. induction xs as [| x xs IH]; intros acc; cbn [fold_left length].
  - lia.
  - rewrite IH, counts_total_bump. lia.
Qed.

(** The counts of [value_counts] add up to the number of values counted. *)
Lemma value_counts_total (xs : list string) :
  counts_total (RiskEngine.value_counts xs) = length xs.
Proof.
  unfold RiskEngine.value_counts, RiskEngine.tally.
  rewrite counts_total_sorted, counts_total_tally. cbn [counts_total fold_right]. lia.
Qed.

Lemma alert_summary_total (env : Env) (p : Proc AlertMonitor) :
  exists s,
    get_alert_summary env p = (Returned s, p) /\
    total s = length (active_alerts (self p)).
Proof.
  unfold get_alert_summary, bind, get_self, ret.
  destruct (active_alerts (self p)) as [| r rs]; cbn [length Nat.eqb];
    (eexists; split; reflexivity).
Qed.

(** X13.  [get_alert_summary] changes nothing, and its counts are
    consistent: [total] is the number of rows of the active table and the
    counts by priority and by type each add up to it.  The summary of an
    empty monitor has no [by_risk_level] entry; any other summary has one,
    and its counts add up to [total] too. *)
Theorem alert_summary_counts_add_up (env : Env) (p : Proc AlertMonitor) :
  exists s,
    get_alert_summary env p = (Returned s, p) /\
    total s = length (active_alerts (self p)) /\
    counts_total (by_priority s) = total s /\
    counts_total (by_type s) = total s /\
    (active_alerts (self p) = [] -> by_risk_level s = None) /\
    (active_alerts (self p) <> [] ->
       exists d, by_risk_level s = Some d /\ counts_total d = total s).
Proof.
  unfold get_alert_summary, bind, get_self, ret.
  destruct (active_alerts (self p)) as [| r rs] eqn:E; cbn [length Nat.eqb].
  - eexists. split; [reflexivity |]. cbn [total by_priority by_type by_risk_level].
    repeat split; try reflexivity. intros N. congruence.
  - eexists. split; [reflexivity |]. cbn [total by_priority by_type by_risk_level].
    rewrite !value_counts_total, !length_map.
    repeat split; try reflexivity; try discriminate.
    intros _. eexists. split; [reflexivity |].
    rewrite value_counts_total, length_map. reflexivity.
Qed.

Lemma alert_summary_counts_add_up_witness :
  active_alerts (self watched) <> [] /\
  exists s d,
    get_alert_summary demo_env watched = (Returned s, watched) /\
    by_risk_level s = Some d /\ counts_total d = total s.
Proof.
  assert (N : active_alerts (self watched) <> []) by (vm_compute; discriminate).
  split; [exact N |].
  destruct (alert_summary_counts_add_up demo_env watched) as (s & E & _ & _ & _ & _ & H).
  destruct (H N) as (d & Hd & Hc).
  exists s, d. repeat split; assumption.
Defined.

Lemma process_alerts_shape (new_alerts : list AlertEngine.AlertRow) (env : Env)
    (p : Proc AlertMonitor) :
  exists p',
    process_alerts new_alerts env p = (Returned tt, p') /\
    active_alerts (self p') = (active_alerts (self p) ++ map of_row new_alerts)%list /\
    alert_history (self p') = (alert_history (self p) ++ map to_history new_alerts)%list /\
    uuid_draws p' = uuid_draws p /\ clock_reads p' = clock_reads p.
Proof.
  unfold process_alerts.
  destruct new_alerts as [| r rs]; cbn [length Nat.eqb].
  - exists p. cbn [map]. rewrite !app_nil_r. repeat split.
  - eexists. split; [reflexivity |]. repeat split.
Qed.

Lemma summary_depends_on_alerts (env : Env) (p q : Proc AlertMonitor) :
  map MonitorRow.alert (active_alerts (self q)) = map MonitorRow.alert (active_alerts (self p)) ->
  fst (get_alert_summary env q) = fst (get_alert_summary env p).
Proof.
  intros H.
  assert (Hl : length (active_alerts (self q)) = length (active_alerts (self p))).
  { rewrite <- (length_map MonitorRow.alert), H, length_map. reflexivity. }
  assert (Hm : forall f : Alert.t -> string,
             map (fun r => f (MonitorRow.alert r)) (active_alerts (self q))
             = map (fun r => f (MonitorRow.alert r)) (active_alerts (self p))).
  { intros f. rewrite <- !(map_map MonitorRow.alert f), H. reflexivity. }
  unfold get_alert_summary, bind, get_self, ret. cbn [fst].
  rewrite Hl.
  change (map priority_of) with (map (fun r => Alert.priority (MonitorRow.alert r))).
  change (map type_of) with (map (fun r => Alert.alert_type (MonitorRow.alert r))).
  change (map risk_level_of) with (map (fun r => Alert.risk_level (MonitorRow.alert r))).
  rewrite !Hm.
  destruct (length (active_alerts (self p)) =? 0)%nat; reflexivity.
Qed.

(** X14.  [close_alert] marks, it does not remove.  The active table keeps
    its rows in their places: a row that carries the identifier keeps its
    alert, creation time and assignee and becomes CLOSED with the clock
    reading of the call and the notes, every other row is exactly as it
    was; so the summary of the monitor is the same after the call as
    before.  No row is added to or removed from the history, whose alerts,
    creation times and assignees stay as they were.  When no row carries the
    identifier, nothing changes and the clock is not read. *)
Theorem close_alert_marks_without_removing (alert_id notes : string) (env : Env)
    (p : Proc AlertMonitor) :
  exists p',
    close_alert alert_id notes env p = (Returned tt, p') /\
    Forall2
      (fun r r' =>
         if String.eqb (Alert.alert_id (MonitorRow.alert r)) alert_id
         then MonitorRow.alert r' = MonitorRow.alert r /\
              MonitorRow.created_at r' = MonitorRow.created_at r /\
              MonitorRow.assigned_to r' = MonitorRow.assigned_to r /\
              MonitorRow.status r' = "CLOSED" /\
              MonitorRow.closed_at r' = Some (now_at env (clock_reads p)) /\
              MonitorRow.resolution_notes r' = Some notes
         else r' = r)
      (active_alerts (self p)) (active_alerts (self p')) /\
    alert_history (self p') = alert_history (self p) /\
    fst (get_alert_summary env p') = fst (get_alert_summary env p) /\
    ((forall r, In r (active_alerts (self p)) ->
        Alert.alert_id (MonitorRow.alert r) <> alert_id) -> p' = p).
Proof.
  assert (Hsame : forall t rs,
            map MonitorRow.alert
              (map (fun r => if id_mask alert_id r then MonitorRow.close t notes r else r) rs)
            = map MonitorRow.alert rs).
  { intros t rs. rewrite map_map. apply map_ext. intros r.
    destruct (id_mask alert_id r); reflexivity. }
  assert (Hrows : forall t rs,
            Forall2
              (fun r r' =>
                 if String.eqb (Alert.alert_id (MonitorRow.alert r)) alert_id
                 then MonitorRow.alert r' = MonitorRow.alert r /\
                      MonitorRow.created_at r' = MonitorRow.created_at r /\
                      MonitorRow.assigned_to r' = MonitorRow.assigned_to r /\
                      MonitorRow.status r' = "CLOSED" /\
                      MonitorRow.closed_at r' = Some t /\
                      MonitorRow.resolution_notes r' = Some notes
                 else r' = r)
              rs (map (fun r => if id_mask alert_id r then MonitorRow.close t notes r else r) rs)).
  { intros t rs. induction rs as [| r rs IH]; cbn [map]; constructor; [| exact IH].
    unfold id_mask. destruct (String.eqb _ alert_id); [repeat split | reflexivity]. }
  assert (Hkept : forall rs,
            (forall r, In r rs -> Alert.alert_id (MonitorRow.alert r) <> alert_id) ->
            Forall2
              (fun r r' =>
                 if String.eqb (Alert.alert_id (MonitorRow.alert r)) alert_id
                 then MonitorRow.alert r' = MonitorRow.alert r /\
                      MonitorRow.created_at r' = MonitorRow.created_at r /\
                      MonitorRow.assigned_to r' = MonitorRow.assigned_to r /\
                      MonitorRow.status r' = "CLOSED" /\
                      MonitorRow.closed_at r' = Some (now_at env (clock_reads p)) /\
                      MonitorRow.resolution_notes r' = Some notes
                 else r' = r)
              rs rs).
  { intros rs Hno. induction rs as [| r rs IH]; constructor.
    - destruct (String.eqb_spec (Alert.alert_id (MonitorRow.alert r)) alert_id) as [E | N];
        [| reflexivity].
      destruct (Hno r (or_introl eq_refl) E).
    - apply IH. intros r0 Hr0. apply Hno. right. exact Hr0. }
  unfold close_alert, bind at 1, get_self.
  destruct (0 <? length (active_alerts (self p)))%nat eqn:Hlen;
    [destruct (existsb (id_mask alert_id) (active_alerts (self p))) eqn:Hany |].
  - eexists. split; [reflexivity |]. cbn [self active_alerts alert_history].
    split; [apply Hrows |]. split; [reflexivity |].
    split; [apply summary_depends_on_alerts; cbn [self active_alerts]; apply Hsame |].
    intros Hnone. apply existsb_exists in Hany. destruct Hany as (r & Hr & Hm).
    unfold id_mask in Hm. apply String.eqb_eq in Hm. destruct (Hnone r Hr Hm).
  - exists p. split; [reflexivity |].
    split; [| split; [reflexivity | split; reflexivity]].
    apply Hkept. intros r Hr Hid.
    assert (X : existsb (id_mask alert_id) (active_alerts (self p)) = true).
    { apply existsb_exists. exists r. split; [exact Hr |].
      unfold id_mask. apply String.eqb_eq, Hid. }
    congruence.
  - exists p. split; [reflexivity |].
    split; [| split; [reflexivity | split; reflexivity]].
    destruct (active_alerts (self p)); [constructor | discriminate Hlen].
Qed.

Lemma close_alert_marks_without_removing_witness :
  exists p' r',
    close_alert "uuid-1" "Reviewed" demo_env watched = (Returned tt, p') /\
    In r' (active_alerts (self p')) /\
    MonitorRow.status r' = "CLOSED" /\
    length (active_alerts (self p')) = 7%nat.
Proof.
  destruct (close_alert_marks_without_removing "uuid-1" "Reviewed" demo_env watched)
    as (p' & E & Hrows & _).
  assert (Hlen : length (active_alerts (self p')) = 7%nat).
  { rewrite <- (Forall2_length Hrows). vm_compute. reflexivity. }
  assert (Hsplit : exists r0 r1 rest, active_alerts (self watched) = r0 :: r1 :: rest /\
                                      Alert.alert_id (MonitorRow.alert r1) = "uuid-1").
  { do 3 eexists. split; vm_compute; reflexivity. }
  destruct Hsplit as (r0 & r1 & rest & Hw & Hid).
  rewrite Hw in Hrows.
  inversion Hrows as [| ? r0' ? l0' _ Hrest Ea Eb]; subst.
  inversion Hrest as [| ? r1' ? l1' H1 _ Ec Ed]; subst.
  rewrite Hid in H1. cbn [String.eqb Ascii.eqb Bool.eqb] in H1.
  exists p', r1'. split; [exact E |].
  rewrite <- Eb in *.
  split; [right; left; reflexivity |].
  split; [exact (proj1 (proj2 (proj2 (proj2 H1)))) | exact Hlen].
Defined.

(** X15.  Nothing is deduplicated.  One batch of the workflow (generate the
    alerts of the profiles, process them, summarise) adds one active alert
    and one history row per rule fired, whatever the monitor already holds;
    so running the same batch twice counts every alert twice. *)
Theorem repeated_batches_repeat_alerts (customer_profiles : list Customer.t) (env : Env)
    (p : Proc AlertMonitor) :
  let fired := length (flat_map fired_types customer_profiles) in
  (exists s p',
     monitor_batch customer_profiles env p = (Returned s, p') /\
     total s = (length (active_alerts (self p)) + fired)%nat /\
     length (alert_history (self p')) = (length (alert_history (self p)) + fired)%nat) /\
  (exists s p',
     (monitor_batch customer_profiles ;;; monitor_batch customer_profiles) env p
       = (Returned s, p') /\
     total s = (length (active_alerts (self p)) + 2 * fired)%nat).
Proof.
  intros fired.
  assert (Once : forall q : Proc AlertMonitor,
            exists s q',
              monitor_batch customer_profiles env q = (Returned s, q') /\
              total s = (length (active_alerts (self q)) + fired)%nat /\
              length (active_alerts (self q')) = (length (active_alerts (self q)) + fired)%nat /\
              length (alert_history (self q'))
                = (length (alert_history (self q)) + fired)%nat).
  { intros q.
    destruct (generate_alerts_shape customer_profiles env q)
      as (table & q1 & E & Hlen & Hself).
    fold fired in Hlen.
    destruct (process_alerts_shape table env q1) as (q2 & Ep & Ha & Hh & _).
    destruct (alert_summary_total env q2) as (s & Es & Ht).
    exists s, q2. unfold monitor_batch, bind. rewrite E, Ep, Es.
    split; [reflexivity |].
    rewrite Ht, Ha, Hh, !length_app, !length_map, Hself, Hlen. repeat split. }
  split.
  - destruct (Once p) as (s & p' & E & Ht & _ & Hh). exists s, p'. auto.
  - destruct (Once p) as (s1 & p1 & E1 & _ & Ha1 & _).
    destruct (Once p1) as (s2 & p2 & E2 & Ht2 & _).
    exists s2, p2. unfold bind at 1. rewrite E1, E2.
    split; [reflexivity | lia].
Qed.

End MonitorProperties.

(** * More about the case manager *)

Section CaseManagerSteps.

Import CaseManager CaseQueries.

Lemma create_case_eq (alert : Alert.t) (env : Env) (p : Proc AMLCaseManager) :
  create_case_from_alert alert env p =
  (Returned (uuid4_at env (uuid_draws p)),
   state (cases (self p) ++ [created_case env p alert])
     (case_actions (self p) ++
      [act env (S (uuid_draws p)) (S (S (clock_reads p))) (uuid4_at env (uuid_draws p))
         "CASE_CREATED" "Case automatically created from alert" "SYSTEM"])
     (S (S (uuid_draws p))) (S (S (S (clock_reads p))))).
Proof. reflexivity. Qed.

Lemma assign_case_unknown_eq (cid analyst_name : string) (env : Env)
    (p : Proc AMLCaseManager) :
  unknown cid (self p) -> assign_case cid analyst_name env p = (Returned tt, p).
Proof.
  intros H. unfold assign_case, bind, get_self.
  rewrite (mask_any_unknown _ _ H).
  destruct (0 <? length (cases (self p)))%nat; reflexivity.
Qed.

Lemma assign_case_known_eq (cid analyst_name : string) (env : Env)
    (p : Proc AMLCaseManager) :
  mask_any cid (cases (self p)) = true ->
  (0 <? length (cases (self p)))%nat = true ->
  assign_case cid analyst_name env p =
  (Returned tt,
   state
     (loc_set cid (Case.set_last_updated (now_at env (clock_reads p)))
        (loc_set cid (Case.set_assigned_to analyst_name) (cases (self p))))
     (case_actions (self p) ++
      [act env (uuid_draws p) (S (clock_reads p)) cid "CASE_ASSIGNED"
         ("Case assigned to " ++ analyst_name) "SYSTEM"])
     (S (uuid_draws p)) (S (S (clock_reads p)))).
Proof.
  intros Hany Hlen. unfold assign_case, bind, get_self. rewrite Hany, Hlen. reflexivity.
Qed.

Lemma mask_any_loc_set (cid cid' : string) (f : Case.t -> Case.t) (cs : list Case.t) :
  (forall c, Case.case_id (f c) = Case.case_id c) ->
  mask_any cid (loc_set cid' f cs) = mask_any cid cs.
Proof.
  intros Hf. unfold mask_any, loc_set. induction cs as [| c cs IH]; [reflexivity |].
  cbn [map existsb]. rewrite IH. f_equal.
  unfold mask. destruct (String.eqb (Case.case_id c) cid'); [rewrite Hf |]; reflexivity.
Qed.

Lemma length_loc_set (cid : string) (f : Case.t -> Case.t) (cs : list Case.t) :
  length (loc_set cid f cs) = length cs.
Proof. unfold loc_set. apply length_map. Qed.

Lemma update_known_state_eq (cid new_status notes : string) (env : Env)
    (p : Proc AMLCaseManager) :
  mask_any cid (cases (self p)) = true ->
  (0 <? length (cases (self p)))%nat = true ->
  update_case_status cid new_status notes env p =
  (Returned tt,
   state
     (loc_set cid (Case.set_last_updated (now_at env (clock_reads p)))
        (loc_set cid (Case.set_status new_status) (cases (self p))))
     (case_actions (self p) ++
      [act env (uuid_draws p) (S (clock_reads p)) cid "STATUS_CHANGED"
         ("Status changed from " ++ first_status cid (cases (self p)) ++ " to "
          ++ new_status ++ ". " ++ notes) "SYSTEM"])
     (S (uuid_draws p)) (S (S (clock_reads p)))).
Proof. intros Hany Hlen. apply update_case_status_known_eq; assumption. Qed.

Lemma close_case_unknown_eq (cid resolution analyst_name : string) (env : Env)
    (p : Proc AMLCaseManager) :
  unknown cid (self p) ->
  close_case cid resolution analyst_name env p =
  (Returned tt,
   state (cases (self p))
     (case_actions (self p) ++
      [act env (uuid_draws p) (clock_reads p) cid "CASE_CLOSED"
         ("Case closed. Resolution: " ++ resolution) analyst_name])
     (S (uuid_draws p)) (S (clock_reads p))).
Proof.
  intros Hunk. pose proof (mask_any_unknown _ _ Hunk) as Hmask.
  unfold close_case. unfold bind at 1.
  rewrite (update_case_status_unknown_eq _ _ _ _ _ Hunk).
  unfold bind at 1. rewrite log_case_action_eq.
  unfold bind, get_self. cbn [self cases case_actions].
  rewrite Hmask. destruct (0 <? length (cases (self p)))%nat; reflexivity.
Qed.

Lemma close_case_known_eq (cid resolution analyst_name : string) (env : Env)
    (p : Proc AMLCaseManager) :
  mask_any cid (cases (self p)) = true ->
  (0 <? length (cases (self p)))%nat = true ->
  close_case cid resolution analyst_name env p =
  (Returned tt,
   state
     (loc_set cid (Case.set_resolution resolution)
        (loc_set cid (Case.set_closed_at (now_at env (S (S (S (clock_reads p))))))
           (loc_set cid (Case.set_last_updated (now_at env (clock_reads p)))
              (loc_set cid (Case.set_status "CLOSED") (cases (self p))))))
     (case_actions (self p) ++
      [act env (uuid_draws p) (S (clock_reads p)) cid "STATUS_CHANGED"
         ("Status changed from " ++ first_status cid (cases (self p)) ++ " to "
          ++ "CLOSED" ++ ". " ++ EmptyString) "SYSTEM";
       act env (S (uuid_draws p)) (S (S (clock_reads p))) cid "CASE_CLOSED"
         ("Case closed. Resolution: " ++ resolution) analyst_name])
     (S (S (uuid_draws p))) (S (S (S (S (clock_reads p)))))).
Proof.
  intros Hany Hlen.
  unfold close_case. unfold bind at 1.
  rewrite (update_known_state_eq _ _ _ _ _ Hany Hlen).
  unfold bind at 1. rewrite log_case_action_eq.
  unfold bind at 1, get_self. cbn [self cases case_actions state uuid_draws clock_reads].
  rewrite !length_loc_set, Hlen.
  rewrite !mask_any_loc_set by reflexivity. rewrite Hany.
  unfold bind, now, set_cases, bind, get_self, put_self, state, logged, act.
  cbn [self cases case_actions uuid_draws clock_reads].
  rewrite <- app_assoc. reflexivity.
Qed.

Lemma known_or_unknown (cid : string) (m : AMLCaseManager) :
  (mask_any cid (cases m) = true /\ (0 <? length (cases m))%nat = true /\
   exists c, In c (cases m) /\ Case.case_id c = cid)
  \/ unknown cid m.
Proof.
  destruct (mask_any cid (cases m)) eqn:E.
  - left. apply existsb_exists in E. destruct E as (c & Hc & Hm).
    unfold mask in Hm. apply String.eqb_eq in Hm.
    destruct (mask_any_known cid m c Hc Hm) as [_ Hl].
    split; [reflexivity |]. split; [exact Hl |]. exists c. auto.
  - right. intros c Hc Hid.
    destruct (mask_any_known cid m c Hc Hid) as [X _]. congruence.
Qed.

Lemma same_core_refl (c : Case.t) : same_core c c.
Proof. repeat split. Qed.

Lemma same_core_trans (a b c : Case.t) : same_core a b -> same_core b c -> same_core a c.
Proof.
  unfold same_core. intros (A1 & A2 & A3 & A4 & A5 & A6 & A7 & A8 & A9)
    (B1 & B2 & B3 & B4 & B5 & B6 & B7 & B8 & B9).
  repeat split; congruence.
Qed.

Lemma Forall2_same_core_refl (cs : list Case.t) : Forall2 same_core cs cs.
Proof. induction cs; constructor; [apply same_core_refl | assumption]. Qed.

Lemma Forall2_same_core_trans (xs ys zs : list Case.t) :
  Forall2 same_core xs ys -> Forall2 same_core ys zs -> Forall2 same_core xs zs.
Proof.
  intros H. revert zs. induction H as [| x y xs ys Hxy _ IH]; intros zs Hz.
  - inversion Hz. constructor.
  - inversion Hz as [| y' z ys' zs' Hyz Hrest]; subst.
    constructor; [eapply same_core_trans; eassumption | apply IH, Hrest].
Qed.

Lemma loc_set_same_core (cid : string) (f : Case.t -> Case.t) (cs : list Case.t) :
  (forall c, same_core c (f c)) -> Forall2 same_core cs (loc_set cid f cs).
Proof.
  intros Hf. unfold loc_set. induction cs as [| c cs IH]; cbn [map]; constructor.
  - destruct (mask cid c); [apply Hf | apply same_core_refl].
  - exact IH.
Qed.

Lemma same_core_ids (cs cs' : list Case.t) :
  Forall2 same_core cs cs' -> map Case.case_id cs' = map Case.case_id cs.
Proof.
  induction 1 as [| c c' cs cs' H _ IH]; [reflexivity |].
  cbn [map]. rewrite IH. f_equal. apply H.
Qed.

Ltac core_kept :=
  repeat (first [ apply Forall2_same_core_refl
                | eapply Forall2_same_core_trans;
                  [| apply loc_set_same_core; intros ?; repeat split ] ]).

Ltac grows_with old extra acts js :=
  exists old, extra, acts, js;
  cbn [state self cases case_actions uuid_draws clock_reads map length
       CaseAction.timestamp act];
  split; [rewrite ?app_nil_r; reflexivity |];
  split; [core_kept |];
  split; [lia |];
  split; [repeat constructor; lia |];
  split; [rewrite ?app_nil_r; reflexivity |];
  split; [lia |];
  split; [reflexivity |];
  split; [repeat constructor; lia |];
  split; [repeat constructor; lia |];
  split; lia.

Lemma grows_refl (env : Env) (p : Proc AMLCaseManager) : grows env p p.
Proof.
  exists (cases (self p)), [], [], [].
  rewrite !app_nil_r.
  split; [reflexivity |]. split; [apply Forall2_same_core_refl |].
  split; [cbn; lia |]. split; [constructor |]. split; [reflexivity |].
  split; [cbn; lia |]. split; [reflexivity |]. split; [constructor |].
  split; [constructor |]. split; lia.
Qed.

(** Every operation returns, and what it does to the process is a growth. *)
Lemma op_grows (o : Op) (env : Env) (p : Proc AMLCaseManager) :
  exists p', run_op o env p = (Returned tt, p') /\ grows env p p'.
Proof.
  destruct o as [alert | cid new_status notes | cid who | cid notes who | cid res who];
    cbn [run_op].
  - unfold bind. rewrite create_case_eq. eexists. split; [reflexivity |].
    grows_with (cases (self p)) [created_case env p alert]
      [act env (S (uuid_draws p)) (S (S (clock_reads p))) (uuid4_at env (uuid_draws p))
         "CASE_CREATED" "Case automatically created from alert" "SYSTEM"]
      [S (S (clock_reads p))].
  - destruct (known_or_unknown cid (self p)) as [(Hany & Hlen & _) | Hunk].
    + rewrite (update_known_state_eq _ _ _ _ _ Hany Hlen). eexists. split; [reflexivity |].
      grows_with
        (loc_set cid (Case.set_last_updated (now_at env (clock_reads p)))
           (loc_set cid (Case.set_status new_status) (cases (self p))))
        (@nil Case.t)
        [act env (uuid_draws p) (S (clock_reads p)) cid "STATUS_CHANGED"
           ("Status changed from " ++ first_status cid (cases (self p)) ++ " to "
            ++ new_status ++ ". " ++ notes) "SYSTEM"]
        [S (clock_reads p)].
    + rewrite (update_case_status_unknown_eq _ _ _ _ _ Hunk).
      exists p. split; [reflexivity | apply grows_refl].
  - destruct (known_or_unknown cid (self p)) as [(Hany & Hlen & _) | Hunk].
    + rewrite (assign_case_known_eq _ _ _ _ Hany Hlen). eexists. split; [reflexivity |].
      grows_with
        (loc_set cid (Case.set_last_updated (now_at env (clock_reads p)))
           (loc_set cid (Case.set_assigned_to who) (cases (self p))))
        (@nil Case.t)
        [act env (uuid_draws p) (S (clock_reads p)) cid "CASE_ASSIGNED"
           ("Case assigned to " ++ who) "SYSTEM"]
        [S (clock_reads p)].
    + rewrite (assign_case_unknown_eq _ _ _ _ Hunk).
      exists p. split; [reflexivity | apply grows_refl].
  - unfold add_case_notes. rewrite log_case_action_eq. eexists. split; [reflexivity |].
    grows_with (cases (self p)) (@nil Case.t)
      [logged env p cid "NOTES_ADDED" notes who] [clock_reads p].
  - destruct (known_or_unknown cid (self p)) as [(Hany & Hlen & _) | Hunk].
    + rewrite (close_case_known_eq _ _ _ _ _ Hany Hlen). eexists. split; [reflexivity |].
      grows_with
        (loc_set cid (Case.set_resolution res)
           (loc_set cid (Case.set_closed_at (now_at env (S (S (S (clock_reads p))))))
              (loc_set cid (Case.set_last_updated (now_at env (clock_reads p)))
                 (loc_set cid (Case.set_status "CLOSED") (cases (self p))))))
        (@nil Case.t)
        [act env (uuid_draws p) (S (clock_reads p)) cid "STATUS_CHANGED"
           ("Status changed from " ++ first_status cid (cases (self p)) ++ " to "
            ++ "CLOSED" ++ ". " ++ EmptyString) "SYSTEM";
         act env (S (uuid_draws p)) (S (S (clock_reads p))) cid "CASE_CLOSED"
           ("Case closed. Resolution: " ++ res) who]
        [S (clock_reads p); S (S (clock_reads p))].
    + rewrite (close_case_unknown_eq _ _ _ _ _ Hunk). eexists. split; [reflexivity |].
      grows_with (cases (self p)) (@nil Case.t)
        [act env (uuid_draws p) (clock_reads p) cid "CASE_CLOSED"
           ("Case closed. Resolution: " ++ res) who]
        [clock_reads p].
Qed.

End CaseManagerSteps.

Section CaseManagerHistories.

Import CaseManager CaseQueries.

Lemma grows_extends (env : Env) (p p' : Proc AMLCaseManager) :
  grows env p p' -> extends (self p) (self p').
Proof.
  intros (old' & extra & acts & js & Hc & Hcore & _ & _ & Hl & _).
  split; [exists old', extra; auto | exists acts; exact Hl].
Qed.

Lemma extends_refl (m : AMLCaseManager) : extends m m.
Proof.
  split.
  - exists (cases m), []. rewrite app_nil_r. split; [reflexivity | apply Forall2_same_core_refl].
  - exists []. rewrite app_nil_r. reflexivity.
Qed.

Lemma extends_trans (m1 m2 m3 : AMLCaseManager) :
  extends m1 m2 -> extends m2 m3 -> extends m1 m3.
Proof.
  intros [(o2 & e2 & Hc2 & Hk2) (n2 & Hl2)] [(o3 & e3 & Hc3 & Hk3) (n3 & Hl3)].
  split.
  - rewrite Hc2 in Hk3. apply Forall2_app_inv_l in Hk3.
    destruct Hk3 as (o3a & o3b & Ha & Hb & ->).
    exists o3a, (o3b ++ e3)%list. split; [rewrite Hc3, app_assoc; reflexivity |].
    eapply Forall2_same_core_trans; eassumption.
  - exists (n2 ++ n3)%list. rewrite Hl3, Hl2, app_assoc. reflexivity.
Qed.

(** X16.  The manager only ever grows.  Every sequence of calls of
    [create_case_from_alert], [update_case_status], [assign_case],
    [add_case_notes] and [close_case], with any arguments and from any
    state, returns normally; afterwards every action that was in the log is
    still there, unchanged and in the same place, and so is every case, with
    the columns written at creation (identifier, customer, alert, type,
    priority, creation time, due date, description, risk level) as they
    were. *)
Theorem manager_only_grows (os : list Op) (env : Env) (p : Proc AMLCaseManager) :
  exists p',
    run_ops os env p = (Returned tt, p') /\
    (exists old' extra,
       cases (self p') = (old' ++ extra)%list /\
       Forall2 same_core (cases (self p)) old') /\
    (exists new_actions,
       case_actions (self p') = (case_actions (self p) ++ new_actions)%list).
Proof.
  revert p. induction os as [| o os IH]; intros p; cbn [run_ops].
  - exists p. split; [reflexivity | apply extends_refl].
  - destruct (op_grows o env p) as (p1 & E1 & G1).
    destruct (IH p1) as (p2 & E2 & X2).
    exists p2. unfold bind. rewrite E1. split; [exact E2 |].
    exact (extends_trans _ _ _ (grows_extends _ _ _ G1) X2).
Qed.

Lemma ids_drawn_step (env : Env) (p p' : Proc AMLCaseManager) :
  distinct_uuids env -> grows env p p' -> ids_drawn env p -> ids_drawn env p'.
Proof.
  intros Hinj (old' & extra & acts & js & Hc & Hcore & Hlen & Hextra & _ & _ & _ & _ & _
               & Hu & _) [Hnd Hdrawn].
  pose proof (same_core_ids _ _ Hcore) as Hids.
  unfold ids_drawn. rewrite Hc, map_app, Hids.
  assert (Hold : Forall (fun c => exists k, (k < uuid_draws p')%nat /\
                                            Case.case_id c = uuid4_at env k) old').
  { rewrite Forall_forall in *. intros c' Hc'.
    apply (in_map Case.case_id) in Hc'. rewrite Hids in Hc'.
    apply in_map_iff in Hc'. destruct Hc' as (c & Ec & Hin).
    destruct (Hdrawn c Hin) as (k & Hk & Ek). exists k. split; [lia | congruence]. }
  split.
  - destruct extra as [| c [| c2 extra]]; [rewrite app_nil_r; exact Hnd | | cbn in Hlen; lia].
    inversion Hextra as [| ? ? [Hid Hlt] _]; subst.
    cbn [map]. apply NoDup_app;
      [exact Hnd | constructor; [intros [] | constructor] |].
    intros x Hx Hin. destruct Hin as [<- | []].
    apply in_map_iff in Hx. destruct Hx as (c0 & E0 & Hin0).
    rewrite Forall_forall in Hdrawn. destruct (Hdrawn c0 Hin0) as (k & Hk & Ek).
    rewrite Hid, Ek in E0. apply Hinj in E0. lia.
  - apply Forall_app. split; [exact Hold |].
    rewrite Forall_forall in *. intros c Hin. destruct (Hextra c Hin) as [Hid Hlt].
    exists (uuid_draws p). auto.
Qed.

Lemma StronglySorted_lt_app (xs ys : list nat) (b : nat) :
  StronglySorted lt xs -> StronglySorted lt ys ->
  Forall (fun x => (x < b)%nat) xs -> Forall (fun y => (b <= y)%nat) ys ->
  StronglySorted lt (xs ++ ys).
Proof.
  intros Hx Hy Hlo Hhi. induction Hx as [| x xs Hxs IH Hall]; [exact Hy |].
  inversion Hlo; subst. cbn [app]. constructor; [apply IH; assumption |].
  apply Forall_app. split; [exact Hall |].
  rewrite Forall_forall in *. intros y Hin. specialize (Hhi y Hin). lia.
Qed.

Lemma stamps_read_step (env : Env) (p p' : Proc AMLCaseManager) :
  grows env p p' -> stamps_read env p -> stamps_read env p'.
Proof.
  intros (old' & extra & acts & js & _ & _ & _ & _ & Hl & _ & Hts & Hsorted & Hrange & _ & Hcr)
    (js0 & Hts0 & Hs0 & Hr0).
  exists (js0 ++ js)%list. rewrite Hl, !map_app, Hts0, Hts.
  split; [reflexivity |]. split.
  - apply (StronglySorted_lt_app _ _ (clock_reads p)); try assumption.
    rewrite Forall_forall in *. intros j Hj. apply Hrange in Hj. lia.
  - apply Forall_app. split; apply Forall_forall; intros j Hj.
    + rewrite Forall_forall in Hr0. apply Hr0 in Hj. lia.
    + rewrite Forall_forall in Hrange. apply Hrange in Hj. lia.
Qed.

Lemma readings_in_order (env : Env) (js : list nat) :
  monotone_clock env -> StronglySorted lt js ->
  StronglySorted Z.le (map (now_at env) js).
Proof.
  intros Hmono. induction 1 as [| j js _ IH Hall]; cbn [map]; constructor; [exact IH |].
  rewrite Forall_forall in *. intros t Ht. apply in_map_iff in Ht.
  destruct Ht as (k & <- & Hk). apply Hmono. specialize (Hall k Hk). lia.
Qed.

Lemma run_ops_invariant (P : Proc AMLCaseManager -> Prop) (env : Env) :
  (forall p p', grows env p p' -> P p -> P p') ->
  forall os p, P p -> exists p', run_ops os env p = (Returned tt, p') /\ P p'.
Proof.
  intros Hstep. induction os as [| o os IH]; intros p Hp; cbn [run_ops].
  - exists p. split; [reflexivity | exact Hp].
  - destruct (op_grows o env p) as (p1 & E1 & G1).
    destruct (IH p1 (Hstep _ _ G1 Hp)) as (p2 & E2 & H2).
    exists p2. unfold bind. rewrite E1. split; [exact E2 | exact H2].
Qed.

(** X17.  Case identifiers stay unique.  When the identifier source never
    repeats itself, no sequence of operations on a fresh manager, whatever
    identifiers its calls name, leaves two cases with the same [case_id]. *)
Theorem case_ids_stay_unique (env : Env) (os : list Op) :
  distinct_uuids env ->
  exists p',
    run_ops os env start = (Returned tt, p') /\
    NoDup (map Case.case_id (cases (self p'))).
Proof.
  intros Hinj.
  destruct (run_ops_invariant (ids_drawn env) env
              (fun q q' G => ids_drawn_step env q q' Hinj G) os start)
    as (p' & E & Hnd & _).
  - split; constructor.
  - exists p'. split; [exact E | exact Hnd].
Qed.

Lemma case_ids_stay_unique_witness :
  distinct_uuids demo_env /\
  exists p',
    run_ops two_cases_script demo_env start = (Returned tt, p') /\
    NoDup (map Case.case_id (cases (self p'))).
Proof.
  split; [exact demo_env_distinct |].
  exact (case_ids_stay_unique demo_env two_cases_script demo_env_distinct).
Defined.

(** X18.  The log is in time order.  On a clock that does not run
    backwards, after any sequence of operations on a fresh manager the
    timestamps of the action log are non-decreasing from the first action to
    the last. *)
Theorem action_log_in_time_order (env : Env) (os : list Op) :
  monotone_clock env ->
  exists p',
    run_ops os env start = (Returned tt, p') /\
    StronglySorted Z.le (map CaseAction.timestamp (case_actions (self p'))).
Proof.
  intros Hmono.
  destruct (run_ops_invariant (stamps_read env) env (stamps_read_step env) os start)
    as (p' & E & js & Hts & Hs & _).
  - exists []. repeat split; constructor.
  - exists p'. split; [exact E |]. rewrite Hts. apply readings_in_order; assumption.
Qed.

Lemma action_log_in_time_order_witness :
  monotone_clock demo_env /\
  exists p',
    run_ops two_cases_script demo_env start = (Returned tt, p') /\
    StronglySorted Z.le (map CaseAction.timestamp (case_actions (self p'))).
Proof.
  split; [exact demo_env_monotone |].
  exact (action_log_in_time_order demo_env two_cases_script demo_env_monotone).
Defined.

End CaseManagerHistories.

Section GuardedAuditTrail.

Import CaseManager CaseQueries.

Lemma stamps_not_later (env : Env) (p : Proc AMLCaseManager) (j : nat) :
  monotone_clock env -> stamps_read env p -> (clock_reads p <= j)%nat ->
  forall b, In b (case_actions (self p)) ->
    (CaseAction.timestamp b <= now_at env j)%Z.
Proof.
  intros Hmono (js & Hts & _ & Hr) Hj b Hb.
  apply (in_map CaseAction.timestamp) in Hb. rewrite Hts in Hb.
  apply in_map_iff in Hb. destruct Hb as (k & <- & Hk).
  rewrite Forall_forall in Hr. apply Hmono. specialize (Hr k Hk). lia.
Qed.

Lemma fresh_id_has_no_action (env : Env) (p : Proc AMLCaseManager) :
  distinct_uuids env -> actions_have_case (self p) -> ids_drawn env p ->
  actions_of (uuid4_at env (uuid_draws p)) (case_actions (self p)) = [].
Proof.
  intros Hinj Hhave [_ Hdrawn].
  destruct (actions_of _ _) as [| a l] eqn:E; [reflexivity | exfalso].
  assert (Ha : In a (actions_of (uuid4_at env (uuid_draws p)) (case_actions (self p))))
    by (rewrite E; left; reflexivity).
  apply actions_of_In in Ha. destruct Ha as [Ha Hid].
  destruct (Hhave a Ha) as (c & Hc & Ec).
  rewrite Forall_forall in Hdrawn. destruct (Hdrawn c Hc) as (k & Hk & Ek).
  rewrite Ec, Hid in Ek. apply Hinj in Ek. lia.
Qed.

Lemma snoc_for_known_case (m : AMLCaseManager) (cs' : list Case.t) (x : CaseAction.t) :
  audit_trail_ok m -> actions_have_case m ->
  (exists c, In c (cases m) /\ Case.case_id c = CaseAction.case_id x) ->
  map Case.case_id cs' = map Case.case_id (cases m) ->
  (forall b, In b (case_actions m) ->
     (CaseAction.timestamp b <= CaseAction.timestamp x)%Z) ->
  audit_trail_ok {| cases := cs'; case_actions := (case_actions m ++ [x])%list |} /\
  actions_have_case {| cases := cs'; case_actions := (case_actions m ++ [x])%list |}.
Proof.
  intros Hok Hhave (c & Hc & Hid) Hids Hlate.
  assert (Hback : forall c0, In c0 (cases m) ->
            exists c', In c' cs' /\ Case.case_id c' = Case.case_id c0).
  { apply same_ids_rows. symmetry. exact Hids. }
  split.
  - apply (audit_trail_ok_snoc m _ _ Hok Hlate).
    + intros c' Hc'. left. revert c' Hc'. apply same_ids_rows. exact Hids.
    + right. exists c. auto.
  - intros a Ha. cbn [cases case_actions] in *. apply in_app_or in Ha.
    destruct Ha as [Ha | [<- | []]].
    + destruct (Hhave a Ha) as (c0 & Hc0 & E0).
      destruct (Hback c0 Hc0) as (c' & Hc' & E'). exists c'. split; [exact Hc' | congruence].
    + destruct (Hback c Hc) as (c' & Hc' & E'). exists c'. split; [exact Hc' | congruence].
Qed.

Lemma op_keeps_audit (o : Op) (env : Env) (p : Proc AMLCaseManager) :
  distinct_uuids env -> monotone_clock env ->
  audit_inv env p -> targets_known o (self p) ->
  exists p', run_op o env p = (Returned tt, p') /\
             audit_trail_ok (self p') /\ actions_have_case (self p').
Proof.
  intros Hinj Hmono (Hok & Hhave & Hids & Hst) Htarget.
  pose proof (fun j Hj => stamps_not_later env p j Hmono Hst Hj) as Hlate.
  destruct o as [alert | cid new_status notes | cid who | cid notes who | cid res who];
    cbn [run_op targets_known] in *.
  - unfold bind. rewrite create_case_eq. eexists. split; [reflexivity |].
    cbn [state self]. split.
    + apply (audit_trail_ok_snoc (self p) _ _ Hok);
        cbn [act CaseAction.timestamp CaseAction.case_id CaseAction.action_type].
      * apply Hlate. lia.
      * intros c' Hc'. apply in_app_or in Hc'. destruct Hc' as [Hc' | [<- | []]].
        -- left. exists c'. auto.
        -- right. cbn [created_case Case.case_id].
           split; [reflexivity |]. split; [reflexivity |].
           apply fresh_id_has_no_action; assumption.
      * left. reflexivity.
    + intros a Ha. cbn [cases case_actions] in *. apply in_app_or in Ha.
      destruct Ha as [Ha | [<- | []]].
      * destruct (Hhave a Ha) as (c0 & Hc0 & E0). exists c0.
        split; [apply in_or_app; left; exact Hc0 | exact E0].
      * exists (created_case env p alert).
        split; [apply in_or_app; right; left; reflexivity | reflexivity].
  - destruct (known_or_unknown cid (self p)) as [(Hany & Hlen & Hc) | Hunk].
    + rewrite (update_known_state_eq _ _ _ _ _ Hany Hlen). eexists. split; [reflexivity |].
      cbn [state self]. apply (snoc_for_known_case (self p)); auto.
      * rewrite !loc_set_ids; reflexivity.
      * cbn [act CaseAction.timestamp]. apply Hlate. lia.
    + rewrite (update_case_status_unknown_eq _ _ _ _ _ Hunk).
      exists p. split; [reflexivity | split; assumption].
  - destruct (known_or_unknown cid (self p)) as [(Hany & Hlen & Hc) | Hunk].
    + rewrite (assign_case_known_eq _ _ _ _ Hany Hlen). eexists. split; [reflexivity |].
      cbn [state self]. apply (snoc_for_known_case (self p)); auto.
      * rewrite !loc_set_ids; reflexivity.
      * cbn [act CaseAction.timestamp]. apply Hlate. lia.
    + rewrite (assign_case_unknown_eq _ _ _ _ Hunk).
      exists p. split; [reflexivity | split; assumption].
  - unfold add_case_notes. rewrite log_case_action_eq. eexists. split; [reflexivity |].
    cbn [self]. apply (snoc_for_known_case (self p)); auto.
    cbn [logged CaseAction.timestamp]. apply Hlate. lia.
  - destruct (known_or_unknown cid (self p)) as [(Hany & Hlen & Hc) | Hunk].
    2:{ destruct Htarget as (c & Hin & Hid). destruct (Hunk c Hin Hid). }
    rewrite (close_case_known_eq _ _ _ _ _ Hany Hlen). eexists. split; [reflexivity |].
    cbn [state self].
    set (x1 := act env (uuid_draws p) (S (clock_reads p)) cid "STATUS_CHANGED" _ "SYSTEM").
    set (x2 := act env (S (uuid_draws p)) (S (S (clock_reads p))) cid "CASE_CLOSED" _ who).
    destruct (snoc_for_known_case (self p) (cases (self p)) x1 Hok Hhave Hc eq_refl)
      as [Hok1 Hhave1].
    { cbn [x1 act CaseAction.timestamp]. apply Hlate. lia. }
    change (case_actions (self p) ++ [x1; x2])%list
      with (case_actions (self p) ++ [x1] ++ [x2])%list.
    rewrite app_assoc.
    apply (snoc_for_known_case
             {| cases := cases (self p);
                case_actions := (case_actions (self p) ++ [x1])%list |}); auto.
    + cbn [cases]. rewrite !loc_set_ids; reflexivity.
    + cbn [case_actions]. intros b Hb. apply in_app_or in Hb.
      destruct Hb as [Hb | [<- | []]].
      * cbn [x2 act CaseAction.timestamp]. apply Hlate; [lia | exact Hb].
      * cbn [x1 x2 act CaseAction.timestamp]. apply Hmono. lia.
Qed.

Lemma audit_inv_step (o : Op) (env : Env) (p : Proc AMLCaseManager) :
  distinct_uuids env -> monotone_clock env ->
  audit_inv env p -> targets_known o (self p) ->
  exists p', run_op o env p = (Returned tt, p') /\ audit_inv env p'.
Proof.
  intros Hinj Hmono Hinv Htarget.
  destruct (op_keeps_audit o env p Hinj Hmono Hinv Htarget) as (p' & E & Hok & Hhave).
  destruct (op_grows o env p) as (p'' & E' & G).
  rewrite E in E'. injection E' as <-.
  destruct Hinv as (_ & _ & Hids & Hst).
  exists p'. split; [exact E |].
  split; [exact Hok |]. split; [exact Hhave |].
  split; [exact (ids_drawn_step env p p' Hinj G Hids) | exact (stamps_read_step env p p' G Hst)].
Qed.

(** X19.  Used with existing cases, the manager keeps its audit trail in
    order.  On a clock that does not run backwards and with identifiers that
    do not repeat, after any sequence of operations on a fresh manager in
    which [add_case_notes] and [close_case] name cases that exist when they
    are called, the earliest action of every case is CASE_CREATED and every
    other action has a CASE_CREATED action of its case before it. *)
Theorem guarded_use_keeps_audit_order (env : Env) (os : list Op) :
  distinct_uuids env -> monotone_clock env ->
  well_targeted os env start ->
  exists p',
    run_ops os env start = (Returned tt, p') /\
    audit_trail_ok (self p').
Proof.
  intros Hinj Hmono.
  assert (G : forall os p, audit_inv env p -> well_targeted os env p ->
                exists p', run_ops os env p = (Returned tt, p') /\ audit_inv env p').
  { clear os. induction os as [| o os IH]; intros p Hinv Hwt; cbn [run_ops well_targeted] in *.
    - exists p. split; [reflexivity | exact Hinv].
    - destruct Hwt as [Ht Hrest].
      destruct (audit_inv_step o env p Hinj Hmono Hinv Ht) as (p1 & E1 & Hinv1).
      rewrite E1 in Hrest. cbn [snd] in Hrest.
      destruct (IH p1 Hinv1 Hrest) as (p2 & E2 & Hinv2).
      exists p2. unfold bind. rewrite E1. split; [exact E2 | exact Hinv2]. }
  intros Hwt.
  destruct (G os start) as (p' & E & Hok & _).
  - split; [exact audit_trail_ok_init |].
    split; [intros a [] |].
    split; [split; constructor | exists []; repeat split; constructor].
  - exact Hwt.
  - exists p'. split; [exact E | exact Hok].
Qed.

Lemma two_cases_script_well_targeted : well_targeted two_cases_script demo_env start.
Proof.
  cbn [well_targeted two_cases_script targets_known].
  repeat split.
  - vm_compute. eexists. split; [right; left; reflexivity | reflexivity].
  - vm_compute. eexists. split; [left; reflexivity | reflexivity].
Qed.

Lemma guarded_use_keeps_audit_order_witness :
  well_targeted two_cases_script demo_env start /\
  exists p',
    run_ops two_cases_script demo_env start = (Returned tt, p') /\
    audit_trail_ok (self p').
Proof.
  split; [exact two_cases_script_well_targeted |].
  exact (guarded_use_keeps_audit_order demo_env two_cases_script demo_env_distinct
           demo_env_monotone two_cases_script_well_targeted).
Defined.

End GuardedAuditTrail.

Section EveryCaseTrail.

Import CaseManager CaseQueries CaseTrails.














End EveryCaseTrail.

Section CaseLifecycle.

Import CaseManager CaseQueries.

Lemma loc_set_twice (cid : string) (f g : Case.t -> Case.t) (cs : list Case.t) :
  (forall c, Case.case_id (f c) = Case.case_id c) ->
  loc_set cid g (loc_set cid f cs) = loc_set cid (fun c => g (f c)) cs.
Proof.
  intros Hf. unfold loc_set. rewrite map_map. apply map_ext. intros c.
  unfold mask. destruct (String.eqb (Case.case_id c) cid) eqn:M.
  - rewrite Hf, M. reflexivity.
  - rewrite M. reflexivity.
Qed.

Lemma loc_set_Forall2 (cid : string) (f : Case.t -> Case.t) (cs : list Case.t) :
  Forall2 (fun c c' => if String.eqb (Case.case_id c) cid then c' = f c else c' = c)
    cs (loc_set cid f cs).
Proof.
  unfold loc_set, mask. induction cs as [| c cs IH]; cbn [map]; constructor; [| exact IH].
  destruct (String.eqb (Case.case_id c) cid); reflexivity.
Qed.

Lemma Forall2_same (cs : list Case.t) (R : Case.t -> Case.t -> Prop) :
  (forall c, In c cs -> R c c) -> Forall2 R cs cs.
Proof.
  induction cs as [| c cs IH]; intros H; constructor.
  - apply H. left. reflexivity.
  - apply IH. intros c0 H0. apply H. right. exact H0.
Qed.

(** X20.  Closing a case that exists.  The table keeps its rows in their
    places: a row with the identifier keeps the columns written at creation
    and its assignee and ends CLOSED, with the resolution, an update time
    (the first clock reading of the call) and a closing time (the fourth);
    every other row is exactly as it was.  Exactly two actions are logged
    for the case (STATUS_CHANGED by SYSTEM, then CASE_CLOSED by the
    analyst), and the case is not reported overdue afterwards, however late
    the clock. *)
Theorem closed_case_is_settled (cid resolution analyst_name : string) (env : Env)
    (p : Proc AMLCaseManager) (c : Case.t) :
  In c (cases (self p)) ->
  Case.case_id c = cid ->
  exists p' a1 a2 late p'',
    close_case cid resolution analyst_name env p = (Returned tt, p') /\
    Forall2
      (fun c0 c' =>
         if String.eqb (Case.case_id c0) cid
         then same_core c0 c' /\
              Case.assigned_to c' = Case.assigned_to c0 /\
              Case.status c' = "CLOSED" /\
              Case.last_updated c' = Some (now_at env (clock_reads p)) /\
              Case.closed_at c' = Some (now_at env (3 + clock_reads p)) /\
              Case.resolution c' = Some resolution
         else c' = c0)
      (cases (self p)) (cases (self p')) /\
    case_actions (self p') = (case_actions (self p) ++ [a1; a2])%list /\
    (CaseAction.case_id a1, CaseAction.action_type a1, CaseAction.analyst_name a1)
      = (cid, "STATUS_CHANGED", "SYSTEM") /\
    (CaseAction.case_id a2, CaseAction.action_type a2, CaseAction.analyst_name a2)
      = (cid, "CASE_CLOSED", analyst_name) /\
    get_overdue_cases env p' = (Returned late, p'') /\
    (forall c', In c' late -> Case.case_id c' <> cid).
Proof.
  intros Hin Hid.
  destruct (mask_any_known cid (self p) c Hin Hid) as [Hany Hlen].
  rewrite (close_case_known_eq _ _ _ _ _ Hany Hlen).
  rewrite !loc_set_twice by reflexivity.
  set (f := fun c0 : Case.t =>
              Case.set_resolution resolution
                (Case.set_closed_at (now_at env (S (S (S (clock_reads p)))))
                   (Case.set_last_updated (now_at env (clock_reads p))
                      (Case.set_status "CLOSED" c0)))).
  assert (Hne : (length (cases (self p)) =? 0)%nat = false).
  { apply Nat.ltb_lt in Hlen. apply Nat.eqb_neq. lia. }
  pose proof (loc_set_Forall2 cid f (cases (self p))) as Hrows.
  do 5 eexists.
  split; [reflexivity |].
  cbn [state self cases case_actions uuid_draws clock_reads].
  split.
  { eapply Forall2_impl; [| exact Hrows]. cbv beta. intros c0 c' H.
    destruct (String.eqb (Case.case_id c0) cid); [| exact H].
    subst c'. repeat split. }
  split; [reflexivity |]. split; [reflexivity |]. split; [reflexivity |].
  split.
  - unfold get_overdue_cases, bind, get_self, now, ret.
    cbn [state self cases case_actions uuid_draws clock_reads].
    rewrite !length_loc_set, Hne. reflexivity.
  - intros c' H E. apply filter_In in H. destruct H as [H Hover].
    apply loc_set_In in H. destruct H as (c0 & _ & ->).
    unfold mask in *. destruct (String.eqb (Case.case_id c0) cid) eqn:M.
    + unfold is_overdue, f in Hover. cbn in Hover.
      rewrite andb_false_r in Hover. discriminate Hover.
    + apply String.eqb_neq in M. contradiction.
Qed.

Lemma closed_case_is_settled_witness :
  exists c p' late p'',
    In c (cases (self closed_state)) /\ Case.case_id c = "uuid-0" /\
    close_case "uuid-0" "Duplicate" "AML_Analyst_2" demo_env closed_state
      = (Returned tt, p') /\
    get_overdue_cases demo_env p' = (Returned late, p'') /\
    (forall c', In c' late -> Case.case_id c' <> "uuid-0").
Proof.
  destruct closed_state_case as (c & Hin & Hid & _).
  destruct (closed_case_is_settled "uuid-0" "Duplicate" "AML_Analyst_2" demo_env
              closed_state c Hin Hid)
    as (p' & a1 & a2 & late & p'' & E & _ & _ & _ & _ & Eo & Hlate).
  exists c, p', late, p''.
  exact (conj Hin (conj Hid (conj E (conj Eo Hlate)))).
Defined.

Lemma get_overdue_cases_eq (env : Env) (p : Proc AMLCaseManager) :
  cases (self p) <> [] ->
  get_overdue_cases env p =
  (Returned (filter (is_overdue (now_at env (clock_reads p))) (cases (self p))),
   {| self := self p; uuid_draws := uuid_draws p; clock_reads := S (clock_reads p) |}).
Proof.
  intros N. unfold get_overdue_cases, bind, get_self. cbv beta iota.
  destruct (length (cases (self p)) =? 0)%nat eqn:L; [| reflexivity].
  apply Nat.eqb_eq in L. destruct (cases (self p)); [congruence | discriminate L].
Qed.

(** X21.  [get_case_summary] does not change the manager.  For an empty
    manager it returns only [total = 0] and does not read the clock;
    otherwise [total] is the number of cases, the counts by status, by
    priority and by type each add up to it, and [overdue] is at most it. *)
Theorem case_summary_counts_add_up (env : Env) (p : Proc AMLCaseManager) :
  exists s p',
    get_case_summary env p = (Returned s, p') /\
    self p' = self p /\
    total s = length (cases (self p)) /\
    (cases (self p) = [] ->
       p' = p /\ by_status s = None /\ by_priority s = None /\ by_type s = None /\
       overdue s = None) /\
    (cases (self p) <> [] ->
       exists ds dp dt n,
         by_status s = Some ds /\ by_priority s = Some dp /\ by_type s = Some dt /\
         overdue s = Some n /\
         Monitor.counts_total ds = total s /\ Monitor.counts_total dp = total s /\
         Monitor.counts_total dt = total s /\ (n <= total s)%nat /\
         clock_reads p' = S (clock_reads p)).
Proof.
  destruct (cases (self p)) as [| c cs] eqn:E.
  - exists {| total := 0; by_status := None; by_priority := None; by_type := None;
              overdue := None |}, p.
    unfold get_case_summary, bind, get_self. cbv beta iota. rewrite E. cbn [length Nat.eqb].
    split; [reflexivity |]. split; [reflexivity |]. split; [reflexivity |].
    split; [intros _; repeat split | intros N; congruence].
  - assert (N : cases (self p) <> []) by (rewrite E; discriminate).
    unfold get_case_summary, bind at 1, get_self. cbv beta iota.
    rewrite E. cbn [length Nat.eqb]. rewrite <- E.
    unfold bind. rewrite (get_overdue_cases_eq env p N).
    do 2 eexists. split; [reflexivity |].
    cbn [self total by_status by_priority by_type overdue clock_reads].
    split; [reflexivity |]. split; [reflexivity |].
    split; [intros X; congruence |]. intros _.
    do 4 eexists.
    split; [reflexivity |]. split; [reflexivity |]. split; [reflexivity |].
    split; [reflexivity |].
    rewrite !value_counts_total, !length_map, !E.
    split; [reflexivity |]. split; [reflexivity |]. split; [reflexivity |].
    split; [apply (filter_length_le _ (c :: cs)) | reflexivity].
Qed.

Lemma case_summary_counts_add_up_witness :
  cases (self closed_state) <> [] /\
  exists s p' ds,
    get_case_summary demo_env closed_state = (Returned s, p') /\
    by_status s = Some ds /\ Monitor.counts_total ds = total s.
Proof.
  assert (N : cases (self closed_state) <> []).
  { destruct closed_state_case as (c & Hin & _). intros E. rewrite E in Hin. destruct Hin. }
  split; [exact N |].
  destruct (case_summary_counts_add_up demo_env closed_state)
    as (s & p' & E & _ & _ & _ & H).
  destruct (H N) as (ds & dp & dt & n & Hs & _ & _ & _ & Hc & _).
  exists s, p', ds. exact (conj E (conj Hs Hc)).
Defined.

(** X22.  [assign_case] reassigns the named case and nothing else.  The
    table keeps its rows in their places: a row with the identifier gets
    the analyst and an update time and keeps every other column, every
    other row is exactly as it was; so no status changes.  One
    CASE_ASSIGNED action is logged when the case exists; for an identifier
    without a case nothing happens at all. *)
Theorem assign_case_reassigns_only (cid analyst_name : string) (env : Env)
    (p : Proc AMLCaseManager) :
  exists p',
    assign_case cid analyst_name env p = (Returned tt, p') /\
    Forall2
      (fun c c' =>
         if String.eqb (Case.case_id c) cid
         then same_core c c' /\
              Case.status c' = Case.status c /\
              Case.closed_at c' = Case.closed_at c /\
              Case.resolution c' = Case.resolution c /\
              Case.assigned_to c' = analyst_name /\
              Case.last_updated c' = Some (now_at env (clock_reads p))
         else c' = c)
      (cases (self p)) (cases (self p')) /\
    map Case.status (cases (self p')) = map Case.status (cases (self p)) /\
    ((exists c, In c (cases (self p)) /\ Case.case_id c = cid) ->
       exists a, case_actions (self p') = (case_actions (self p) ++ [a])%list /\
                 CaseAction.case_id a = cid /\
                 CaseAction.action_type a = "CASE_ASSIGNED") /\
    (unknown cid (self p) -> p' = p).
Proof.
  destruct (known_or_unknown cid (self p)) as [(Hany & Hlen & Hc) | Hunk].
  - rewrite (assign_case_known_eq _ _ _ _ Hany Hlen).
    rewrite loc_set_twice by reflexivity.
    set (f := fun c0 : Case.t =>
                Case.set_last_updated (now_at env (clock_reads p))
                  (Case.set_assigned_to analyst_name c0)).
    pose proof (loc_set_Forall2 cid f (cases (self p))) as Hrows.
    eexists. split; [reflexivity |].
    cbn [state self cases case_actions].
    split.
    { eapply Forall2_impl; [| exact Hrows]. cbv beta. intros c0 c' H.
      destruct (String.eqb (Case.case_id c0) cid); [| exact H].
      subst c'. repeat split. }
    split.
    { unfold loc_set. rewrite map_map. apply map_ext. intros c0.
      destruct (mask cid c0); reflexivity. }
    split.
    + intros _. eexists. split; [reflexivity |]. split; reflexivity.
    + intros Hunk. destruct Hc as (c & Hin & Hid). destruct (Hunk c Hin Hid).
  - rewrite (assign_case_unknown_eq _ _ _ _ Hunk). exists p.
    split; [reflexivity |].
    split.
    { apply Forall2_same. intros c Hc.
      destruct (String.eqb_spec (Case.case_id c) cid) as [E | N]; [| reflexivity].
      destruct (Hunk c Hc E). }
    split; [reflexivity |].
    split; [intros (c & Hin & Hid); destruct (Hunk c Hin Hid) | reflexivity].
Qed.

Lemma assign_case_reassigns_only_witness :
  unknown "CASE-404" (self closed_state) /\
  assign_case "CASE-404" "AML_Analyst_1" demo_env closed_state = (Returned tt, closed_state).
Proof.
  split; [exact uuid0_only_case_of_closed_state |].
  destruct (assign_case_reassigns_only "CASE-404" "AML_Analyst_1" demo_env closed_state)
    as (p' & E & _ & _ & _ & H).
  rewrite (H uuid0_only_case_of_closed_state) in E. exact E.
Defined.

End CaseLifecycle.

(** * From alert to case *)

Section AlertToCase.

Import AlertEngine CaseManager CaseQueries.

Lemma fired_types_are_engine_types (customer : Customer.t) (ty : string) :
  In ty (fired_types customer) -> In ty engine_types.
Proof.
  unfold fired_types, engine_types. intros H.
  repeat (apply in_app_or in H; destruct H as [H | H]);
    repeat match type of H with
           | In _ (if ?b then _ else _) => destruct b
           | In _ (match ?o with Some _ => _ | None => _ end) => destruct o
           end;
    cbn [In] in *; intuition.
Qed.

(** X23.  Every alert the engine raises has a route of its own through the
    case manager.  The case created from an alert of an evaluation is OPEN,
    belongs to the customer of the profile and points to the alert; its case
    type, first assignee and deadline are those of the alert type (PEP,
    sanctions and fraud alerts: their own case type, the senior analyst,
    4 hours; high-risk alerts: enhanced due diligence, the analyst team,
    24 hours; large-transaction alerts: AML investigation, the junior
    analyst, 72 hours), so no engine alert falls to the 168-hour default. *)
Theorem engine_alerts_route_to_cases {St : Type} (customer : Customer.t) (env : Env)
    (p : Proc St) :
  exists alerts p',
    _evaluate_customer_alerts customer env p = (Returned alerts, p') /\
    forall a, In a alerts ->
    forall (env' : Env) (q : Proc AMLCaseManager),
    exists cid c q',
      create_case_from_alert a env' q = (Returned cid, q') /\
      cases (self q') = (cases (self q) ++ [c])%list /\
      Case.case_id c = cid /\
      Case.status c = "OPEN" /\
      Case.customer_id c = Customer.customer_id customer /\
      Case.alert_id c = Alert.alert_id a /\
      In (Alert.alert_type a) engine_types /\
      (Case.case_type c, Case.assigned_to c,
       (Case.due_date c - now_at env' (S (clock_reads q)))%Z)
      = (fst (fst (routing (Alert.alert_type a))),
         snd (fst (routing (Alert.alert_type a))),
         timedelta_hours (snd (routing (Alert.alert_type a)))).
Proof.
  destruct (evaluation_alert_facts customer env p) as (alerts & p' & E & _ & _ & Hall).
  destruct (evaluation_draws customer env p) as (alerts' & p'' & E' & Hty & _).
  rewrite E in E'. injection E' as <- <-.
  exists alerts, p'. split; [exact E |].
  intros a Ha env' q. rewrite Forall_forall in Hall.
  destruct (Hall a Ha) as (Hcust & _ & _ & Hprio).
  assert (Hin : In (Alert.alert_type a) engine_types).
  { apply (fired_types_are_engine_types customer). rewrite <- Hty. apply in_map, Ha. }
  rewrite create_case_eq.
  exists (uuid4_at env' (uuid_draws q)), (created_case env' q a). eexists.
  split; [reflexivity |]. cbn [state self cases].
  split; [reflexivity |]. split; [reflexivity |]. split; [reflexivity |].
  split; [exact Hcust |]. split; [reflexivity |]. split; [exact Hin |].
  cbn [created_case Case.case_type Case.assigned_to Case.due_date].
  rewrite Hprio. unfold engine_types in Hin. cbn [In] in Hin.
  assert (Z0 : forall x y : Z, (x + y - x = y)%Z) by (intros; lia).
  rewrite Z0.
  destruct Hin as [<- | [<- | [<- | [<- | [<- | []]]]]]; reflexivity.
Qed.

Lemma engine_alerts_route_to_cases_witness :
  exists alerts p' a cid c q',
    _evaluate_customer_alerts scenario_profile demo_env idle = (Returned alerts, p') /\
    In a alerts /\
    create_case_from_alert a demo_env start = (Returned cid, q') /\
    cases (self q') = (cases (self start) ++ [c])%list /\
    Case.status c = "OPEN".
Proof.
  destruct (engine_alerts_route_to_cases scenario_profile demo_env idle)
    as (alerts & p' & E & H).
  assert (Hin : exists a, In a alerts).
  { vm_compute in E. injection E as <- _. eexists. left. reflexivity. }
  destruct Hin as (a & Hin).
  destruct (H a Hin demo_env start) as (cid & c & q' & Ec & Hc & _ & Hs & _).
  exists alerts, p', a, cid, c, q'.
  exact (conj E (conj Hin (conj Ec (conj Hc Hs)))).
Defined.

(** X24.  What the manager does with an alert it does not recognise.  A
    priority that is not one of CRITICAL, HIGH, MEDIUM, LOW as written (for
    instance in lower case) gets the junior analyst and the 168-hour SLA; an
    alert type that is not one of the six names gets the case type
    AML_INVESTIGATION.  Nothing is rejected. *)
Theorem unrecognised_alert_gets_defaults (alert : Alert.t) (env : Env)
    (q : Proc AMLCaseManager) :
  exists cid c q',
    create_case_from_alert alert env q = (Returned cid, q') /\
    cases (self q') = (cases (self q) ++ [c])%list /\
    Case.priority c = Alert.priority alert /\
    (str_in (Alert.priority alert) ["CRITICAL"; "HIGH"; "MEDIUM"; "LOW"] = false ->
       Case.assigned_to c = "Junior_AML_Analyst" /\
       Case.due_date c = (now_at env (S (clock_reads q)) + timedelta_hours 168)%Z) /\
    (str_in (Alert.alert_type alert)
       ["PEP_DETECTED"; "SANCTIONS_MATCH"; "FRAUD_INDICATOR"; "HIGH_RISK_CUSTOMER";
        "LARGE_TRANSACTION"; "SUSPICIOUS_PATTERN"] = false ->
       Case.case_type c = "AML_INVESTIGATION").
Proof.
  rewrite create_case_eq.
  exists (uuid4_at env (uuid_draws q)), (created_case env q alert). eexists.
  split; [reflexivity |]. cbn [state self cases].
  split; [reflexivity |]. split; [reflexivity |].
  cbn [created_case Case.assigned_to Case.due_date Case.case_type].
  split.
  - intros H. rewrite (proj2 (proj2 (proj2 (proj2 sla_hours_table))) _ H).
    unfold _auto_assign_case. unfold str_in in H. cbn [existsb] in H.
    apply orb_false_iff in H. destruct H as [H1 H].
    apply orb_false_iff in H. destruct H as [H2 _].
    rewrite H1, H2. split; reflexivity.
  - intros H. unfold _determine_case_type. cbn [dict_get].
    unfold str_in in H. cbn [existsb] in H.
    repeat (apply orb_false_iff in H; destruct H as [?H H]).
    repeat match goal with X : String.eqb _ _ = false |- _ => rewrite X; clear X end.
    reflexivity.
Qed.

Lemma unrecognised_alert_gets_defaults_witness :
  exists cid c q',
    create_case_from_alert lowercase_alert demo_env start = (Returned cid, q') /\
    cases (self q') = [c] /\
    Case.assigned_to c = "Junior_AML_Analyst" /\
    Case.due_date c = (1 + timedelta_hours 168)%Z.
Proof.
  destruct (unrecognised_alert_gets_defaults lowercase_alert demo_env start)
    as (cid & c & q' & E & Hc & _ & H & _).
  destruct (H eq_refl) as [Ha Hd].
  exists cid, c, q'. exact (conj E (conj Hc (conj Ha Hd))).
Defined.

End AlertToCase.
